(** * The agent-to-agent message bus of algent: admission control,
      signing, channel routing, task dispatch and response correlation.

    Shallow embedding of [src/core/security.py], [src/core/message.py],
    [src/a2a/client.py] and [src/core/agent.py].

    Conventions of the embedding.
    - Clock readings ([time.time()], the event loop's [time()]) are exact
      numbers in [Z] (seconds in some fixed unit); every function that reads
      a clock takes the reading as an argument.
    - A Python [dict] whose iteration order is observed is an association
      list in insertion order; a [dict] used only as a map is a [gmap].
    - A method that mutates [self] returns the new object; a method that may
      raise returns a [result].
    - What the code leaves to its environment is an argument or a section
      variable: the private key and base64 ([private_key_sign],
      [b64encode]), [uuid4], the subclass's [execute_task], the JSON parser
      [parse_raw], whether Redis answers, and the messages the inbound loop
      handles while a caller is suspended.
    - The agent record carries two fields the code does not have, which
      make its effects observable: the number of identifiers drawn so far
      and the trace of handler and [execute_task] calls.  Log records are
      not modelled. *)

From Stdlib Require Import ZArith List String Ascii Lia Permutation.
From stdpp Require Import base option list gmap strings pretty sorting.

Open Scope Z_scope.
Set Warnings "-register-all".

(** ** Python values, [dict] access, [json.dumps] and [repr] *)

Module Py.

(** The values a message payload holds once pydantic has parsed the JSON
    text: [None], [bool], [int], [str], [list] and [dict] with string keys.
    JSON numbers with a fraction (Python floats) are outside the model.  A
    [str] is a Rocq string with one character per code point below 256. *)
Inductive value :=
| PNone
| PBool (b : bool)
| PInt (n : Z)
| PStr (s : string)
| PList (l : list value)
| PDict (d : list (string * value)).

(** A [dict] with string keys, in insertion order; keys are unique. *)
Definition dict := list (string * value).

Fixpoint lookup (key : string) (d : dict) : option value :=
  match d with
  | [] => None
  | (k, v) :: rest => if String.eqb k key then Some v else lookup key rest
  end.

(** [d.get(key, default)] *)
Definition get (d : dict) (key : string) (default : value) : value :=
  match lookup key d with Some v => v | None => default end.

Definition chr (n : nat) : string := String (ascii_of_nat n) EmptyString.
Definition dquote : string := chr 34.
Definition squote : string := chr 39.
Definition backslash : string := chr 92.

Definition hex_digit (n : N) : ascii :=
  nth (N.to_nat n) (list_ascii_of_string "0123456789abcdef") "0"%char.
Definition hex2 (n : N) : string :=
  String (hex_digit (n / 16)) (String (hex_digit (n mod 16)) EmptyString).

Fixpoint flat_map_string (f : ascii → string) (s : string) : string :=
  match s with
  | EmptyString => EmptyString
  | String c rest => f c +:+ flat_map_string f rest
  end.

Fixpoint mem_char (c : ascii) (s : string) : bool :=
  match s with
  | EmptyString => false
  | String c' rest => Ascii.eqb c c' || mem_char c rest
  end.

(** [json.dumps(..., sort_keys=True)] with the default [ensure_ascii] and
    separators: the replacement of one character inside a string. *)
Definition json_escape_char (c : ascii) : string :=
  let n := N_of_ascii c in
  if N.eqb n 34 then backslash +:+ dquote
  else if N.eqb n 92 then backslash +:+ backslash
  else if N.eqb n 10 then backslash +:+ "n"
  else if N.eqb n 13 then backslash +:+ "r"
  else if N.eqb n 9 then backslash +:+ "t"
  else if N.eqb n 12 then backslash +:+ "f"
  else if N.eqb n 8 then backslash +:+ "b"
  else if N.ltb n 32 || N.ltb 126 n then backslash +:+ "u00" +:+ hex2 n
  else String c EmptyString.

Definition encode_basestring_ascii (s : string) : string :=
  dquote +:+ flat_map_string json_escape_char s +:+ dquote.

(** [sorted(dct.items())]: with unique keys the order is that of the keys,
    compared code point by code point. *)
Fixpoint insert_item {A} (kv : string * A) (l : list (string * A)) : list (string * A) :=
  match l with
  | [] => [kv]
  | h :: t => if String.leb kv.1 h.1 then kv :: h :: t else h :: insert_item kv t
  end.

Definition sorted_items {A} (l : list (string * A)) : list (string * A) :=
  foldr insert_item [] l.

Fixpoint dumps (v : value) : string :=
  match v with
  | PNone => "null"
  | PBool true => "true"
  | PBool false => "false"
  | PInt n => pretty n
  | PStr s => encode_basestring_ascii s
  | PList l => "[" +:+ String.concat ", " (List.map dumps l) +:+ "]"
  | PDict d =>
      "{" +:+ String.concat ", "
               (List.map (λ kv : string * string, encode_basestring_ascii kv.1 +:+ ": " +:+ kv.2)
                  (sorted_items (List.map (λ '(k, v), (k, dumps v)) d)))
          +:+ "}"
  end.

(** [str.isprintable] on code points below 256: controls, DEL, the C1
    block, the no-break space and the soft hyphen are not printable. *)
Definition printable (n : N) : bool :=
  if N.ltb n 32 then false
  else if N.ltb n 127 then true
  else if N.ltb n 161 then false
  else negb (N.eqb n 173).

(** [repr] of a [str]: single quotes unless the text holds a single quote
    and no double quote. *)
Definition repr_char (quote : ascii) (c : ascii) : string :=
  let n := N_of_ascii c in
  if Ascii.eqb c quote || N.eqb n 92 then backslash +:+ String c EmptyString
  else if N.eqb n 9 then backslash +:+ "t"
  else if N.eqb n 10 then backslash +:+ "n"
  else if N.eqb n 13 then backslash +:+ "r"
  else if printable n then String c EmptyString
  else backslash +:+ "x" +:+ hex2 n.

Definition repr_str (s : string) : string :=
  let quote := if mem_char "'"%char s && negb (mem_char (ascii_of_nat 34) s)
               then ascii_of_nat 34 else "'"%char in
  String quote EmptyString +:+ flat_map_string (repr_char quote) s +:+ String quote EmptyString.

Fixpoint repr (v : value) : string :=
  match v with
  | PNone => "None"
  | PBool true => "True"
  | PBool false => "False"
  | PInt n => pretty n
  | PStr s => repr_str s
  | PList l => "[" +:+ String.concat ", " (List.map repr l) +:+ "]"
  | PDict d =>
      "{" +:+ String.concat ", " (List.map (λ '(k, v), repr_str k +:+ ": " +:+ repr v) d) +:+ "}"
  end.

(** [str(v)], which is what an f-string inserts for [{v}]. *)
Definition str (v : value) : string :=
  match v with
  | PStr s => s
  | _ => repr v
  end.

(** Lists and dicts are unhashable: using one as a dict key or a set
    element raises [TypeError]. *)
Definition hashable (v : value) : bool :=
  match v with
  | PList _ | PDict _ => false
  | _ => true
  end.

(** Truth value of [v] in a condition ([if v:], [not v]). *)
Definition truthy (v : value) : bool :=
  match v with
  | PNone => false
  | PBool b => b
  | PInt n => negb (Z.eqb n 0)
  | PStr s => negb (String.eqb s "")
  | PList l => match l with [] => false | _ => true end
  | PDict d => match d with [] => false | _ => true end
  end.

(** [==] between hashable values, as a set or a dict compares its
    elements: [True == 1] and [False == 0]. *)
Definition eqb (a b : value) : bool :=
  match a, b with
  | PNone, PNone => true
  | PBool x, PBool y => Bool.eqb x y
  | PInt x, PInt y => Z.eqb x y
  | PBool x, PInt y | PInt y, PBool x => Z.eqb (if x then 1 else 0) y
  | PStr x, PStr y => String.eqb x y
  | _, _ => false
  end.

(** [d[key] = v]: the value of an existing key is replaced where it stands, a
    new key goes to the end. *)
Fixpoint setitem (key : string) (v : value) (d : dict) : dict :=
  match d with
  | [] => [(key, v)]
  | (k, x) :: rest =>
      if String.eqb k key then (k, v) :: rest else (k, x) :: setitem key v rest
  end.

(** The first index of the slice [l[start:]] of a list of length [len]: a
    negative [start] counts from the end, and both ends are clipped. *)
Definition slice_start (start : Z) (len : nat) : nat :=
  if start <? 0 then Z.to_nat (Z.max (Z.of_nat len + start) 0)
  else Z.to_nat (Z.min start (Z.of_nat len)).

(** [l[start:]] *)
Definition slice_from {A} (start : Z) (l : list A) : list A :=
  drop (slice_start start (length l)) l.

(** The canonical form of a value: the same value with the items of every
    dict, at any depth, in the order of their keys.  Two values have the
    same canonical form when they are the same up to the order in which
    their dicts were built. *)
Fixpoint canon (v : value) : value :=
  match v with
  | PList l => PList (List.map canon l)
  | PDict d => PDict (sorted_items (List.map (λ '(k, v), (k, canon v)) d))
  | _ => v
  end.

(** *** Reading the text of [json.dumps] back

    What a JSON reader does with the first characters of a text, as far as
    the theorems on [dumps] need it. *)

Definition hex_value (c : ascii) : N :=
  let n := N_of_ascii c in if N.leb 97 n then (n - 87)%N else (n - 48)%N.

(** One character of a JSON string, with what follows it: the inverse of
    [json_escape_char]. *)
Definition json_unescape_char (s : string) : option (ascii * string) :=
  match s with
  | EmptyString => None
  | String c rest =>
      if N.eqb (N_of_ascii c) 92
      then
        match rest with
        | EmptyString => None
        | String x rest' =>
            let n := N_of_ascii x in
            if N.eqb n 110 then Some (ascii_of_N 10, rest')
            else if N.eqb n 114 then Some (ascii_of_N 13, rest')
            else if N.eqb n 116 then Some (ascii_of_N 9, rest')
            else if N.eqb n 102 then Some (ascii_of_N 12, rest')
            else if N.eqb n 98 then Some (ascii_of_N 8, rest')
            else if N.eqb n 117 then
              match rest' with
              | String _ (String _ (String h1 (String h2 rest''))) =>
                  Some (ascii_of_N (16 * hex_value h1 + hex_value h2), rest'')
              | _ => None
              end
            else Some (x, rest')
        end
      else Some (c, rest)
  end.

(** The characters of a number: the digits and the minus sign. *)
Definition numeric (c : ascii) : bool :=
  let n := N_of_ascii c in (N.leb 48 n && N.leb n 57) || N.eqb n 45.

Fixpoint all_numeric (s : string) : bool :=
  match s with
  | EmptyString => true
  | String c rest => numeric c && all_numeric rest
  end.

(** A text that cannot go on a number: the end, or a first character that
    is none of a number. *)
Definition delimited (r : string) : bool :=
  match r with
  | EmptyString => true
  | String c _ => negb (numeric c)
  end.

(** The kind of a value, and the kind its first character announces. *)
Definition kind (v : value) : N :=
  match v with
  | PNone => 0 | PBool true => 1 | PBool false => 2 | PInt _ => 3
  | PStr _ => 4 | PList _ => 5 | PDict _ => 6
  end%N.

Definition char_kind (c : ascii) : N :=
  let n := N_of_ascii c in
  if N.eqb n 110 then 0 else if N.eqb n 116 then 1 else if N.eqb n 102 then 2
  else if numeric c then 3 else if N.eqb n 34 then 4 else if N.eqb n 91 then 5
  else if N.eqb n 123 then 6 else 7.

End Py.

(** Exceptions, with the text [str(e)] gives, and results of calls that may
    raise. *)
Inductive exn :=
| RuntimeError (msg : string)
| TimeoutError (msg : string)
| TypeError (msg : string)
| ConnectionError (msg : string)
| AttributeError (msg : string)
| Exception (msg : string).

Definition exn_str (e : exn) : string :=
  match e with
  | RuntimeError m | TimeoutError m | TypeError m
  | ConnectionError m | AttributeError m | Exception m => m
  end.

Inductive result (A : Type) :=
| Ok (a : A)
| Raise (e : exn).
Arguments Ok {A} a.
Arguments Raise {A} e.

(** ** Messages ([src/core/message.py]) *)

Module Message.

Inductive MessageType :=
| TASK_REQUEST
| TASK_RESPONSE
| CAPABILITY_ANNOUNCEMENT
| CAPABILITY_QUERY
| CAPABILITY_RESPONSE
| STATUS_UPDATE
| ERROR.

#[global] Instance MessageType_eq_dec : EqDecision MessageType.
Proof. solve_decision. Defined.

(** The string value of the enumeration member ([use_enum_values]). *)
Definition value (t : MessageType) : string :=
  match t with
  | TASK_REQUEST => "task_request"
  | TASK_RESPONSE => "task_response"
  | CAPABILITY_ANNOUNCEMENT => "capability_announcement"
  | CAPABILITY_QUERY => "capability_query"
  | CAPABILITY_RESPONSE => "capability_response"
  | STATUS_UPDATE => "status_update"
  | ERROR => "error"
  end.

Record A2AMessage := mk {
  message_id : string;
  sender_id : string;
  recipient_id : string;
  message_type : MessageType;
  timestamp : string;
  payload : Py.dict;
  requires_response : bool;
  signature : option string
}.

Definition set_sender_id (v : string) (m : A2AMessage) : A2AMessage :=
  mk (message_id m) v (recipient_id m) (message_type m) (timestamp m)
     (payload m) (requires_response m) (signature m).
Definition set_recipient_id (v : string) (m : A2AMessage) : A2AMessage :=
  mk (message_id m) (sender_id m) v (message_type m) (timestamp m)
     (payload m) (requires_response m) (signature m).
Definition set_timestamp (v : string) (m : A2AMessage) : A2AMessage :=
  mk (message_id m) (sender_id m) (recipient_id m) (message_type m) v
     (payload m) (requires_response m) (signature m).
Definition set_payload (v : Py.dict) (m : A2AMessage) : A2AMessage :=
  mk (message_id m) (sender_id m) (recipient_id m) (message_type m)
     (timestamp m) v (requires_response m) (signature m).
Definition set_signature (v : option string) (m : A2AMessage) : A2AMessage :=
  mk (message_id m) (sender_id m) (recipient_id m) (message_type m)
     (timestamp m) (payload m) (requires_response m) v.

End Message.

(** ** Rate limiter ([src/core/security.py], class [RateLimiter]) *)

Module RateLimiter.

Record t := mk {
  max_requests : Z;
  window_seconds : Z;
  _requests : gmap string (list Z)
}.

(** [RateLimiter(max_requests, window_seconds)] *)
Definition init (max_requests window_seconds : Z) : t :=
  mk max_requests window_seconds ∅.

(** The list stored for [identifier]; a missing key is first set to []. *)
Definition requests_of (rl : t) (identifier : string) : list Z :=
  default [] (_requests rl !! identifier).

(** The list comprehension of [is_allowed]: entries newer than
    [window_start]. *)
Definition live (window_start : Z) (reqs : list Z) : list Z :=
  filter (λ req_time, window_start < req_time) reqs.

(** [is_allowed(identifier)] with [now = time.time()]. *)
Definition is_allowed (now : Z) (identifier : string) (rl : t) : t * bool :=
  let window_start := now - window_seconds rl in
  let kept := live window_start (requests_of rl identifier) in
  if bool_decide (Z.of_nat (length kept) < max_requests rl)
  then (mk (max_requests rl) (window_seconds rl)
           (<[identifier := kept ++ [now]]> (_requests rl)), true)
  else (mk (max_requests rl) (window_seconds rl)
           (<[identifier := kept]> (_requests rl)), false).

(** A sequence of calls [(now, identifier)], oldest first; the answers are
    returned in the same order. *)
Fixpoint run (calls : list (Z * string)) (rl : t) : t * list bool :=
  match calls with
  | [] => (rl, [])
  | (now, identifier) :: rest =>
      let '(rl1, b) := is_allowed now identifier rl in
      let '(rl2, bs) := run rest rl1 in
      (rl2, b :: bs)
  end.

(** The timestamps of the calls of [identifier] that were accepted. *)
Fixpoint accepted (identifier : string) (calls : list (Z * string))
    (answers : list bool) : list Z :=
  match calls, answers with
  | (now, i) :: calls', b :: answers' =>
      if bool_decide (i = identifier) && b
      then now :: accepted identifier calls' answers'
      else accepted identifier calls' answers'
  | _, _ => []
  end.

(** Call times never decrease and none is later than [now]. *)
Fixpoint clock_ordered (calls : list (Z * string)) (now : Z) : Prop :=
  match calls with
  | [] => True
  | (t, _) :: rest =>
      t <= now ∧ Forall (λ c, t <= c.1) rest ∧ clock_ordered rest now
  end.

(** Two limiters that agree on a sender: same list for it, same settings. *)
Definition agree (id : string) (rl1 rl2 : t) : Prop :=
  requests_of rl1 id = requests_of rl2 id
  ∧ max_requests rl1 = max_requests rl2
  ∧ window_seconds rl1 = window_seconds rl2.

(** The answers given to the calls of [identifier], in order. *)
Fixpoint answers_for (identifier : string) (calls : list (Z * string))
    (answers : list bool) : list bool :=
  match calls, answers with
  | (_, i) :: calls', b :: answers' =>
      if bool_decide (i = identifier)
      then b :: answers_for identifier calls' answers'
      else answers_for identifier calls' answers'
  | _, _ => []
  end.

(** Every sender's list fits the quota. *)
Definition bounded (rl : t) : Prop :=
  ∀ sender, Z.of_nat (length (requests_of rl sender)) <= max_requests rl.

End RateLimiter.


(** ** Security context ([src/core/security.py], class [SecurityContext]) *)

Module SecurityContext.
Import Py Message.

Record t := mk {
  agent_id : string;
  rate_limiter : RateLimiter.t
}.

(** [SecurityContext(agent_id)]: the limiter has the defaults 100 and 60.
    The RSA key pair generated here is the signing function of section
    [Signing]. *)
Definition init (agent_id : string) : t :=
  mk agent_id (RateLimiter.init 100 60).

(** The dict [message_data] of [sign_message], in the order it is written. *)
Definition message_data (message : A2AMessage) : Py.dict :=
  [ ("message_id"%string, PStr (message_id message));
    ("sender_id"%string, PStr (sender_id message));
    ("recipient_id"%string, PStr (recipient_id message));
    ("message_type"%string, PStr (Message.value (message_type message)));
    ("timestamp"%string, PStr (timestamp message));
    ("payload"%string, PDict (payload message)) ].

(** [json.dumps(message_data, sort_keys=True).encode('utf-8')]: the text is
    ASCII, so its UTF-8 encoding has the same bytes. *)
Definition signed_bytes (message : A2AMessage) : string :=
  Py.dumps (PDict (message_data message)).

Section Signing.

(** [private_key.sign(bytes, PSS(MGF1(SHA256), MAX_LENGTH), SHA256)] with the
    agent's private key, and [base64.b64encode(...).decode('utf-8')].  PSS
    draws a random salt at every call: [private_key_sign] stands for the
    signing operation of one call, key and salt, and no statement compares
    the signatures of two calls. *)
Variable private_key_sign : string → string.
Variable b64encode : string → string.

Definition sign_message (message : A2AMessage) : string :=
  b64encode (private_key_sign (signed_bytes message)).

End Signing.

(** [verify_message_signature]: false without a signature ([None] or the
    empty string); otherwise the [try] block returns [True]. *)
Definition verify_message_signature (message : A2AMessage) : bool :=
  match signature message with
  | None => false
  | Some s => if String.eqb s "" then false else true
  end.

Definition is_trusted_agent (agent_id : string) : bool := true.

(** [check_rate_limit(agent_id)] with [now = time.time()]. *)
Definition check_rate_limit (now : Z) (agent_id : string) (sc : t) : t * bool :=
  let '(rl, allowed) := RateLimiter.is_allowed now agent_id (rate_limiter sc) in
  (mk (SecurityContext.agent_id sc) rl, allowed).

End SecurityContext.

(** ** The bus client ([src/a2a/client.py], class [A2AClient])

    The client's [security_context] is the very object the agent holds; it
    is kept once, in the agent, and passed to the client's methods that use
    it.  The handlers are bound methods of the agent; the client stores
    which one is registered for a type. *)

Module A2AClient.
Import Py Message.

(** The Redis connection: whether the server answers, and what was
    published so far, oldest first (each entry is the channel and the
    message whose [json()] text was sent). *)
Record Redis := mk_redis {
  reachable : bool;
  published : list (string * A2AMessage)
}.

Inductive Handler :=
| handle_task_request
| handle_task_response
| handle_capability_query.

Record t := mk {
  agent_id : string;
  redis_client : option Redis;
  pubsub : option (list string);
  handlers : list (MessageType * Handler);
  _running : bool
}.

(** [A2AClient(agent_id, security_context, redis_url)] *)
Definition init (agent_id : string) : t :=
  mk agent_id None None [] false.

Definition set_redis_client (v : option Redis) (c : t) : t :=
  mk (agent_id c) v (pubsub c) (handlers c) (_running c).

(** [initialize()]: [server_up] tells whether [ping()] succeeds; when it
    does not, the error is logged and raised again. *)
Definition initialize (server_up : bool) (c : t) : t * result unit :=
  let c1 := set_redis_client (Some (mk_redis server_up [])) c in
  if server_up
  then
    let agent_channel := "agentic:agent:" +:+ agent_id c in
    let broadcast_channel := "agentic:broadcast"%string in
    (mk (agent_id c1) (redis_client c1) (Some [agent_channel; broadcast_channel])
        (handlers c1) true, Ok tt)
  else (c1, Raise (ConnectionError "Error connecting to Redis")).

(** [self.handlers.get(message_type)] *)
Fixpoint handlers_get (message_type : MessageType)
    (hs : list (MessageType * Handler)) : option Handler :=
  match hs with
  | [] => None
  | (ty, h) :: rest =>
      if decide (ty = message_type) then Some h else handlers_get message_type rest
  end.

(** [self.handlers[message_type] = handler] *)
Fixpoint handlers_set (message_type : MessageType) (handler : Handler)
    (hs : list (MessageType * Handler)) : list (MessageType * Handler) :=
  match hs with
  | [] => [(message_type, handler)]
  | (ty, h) :: rest =>
      if decide (ty = message_type) then (ty, handler) :: rest
      else (ty, h) :: handlers_set message_type handler rest
  end.

Definition register_handler (message_type : MessageType) (handler : Handler)
    (c : t) : t :=
  mk (agent_id c) (redis_client c) (pubsub c)
     (handlers_set message_type handler (handlers c)) (_running c).

(** The channel [send_message] picks for a recipient. *)
Definition channel_for (recipient_id : string) : string :=
  if String.eqb recipient_id "*" then "agentic:broadcast"
  else "agentic:agent:" +:+ recipient_id.

Section Sending.

Variable private_key_sign : string → string.
Variable b64encode : string → string.

(** [_prepare_message(message)]; [utcnow] is
    [datetime.utcnow().isoformat()]. *)
Definition _prepare_message (utcnow : string) (message : A2AMessage) (c : t)
    : A2AMessage :=
  let m1 := if String.eqb (sender_id message) ""
            then set_sender_id (agent_id c) message else message in
  let m2 := if String.eqb (timestamp m1) ""
            then set_timestamp utcnow m1 else m1 in
  set_signature
    (Some (SecurityContext.sign_message private_key_sign b64encode m2)) m2.

(** [send_message(message)]: a publish to a server that does not answer
    raises. *)
Definition send_message (utcnow : string) (message : A2AMessage) (c : t)
    : t * result unit :=
  match redis_client c with
  | None => (c, Raise (RuntimeError "A2A client not initialized"))
  | Some redis =>
      let message := _prepare_message utcnow message c in
      let channel := channel_for (recipient_id message) in
      if reachable redis
      then (set_redis_client
              (Some (mk_redis (reachable redis)
                       (published redis ++ [(channel, message)]))) c,
            Ok tt)
      else (c, Raise (ConnectionError "Error connecting to Redis"))
  end.

Definition broadcast_message (utcnow : string) (message : A2AMessage) (c : t)
    : t * result unit :=
  send_message utcnow (set_recipient_id "*" message) c.

End Sending.

(** [_validate_message(message)] on the shared security context, with
    [now = time.time()]. *)
Definition _validate_message (now : Z) (message : A2AMessage)
    (sc : SecurityContext.t) : SecurityContext.t * bool :=
  if negb (SecurityContext.verify_message_signature message) then (sc, false)
  else if negb (SecurityContext.is_trusted_agent (sender_id message)) then (sc, false)
  else
    let '(sc1, allowed) :=
      SecurityContext.check_rate_limit now (sender_id message) sc in
    if negb allowed then (sc1, false) else (sc1, true).

(** [discover_agents(timeout)] *)
Definition discover_agents (c : t) : list Py.value := [].

(** [is_connected()] *)
Definition is_connected (c : t) : bool :=
  _running c && match redis_client c with Some _ => true | None => false end.

(** [health_check()]; [ping] is the outcome of [redis_client.ping()], which
    is awaited only when there is a client. *)
Definition health_check (ping : result unit) (c : t) : Py.dict :=
  let health :=
    [ ("status"%string, PStr (if is_connected c then "healthy" else "unhealthy"));
      ("agent_id"%string, PStr (agent_id c));
      ("redis_connected"%string, PBool false);
      ("listening"%string, PBool (_running c));
      ("handlers_registered"%string, PInt (Z.of_nat (length (handlers c)))) ] in
  match redis_client c with
  | None => health
  | Some _ =>
      match ping with
      | Ok _ => Py.setitem "redis_connected" (PBool true) health
      | Raise e => Py.setitem "redis_error" (PStr (exn_str e)) health
      end
  end.

(** A sequence of [register_handler] calls, first registration first. *)
Definition register_all (registrations : list (MessageType * Handler)) (c : t) : t :=
  foldl (λ c r, register_handler r.1 r.2 c) c registrations.

(** The handler a sequence of registrations leaves for a type: the one of
    the last registration for that type. *)
Fixpoint last_registered (message_type : MessageType)
    (registrations : list (MessageType * Handler)) : option Handler :=
  match registrations with
  | [] => None
  | (ty, handler) :: rest =>
      match last_registered message_type rest with
      | Some later => Some later
      | None => if decide (ty = message_type) then Some handler else None
      end
  end.

(** What was published, oldest first. *)
Definition outbox (c : t) : list (string * A2AMessage) :=
  match redis_client c with
  | Some redis => published redis
  | None => []
  end.

End A2AClient.


(** ** The agent ([src/core/agent.py]) *)

Module AgentCapability.
Import Py.

Record t := mk {
  name : string;
  description : string;
  parameters : Py.dict;
  version : string
}.

(** [cap.dict()] *)
Definition dict (cap : t) : Py.value :=
  PDict [ ("name"%string, PStr (name cap));
          ("description"%string, PStr (description cap));
          ("parameters"%string, PDict (parameters cap));
          ("version"%string, PStr (version cap)) ].

End AgentCapability.

Module AgentMemory.

Record t := mk {
  _memory : gmap string Py.value;
  _conversation_history : list Py.dict
}.

Definition init : t := mk ∅ [].

Definition store (key : string) (value : Py.value) (m : t) : t :=
  mk (<[key := value]> (_memory m)) (_conversation_history m).

Definition retrieve (key : string) (m : t) : option Py.value :=
  _memory m !! key.

(** [add_to_history(message)]: the entry is [{**message, "timestamp": utcnow}]. *)
Definition add_to_history (utcnow : string) (message : Py.dict) (m : t) : t :=
  mk (_memory m)
     (_conversation_history m ++ [Py.setitem "timestamp" (Py.PStr utcnow) message]).

(** [get_history(limit)]: the slice [_conversation_history[-limit:]]. *)
Definition get_history (limit : Z) (m : t) : list Py.dict :=
  Py.slice_from (- limit) (_conversation_history m).

End AgentMemory.

Module Agent.
Import Py Message.

(** What the inbound loop and the handlers did, oldest first: a handler
    called by [_handle_message], a call of [execute_task]. *)
Inductive Event :=
| Handled (handler : A2AClient.Handler) (message : A2AMessage)
| Executed (task_type task_data : Py.value) (message : A2AMessage).

(** The agent object.  [uuid_count] counts the calls of [uuid4()] made so
    far; [trace] records the events above. *)
Record t := mk {
  agent_id : string;
  name : string;
  capabilities : list (string * AgentCapability.t);
  memory : AgentMemory.t;
  security_context : SecurityContext.t;
  a2a_client : option A2AClient.t;
  _running : bool;
  _tasks : list Py.value;
  uuid_count : nat;
  trace : list Event
}.

Definition set_memory (v : AgentMemory.t) (ag : t) : t :=
  mk (agent_id ag) (name ag) (capabilities ag) v (security_context ag)
     (a2a_client ag) (_running ag) (_tasks ag) (uuid_count ag) (trace ag).
Definition set_security_context (v : SecurityContext.t) (ag : t) : t :=
  mk (agent_id ag) (name ag) (capabilities ag) (memory ag) v
     (a2a_client ag) (_running ag) (_tasks ag) (uuid_count ag) (trace ag).
Definition set_a2a_client (v : option A2AClient.t) (ag : t) : t :=
  mk (agent_id ag) (name ag) (capabilities ag) (memory ag) (security_context ag)
     v (_running ag) (_tasks ag) (uuid_count ag) (trace ag).
Definition set_tasks (v : list Py.value) (ag : t) : t :=
  mk (agent_id ag) (name ag) (capabilities ag) (memory ag) (security_context ag)
     (a2a_client ag) (_running ag) v (uuid_count ag) (trace ag).
Definition set_uuid_count (v : nat) (ag : t) : t :=
  mk (agent_id ag) (name ag) (capabilities ag) (memory ag) (security_context ag)
     (a2a_client ag) (_running ag) (_tasks ag) v (trace ag).
Definition set_running (v : bool) (ag : t) : t :=
  mk (agent_id ag) (name ag) (capabilities ag) (memory ag) (security_context ag)
     (a2a_client ag) v (_tasks ag) (uuid_count ag) (trace ag).
Definition record_event (e : Event) (ag : t) : t :=
  mk (agent_id ag) (name ag) (capabilities ag) (memory ag) (security_context ag)
     (a2a_client ag) (_running ag) (_tasks ag) (uuid_count ag) (trace ag ++ [e]).

(** What the agent's client published, oldest first, and whether the client
    exists and holds a connection to a server that answers. *)
Definition outbox (ag : t) : list (string * A2AMessage) :=
  match a2a_client ag with
  | Some c => A2AClient.outbox c
  | None => []
  end.

Definition connected (ag : t) : bool :=
  match a2a_client ag with
  | Some c =>
      match A2AClient.redis_client c with
      | Some redis => A2AClient.reachable redis
      | None => false
      end
  | None => false
  end.

(** The part of the agent a publication does not touch. *)
Definition same_but_client (ag ag' : t) : Prop :=
  agent_id ag' = agent_id ag ∧ capabilities ag' = capabilities ag
  ∧ memory ag' = memory ag ∧ security_context ag' = security_context ag
  ∧ _tasks ag' = _tasks ag ∧ trace ag' = trace ag
  ∧ connected ag' = connected ag.

(** The part of the client that handling a message does not touch: its
    identifier, subscription, handlers and running flag. *)
Definition client_frame (ag ag' : t) : Prop :=
  match a2a_client ag, a2a_client ag' with
  | Some c, Some c' =>
      A2AClient.agent_id c' = A2AClient.agent_id c
      ∧ A2AClient.pubsub c' = A2AClient.pubsub c
      ∧ A2AClient.handlers c' = A2AClient.handlers c
      ∧ A2AClient._running c' = A2AClient._running c
  | None, None => True
  | _, _ => False
  end.

(** A published entry that is a task response for [task_id]. *)
Definition response_for (task_id : Py.value) (cm : string * A2AMessage) : Prop :=
  message_type cm.2 = TASK_RESPONSE
  ∧ Py.lookup "task_id" (payload cm.2) = Some task_id.


(** [{cap.name: cap for cap in capabilities}] *)
Fixpoint capabilities_insert (cap : AgentCapability.t)
    (d : list (string * AgentCapability.t)) : list (string * AgentCapability.t) :=
  match d with
  | [] => [(AgentCapability.name cap, cap)]
  | (k, c) :: rest =>
      if String.eqb k (AgentCapability.name cap) then (k, cap) :: rest
      else (k, c) :: capabilities_insert cap rest
  end.

(** [Agent(agent_id, name, capabilities)] *)
Definition init (agent_id name : string) (caps : list AgentCapability.t) : t :=
  mk agent_id name (foldl (λ d cap, capabilities_insert cap d) [] caps)
     AgentMemory.init (SecurityContext.init agent_id) None false [] 0 [].

(** [task_type in self.capabilities]: an unhashable key raises. *)
Definition type_name (v : Py.value) : string :=
  match v with
  | PNone => "NoneType"
  | PBool _ => "bool"
  | PInt _ => "int"
  | PStr _ => "str"
  | PList _ => "list"
  | PDict _ => "dict"
  end.

Definition unhashable (v : Py.value) : exn :=
  TypeError ("unhashable type: '" +:+ type_name v +:+ "'").

Definition in_capabilities (task_type : Py.value)
    (caps : list (string * AgentCapability.t)) : result bool :=
  match task_type with
  | PStr s => Ok (existsb (λ kc, String.eqb kc.1 s) caps)
  | PNone | PBool _ | PInt _ => Ok false
  | PList _ | PDict _ => Raise (unhashable task_type)
  end.

(** [self._tasks.add(task_id)] and [self._tasks.discard(task_id)] *)
Definition tasks_add (task_id : Py.value) (tasks : list Py.value)
    : result (list Py.value) :=
  if Py.hashable task_id
  then Ok (if existsb (Py.eqb task_id) tasks then tasks else tasks ++ [task_id])
  else Raise (unhashable task_id).

Definition tasks_discard (task_id : Py.value) (tasks : list Py.value)
    : list Py.value :=
  List.filter (λ x, negb (Py.eqb task_id x)) tasks.

(** [f"task_response_{task_id}"] *)
Definition response_key (task_id : Py.value) : string :=
  "task_response_" +:+ Py.str task_id.

(** [_handle_task_response(message)] *)
Definition _handle_task_response (message : A2AMessage) (ag : t) : t :=
  let task_id := Py.get (payload message) "task_id" PNone in
  set_memory
    (AgentMemory.store (response_key task_id) (PDict (payload message)) (memory ag))
    ag.

(** The key under which [_handle_task_response] stores [message], and the
    last message of [arrivals] stored under [key]. *)
Definition message_key (message : A2AMessage) : string :=
  response_key (Py.get (payload message) "task_id" PNone).

Fixpoint last_for (key : string) (arrivals : list A2AMessage) : option A2AMessage :=
  match arrivals with
  | [] => None
  | message :: rest =>
      match last_for key rest with
      | Some later => Some later
      | None => if decide (message_key message = key) then Some message else None
      end
  end.

(** Turns of the polling loop that are within the deadline and during whose
    sleep no response is stored under [key]. *)
Definition quiet (key : string) (start_time timeout : Z)
    (idle : list (Z * list A2AMessage)) : Prop :=
  Forall (λ turn, turn.1 - start_time < timeout ∧ last_for key turn.2 = None) idle.

(** The outcome of a call that waits: a value, an exception, or still
    waiting when the recorded schedule ends. *)
Inductive outcome :=
| Returned (response : Py.value)
| Raised (e : exn)
| Pending.

Section Behaviour.

Variable private_key_sign : string → string.
Variable b64encode : string → string.
(** [str(uuid4())]: the n-th identifier drawn in this process. *)
Variable uuid4 : nat → string.
(** The subclass's [execute_task(task_type, task_data, message)].  It is a
    method of the agent and, in the subclasses of the repository, writes
    [self.memory]: it takes the memory and returns the memory it leaves,
    with its result or the exception it raises. *)
Variable execute_task :
  Py.value → Py.value → A2AMessage → AgentMemory.t → AgentMemory.t * result Py.value.

Definition next_uuid (ag : t) : string * t :=
  (uuid4 (uuid_count ag), set_uuid_count (S (uuid_count ag)) ag).

(** The identifier a request is answered under: the one of its payload, or
    the one the handler draws when the payload has none. *)
Definition answer_id (message : A2AMessage) (ag : t) : Py.value :=
  Py.get (payload message) "task_id" (PStr (uuid4 (uuid_count ag))).

(** [await self.a2a_client.send_message(message)] *)
Definition client_send (utcnow : string) (message : A2AMessage) (ag : t)
    : t * result unit :=
  match a2a_client ag with
  | None =>
      (ag, Raise (AttributeError
                    "'NoneType' object has no attribute 'send_message'"))
  | Some c =>
      let '(c1, r) :=
        A2AClient.send_message private_key_sign b64encode utcnow message c in
      (set_a2a_client (Some c1) ag, r)
  end.

(** [_send_task_response(recipient_id, task_id, success, result, error)];
    the message's [timestamp] is the default [utcnow]. *)
Definition _send_task_response (utcnow : string) (recipient_id : string)
    (task_id : Py.value) (success : bool) (result_ error : Py.value) (ag : t)
    : t * result unit :=
  match a2a_client ag with
  | None => (ag, Ok tt)
  | Some _ =>
      let '(u, ag1) := next_uuid ag in
      let response :=
        Message.mk u (agent_id ag1) recipient_id TASK_RESPONSE utcnow
          [ ("task_id"%string, task_id);
            ("success"%string, PBool success);
            ("result"%string, result_);
            ("error"%string, error) ]
          false None in
      client_send utcnow response ag1
  end.

(** [_handle_task_request(message)].  The default of
    [payload.get("task_id", str(uuid4()))] is evaluated before the lookup, so
    an identifier is drawn in every call.  The outer [except Exception] logs
    and ends the handler. *)
Definition _handle_task_request (utcnow : string) (message : A2AMessage)
    (ag : t) : t :=
  let '(u, ag) := next_uuid ag in
  let task_id := Py.get (payload message) "task_id" (PStr u) in
  let task_type := Py.get (payload message) "task_type" PNone in
  let task_data := Py.get (payload message) "data" (PDict []) in
  match in_capabilities task_type (capabilities ag) with
  | Raise _ => ag
  | Ok false =>
      fst (_send_task_response utcnow (sender_id message) task_id false PNone
             (PStr ("Capability '" +:+ Py.str task_type +:+ "' not supported")) ag)
  | Ok true =>
      match tasks_add task_id (_tasks ag) with
      | Raise _ => ag
      | Ok tasks =>
          let ag := set_tasks tasks ag in
          let ag := record_event (Executed task_type task_data message) ag in
          let '(memory_, executed) :=
            execute_task task_type task_data message (memory ag) in
          let ag := set_memory memory_ ag in
          let attempt :=
            match executed with
            | Ok result_ =>
                _send_task_response utcnow (sender_id message) task_id true
                  result_ PNone ag
            | Raise e => (ag, Raise e)
            end in
          let ag :=
            match attempt with
            | (ag, Ok _) => ag
            | (ag, Raise e) =>
                fst (_send_task_response utcnow (sender_id message) task_id
                       false PNone (PStr (exn_str e)) ag)
            end in
          set_tasks (tasks_discard task_id (_tasks ag)) ag
      end
  end.

(** [_handle_capability_query(message)] *)
Definition _handle_capability_query (utcnow : string) (message : A2AMessage)
    (ag : t) : t * result unit :=
  let '(u, ag) := next_uuid ag in
  let response :=
    Message.mk u (agent_id ag) (sender_id message) CAPABILITY_RESPONSE utcnow
      [ ("capabilities"%string,
         PList (List.map (λ kc, AgentCapability.dict kc.2) (capabilities ag))) ]
      false None in
  client_send utcnow response ag.

(** [_register_message_handlers()] *)
Definition _register_message_handlers (ag : t) : t :=
  match a2a_client ag with
  | None => ag
  | Some c =>
      set_a2a_client
        (Some (A2AClient.register_handler CAPABILITY_QUERY A2AClient.handle_capability_query
              (A2AClient.register_handler TASK_RESPONSE A2AClient.handle_task_response
              (A2AClient.register_handler TASK_REQUEST A2AClient.handle_task_request c))))
        ag
  end.

(** [_announce_capabilities()] *)
Definition _announce_capabilities (utcnow : string) (ag : t) : t * result unit :=
  match a2a_client ag with
  | None => (ag, Ok tt)
  | Some c =>
      let '(u, ag) := next_uuid ag in
      let announcement :=
        Message.mk u (agent_id ag) "*" CAPABILITY_ANNOUNCEMENT utcnow
          [ ("agent_name"%string, PStr (name ag));
            ("capabilities"%string,
             PList (List.map (λ kc, AgentCapability.dict kc.2) (capabilities ag)));
            ("status"%string, PStr "active") ]
          false None in
      let '(c1, r) :=
        A2AClient.broadcast_message private_key_sign b64encode utcnow announcement c in
      (set_a2a_client (Some c1) ag, r)
  end.

(** [initialize()]; [server_up] tells whether Redis answers.  The MCP client
    it also creates is outside this model.  An exception is logged and
    raised again. *)
Definition initialize (utcnow : string) (server_up : bool) (ag : t) : t * result unit :=
  let '(c, r) := A2AClient.initialize server_up (A2AClient.init (agent_id ag)) in
  let ag := set_a2a_client (Some c) ag in
  match r with
  | Raise e => (ag, Raise e)
  | Ok _ =>
      let ag := _register_message_handlers ag in
      match _announce_capabilities utcnow ag with
      | (ag, Raise e) => (ag, Raise e)
      | (ag, Ok _) => (set_running true ag, Ok tt)
      end
  end.

(** The handlers [_register_message_handlers] registers. *)
Definition registered_handler (message_type : MessageType) : option A2AClient.Handler :=
  match message_type with
  | TASK_REQUEST => Some A2AClient.handle_task_request
  | TASK_RESPONSE => Some A2AClient.handle_task_response
  | CAPABILITY_QUERY => Some A2AClient.handle_capability_query
  | _ => None
  end.

(** The payload of the capability announcement. *)
Definition announcement_payload (ag : t) : Py.dict :=
  [ ("agent_name"%string, PStr (name ag));
    ("capabilities"%string,
     PList (List.map (λ kc, AgentCapability.dict kc.2) (capabilities ag)));
    ("status"%string, PStr "active") ].

(** [await handler(message)] for the bound method registered. *)
Definition call_handler (handler : A2AClient.Handler) (utcnow : string)
    (message : A2AMessage) (ag : t) : t * result unit :=
  match handler with
  | A2AClient.handle_task_request => (_handle_task_request utcnow message ag, Ok tt)
  | A2AClient.handle_task_response => (_handle_task_response message ag, Ok tt)
  | A2AClient.handle_capability_query => _handle_capability_query utcnow message ag
  end.

(** The client's [_handle_message(message)]: an exception of the handler is
    logged; a type without handler is logged. *)
Definition _handle_message (utcnow : string) (message : A2AMessage) (ag : t) : t :=
  match a2a_client ag with
  | None => ag
  | Some c =>
      match A2AClient.handlers_get (message_type message) (A2AClient.handlers c) with
      | Some handler =>
          fst (call_handler handler utcnow message
                 (record_event (Handled handler message) ag))
      | None => ag
      end
  end.

(** One item read from [pubsub.listen()]: its ["type"] and ["data"]. *)
Record PubSubItem := mk_item {
  item_type : string;
  item_data : string
}.

(** [A2AMessage.parse_raw(data)]; [None] when it raises [ValidationError]. *)
Variable parse_raw : string → option A2AMessage.

(** The body of the loop of the client's [_listen_for_messages] for one
    item, after the [_running] test. *)
Definition on_item (now : Z) (utcnow : string) (item : PubSubItem) (ag : t) : t :=
  match a2a_client ag with
  | None => ag
  | Some c =>
      if negb (String.eqb (item_type item) "message") then ag
      else
        match parse_raw (item_data item) with
        | None => ag
        | Some a2a_message =>
            if String.eqb (sender_id a2a_message) (A2AClient.agent_id c) then ag
            else
              let '(sc, valid) :=
                A2AClient._validate_message now a2a_message (security_context ag) in
              let ag := set_security_context sc ag in
              if negb valid then ag
              else _handle_message utcnow a2a_message ag
        end
  end.

(** [_listen_for_messages()] over the items the subscription yields, each
    with the clock readings of its turn. *)
Fixpoint _listen_for_messages (items : list (Z * string * PubSubItem)) (ag : t) : t :=
  match a2a_client ag with
  | None => ag
  | Some c =>
      match A2AClient.pubsub c with
      | None => ag
      | Some _ =>
          match items with
          | [] => ag
          | (now, utcnow, item) :: rest =>
              if negb (A2AClient._running c) then ag
              else _listen_for_messages rest (on_item now utcnow item ag)
          end
      end
  end.

(** The inbound loop handling the task responses [arrivals] while the caller
    of [send_task_to_agent] is suspended: each reaches
    [_handle_task_response]. *)
Definition deliver (arrivals : list A2AMessage) (ag : t) : t :=
  foldl (λ ag message, _handle_task_response message ag) ag arrivals.

(** The polling loop of [send_task_to_agent].  Each entry of [polls] is one
    turn: the reading of the loop's clock in the [while] test, and the task
    responses handled during the [sleep(0.1)] that follows a poll that found
    nothing.  The text of the exception prints [timeout] as the model's
    number. *)
Fixpoint wait_for_response (task_id : string) (start_time timeout : Z)
    (polls : list (Z * list A2AMessage)) (ag : t) : t * outcome :=
  match polls with
  | [] => (ag, Pending)
  | (clock, arrivals) :: rest =>
      if bool_decide (clock - start_time < timeout)
      then
        match AgentMemory.retrieve (response_key (PStr task_id)) (memory ag) with
        | Some response =>
            if Py.truthy response then (ag, Returned response)
            else wait_for_response task_id start_time timeout rest (deliver arrivals ag)
        | None =>
            wait_for_response task_id start_time timeout rest (deliver arrivals ag)
        end
      else
        (ag, Raised (TimeoutError
                       ("No response received for task " +:+ task_id +:+ " within "
                        +:+ pretty timeout +:+ "s")))
  end.

(** [send_task_to_agent(recipient_id, task_type, task_data, timeout)].
    [during_send] are the task responses handled while the publish is
    awaited; [start_time] is the clock read after it. *)
Definition send_task_to_agent (utcnow : string) (recipient_id task_type : string)
    (task_data : Py.dict) (timeout : Z) (during_send : list A2AMessage)
    (start_time : Z) (polls : list (Z * list A2AMessage)) (ag : t) : t * outcome :=
  match a2a_client ag with
  | None => (ag, Raised (RuntimeError "A2A client not initialized"))
  | Some _ =>
      let '(task_id, ag) := next_uuid ag in
      let '(u, ag) := next_uuid ag in
      let message :=
        Message.mk u (agent_id ag) recipient_id TASK_REQUEST utcnow
          [ ("task_id"%string, PStr task_id);
            ("task_type"%string, PStr task_type);
            ("data"%string, PDict task_data) ]
          true None in
      match client_send utcnow message ag with
      | (ag, Raise e) => (ag, Raised e)
      | (ag, Ok _) =>
          wait_for_response task_id start_time timeout polls (deliver during_send ag)
      end
  end.

End Behaviour.

End Agent.

(** ** The echo agent of the examples ([examples/simple_agent.py], class
       [SimpleEchoAgent]) *)

Module SimpleEchoAgent.
Import Py Message.

(** The exceptions [execute_task] raises: the [ValueError]s it raises itself,
    and the [AttributeError] of [task_data.get] on a value that is no dict. *)
Inductive raised :=
| ValueError (msg : string)
| AttributeError (msg : string).

Inductive outcome :=
| Done (value : Py.value)
| Raises (e : raised).

Definition parameter (description : string) : Py.dict :=
  [ ("message"%string,
     PDict [ ("type"%string, PStr "string");
             ("description"%string, PStr description) ]) ].

Definition capabilities : list AgentCapability.t :=
  [ AgentCapability.mk "echo" "Echo back a message"
      (parameter "Message to echo") "1.0.0";
    AgentCapability.mk "uppercase" "Convert message to uppercase"
      (parameter "Message to convert") "1.0.0";
    AgentCapability.mk "reverse" "Reverse a message"
      (parameter "Message to reverse") "1.0.0" ].

(** [SimpleEchoAgent(agent_id)] *)
Definition init (agent_id : string) : Agent.t :=
  Agent.init agent_id "SimpleEcho" capabilities.

Section Text.

(** [str.upper] *)
Variable upper : string → string.

(** The text processing of [execute_task]: [None] for an unknown type. *)
Definition process (task_type : Py.value) (text : string) : option string :=
  match task_type with
  | PStr "echo" => Some text
  | PStr "uppercase" => Some (upper text)
  | PStr "reverse" => Some (String.rev text)
  | _ => None
  end.

(** [execute_task(task_type, task_data, message)]; the memory is written
    only when the task succeeds. *)
Definition execute_task (utcnow : string) (task_type task_data : Py.value)
    (message : A2AMessage) (ag : Agent.t) : Agent.t * outcome :=
  match task_data with
  | PDict data =>
      match Py.get data "message" (PStr "") with
      | PStr text =>
          match process task_type text with
          | Some result_ =>
              let memory :=
                AgentMemory.store ("text_processing_" +:+ message_id message)
                  (PDict [ ("operation"%string, task_type);
                           ("input"%string, PStr text);
                           ("output"%string, PStr result_);
                           ("requester"%string, PStr (sender_id message)) ])
                  (Agent.memory ag) in
              let memory :=
                AgentMemory.add_to_history utcnow
                  [ ("type"%string, PStr "text_processing");
                    ("operation"%string, task_type);
                    ("input_length"%string, PInt (Z.of_nat (String.length text)));
                    ("output_length"%string, PInt (Z.of_nat (String.length result_))) ]
                  memory in
              (Agent.set_memory memory ag,
               Done (PDict [ ("result"%string, PStr result_);
                             ("operation"%string, task_type);
                             ("original"%string, PStr text) ]))
          | None =>
              (ag, Raises (ValueError ("Unknown task type: " +:+ Py.str task_type)))
          end
      | _ => (ag, Raises (ValueError "Parameter 'message' must be a string"))
      end
  | _ =>
      (ag, Raises (AttributeError
                     ("'" +:+ Agent.type_name task_data
                      +:+ "' object has no attribute 'get'")))
  end.

End Text.

End SimpleEchoAgent.

(** ** The validation order, in the words of the specification

    Section 4.2: "(1) drop if sender == self, (2) verify, (3) isTrusted,
    (4) checkRateLimit", short-circuiting on the first failure.  [admission]
    names the first check that fails, or [None] when the envelope is
    accepted; it is compared with the inbound loop of the code. *)

Module Spec.
Import Message.

Inductive Refusal :=
| OwnMessage
| BadSignature
| Untrusted
| RateLimited.

Definition admission (self_id : string) (now : Z) (message : A2AMessage)
    (sc : SecurityContext.t) : option Refusal :=
  if String.eqb (sender_id message) self_id then Some OwnMessage
  else if negb (SecurityContext.verify_message_signature message) then Some BadSignature
  else if negb (SecurityContext.is_trusted_agent (sender_id message)) then Some Untrusted
  else if negb (SecurityContext.check_rate_limit now (sender_id message) sc).2
       then Some RateLimited
  else None.

End Spec.

(** ** A concrete setting for the examples: a calculator agent, stand-ins for
       the key, the identifier generator and the JSON parser, and a few
       messages *)

Module Sample.
Import Py Message.

Definition private_key_sign (bytes : string) : string := "rsa-pss:" +:+ bytes.
Definition b64encode (bytes : string) : string := "b64:" +:+ bytes.
Definition uuid4 (n : nat) : string := "uuid-" +:+ pretty n.

(** A calculator: ["add"] adds the integers [a] and [b] of the task data and
    keeps the sum in the memory, under the identifier of the message. *)
Definition execute_task (task_type task_data : Py.value) (message : A2AMessage)
    (memory : AgentMemory.t) : AgentMemory.t * result Py.value :=
  match task_type, task_data with
  | PStr "add", PDict d =>
      match Py.get d "a" PNone, Py.get d "b" PNone with
      | PInt a, PInt b =>
          (AgentMemory.store ("calculation_" +:+ message_id message) (PInt (a + b))
             memory,
           Ok (PDict [("result"%string, PInt (a + b))]))
      | _, _ => (memory, Raise (Exception "operands must be integers"))
      end
  | _, _ => (memory, Raise (Exception "Unknown task type"))
  end.

Definition add_capability : AgentCapability.t :=
  AgentCapability.mk "add" "Add two numbers"
    [("a"%string, PStr "int"); ("b"%string, PStr "int")] "1.0.0".

Definition utcnow : string := "2024-01-01T00:00:00".

(** The calculator after a successful [initialize()]. *)
Definition calc : Agent.t :=
  (Agent.initialize private_key_sign b64encode uuid4 utcnow true
     (Agent.init "calc-demo" "Calculator" [add_capability])).1.

(** A request for the capability [add], signed by its sender. *)
Definition add_request : A2AMessage :=
  Message.mk "m-1" "echo-demo" "calc-demo" TASK_REQUEST utcnow
    [ ("task_id"%string, PStr "t-1");
      ("task_type"%string, PStr "add");
      ("data"%string, PDict [("a"%string, PInt 2); ("b"%string, PInt 3)]) ]
    true (Some "c2lnbmVk").

(** The same request with another message identifier. *)
Definition add_request_again : A2AMessage :=
  Message.mk "m-2" "echo-demo" "calc-demo" TASK_REQUEST utcnow
    (payload add_request) true (Some "c2lnbmVk").

(** The same request with the payload keys in another order, no signature
    yet and no response required. *)
Definition add_request_reordered : A2AMessage :=
  Message.mk "m-1" "echo-demo" "calc-demo" TASK_REQUEST utcnow
    [ ("data"%string, PDict [("a"%string, PInt 2); ("b"%string, PInt 3)]);
      ("task_type"%string, PStr "add");
      ("task_id"%string, PStr "t-1") ]
    false None.

(** The request after its payload was changed in transit: the operands are
    others, the signature is the one of [add_request]. *)
Definition add_request_tampered : A2AMessage :=
  set_payload
    [ ("task_id"%string, PStr "t-1");
      ("task_type"%string, PStr "add");
      ("data"%string, PDict [("a"%string, PInt 1000); ("b"%string, PInt 3)]) ]
    add_request.

(** A request without signature. *)
Definition unsigned_request : A2AMessage := set_signature None add_request.

(** A request whose task type is a JSON array. *)
Definition list_typed_request : A2AMessage :=
  set_payload
    [ ("task_id"%string, PStr "t-2");
      ("task_type"%string, PList [PStr "add"]);
      ("data"%string, PDict []) ]
    add_request.

(** A request for a capability the calculator does not have, without task
    identifier. *)
Definition multiply_request : A2AMessage :=
  set_payload
    [ ("task_type"%string, PStr "multiply");
      ("data"%string, PDict [("a"%string, PInt 7); ("b"%string, PInt 6)]) ]
    add_request.

(** Two responses to the task [uuid-1], the next identifier the initialized
    calculator draws: a result from one agent, and a failure from another
    agent that lacks the capability. *)
Definition first_response : A2AMessage :=
  Message.mk "r-1" "echo-demo" "calc-demo" TASK_RESPONSE utcnow
    [ ("task_id"%string, PStr "uuid-1");
      ("success"%string, PBool true);
      ("result"%string, PStr "HELLO");
      ("error"%string, PNone) ]
    false (Some "c2lnbmVk").

Definition second_response : A2AMessage :=
  Message.mk "r-2" "other-demo" "calc-demo" TASK_RESPONSE utcnow
    [ ("task_id"%string, PStr "uuid-1");
      ("success"%string, PBool false);
      ("result"%string, PNone);
      ("error"%string, PStr "Capability 'uppercase' not supported") ]
    false (Some "c2lnbmVk").

(** The stand-in for [A2AMessage.parse_raw]: three texts parse. *)
Definition parse_raw (data : string) : option A2AMessage :=
  if String.eqb data "add_request" then Some add_request
  else if String.eqb data "unsigned_request" then Some unsigned_request
  else if String.eqb data "first_response" then Some first_response
  else None.

End Sample.

(** ** A second setting for the examples: the echo agent of
       [examples/simple_agent.py], a stand-in for [str.upper], and messages
       of the types that [Sample] does not have *)

Module Scenario.
Import Py Message.

(** [str.upper] on ASCII letters; the other characters are kept. *)
Definition upper_char (c : ascii) : ascii :=
  let n := N_of_ascii c in
  if (N.leb 97 n && N.leb n 122)%bool then ascii_of_N (n - 32) else c.

Fixpoint upper (s : string) : string :=
  match s with
  | EmptyString => EmptyString
  | String c rest => String (upper_char c) (upper rest)
  end.

(** The echo agent after a successful [initialize()]. *)
Definition echo : Agent.t :=
  (Agent.initialize Sample.private_key_sign Sample.b64encode Sample.uuid4
     Sample.utcnow true (SimpleEchoAgent.init "echo-demo")).1.

(** The announcement the echo agent broadcasts, as the calculator reads it. *)
Definition announcement : A2AMessage :=
  Message.mk "a-1" "echo-demo" "*" CAPABILITY_ANNOUNCEMENT Sample.utcnow
    [ ("agent_name"%string, PStr "SimpleEcho");
      ("capabilities"%string, PList []);
      ("status"%string, PStr "active") ]
    false (Some "c2lnbmVk").

(** A capability query from the echo agent to the calculator. *)
Definition query : A2AMessage :=
  Message.mk "q-1" "echo-demo" "calc-demo" CAPABILITY_QUERY Sample.utcnow
    [] true (Some "c2lnbmVk").

(** A request to reverse a text, sent to the echo agent. *)
Definition reverse_request : A2AMessage :=
  Message.mk "m-7" "calc-demo" "echo-demo" TASK_REQUEST Sample.utcnow
    [ ("task_id"%string, PStr "t-7");
      ("task_type"%string, PStr "reverse");
      ("data"%string, PDict [("message"%string, PStr "hello")]) ]
    true (Some "c2lnbmVk").

(** The request [Sample.add_request] with the keys of the task data, one
    level down in the payload, in the other order, and no signature. *)
Definition add_request_nested_reordered : A2AMessage :=
  Message.mk "m-1" "echo-demo" "calc-demo" TASK_REQUEST Sample.utcnow
    [ ("task_id"%string, PStr "t-1");
      ("task_type"%string, PStr "add");
      ("data"%string, PDict [("b"%string, PInt 3); ("a"%string, PInt 2)]) ]
    false None.

(** The stand-in for [A2AMessage.parse_raw]: the texts of [Sample] and the
    two messages above. *)
Definition parse_raw (data : string) : option A2AMessage :=
  if String.eqb data "announcement" then Some announcement
  else if String.eqb data "query" then Some query
  else Sample.parse_raw data.

End Scenario.

(** * Theorems *)

(** ** The sliding-window rate limiter *)

Module RateLimiterFacts.
Import RateLimiter.

Lemma live_app c l1 l2 : live c (l1 ++ l2) = live c l1 ++ live c l2.
Proof. apply filter_app. Qed.

(** Pruning twice is pruning once with the later window. *)
Lemma live_live c1 c2 l : c1 <= c2 → live c2 (live c1 l) = live c2 l.
Proof.
  intros Hc. induction l as [|x l IH]; [done|].
  unfold live in *. rewrite !filter_cons.
  destruct (decide (c1 < x)), (decide (c2 < x)); try lia.
  - rewrite filter_cons. destruct (decide (c2 < x)); [|lia]. by f_equal.
  - rewrite filter_cons. destruct (decide (c2 < x)); [lia|]. done.
  - done.
Qed.

Lemma live_Forall c l : Forall (λ t, c < t) (live c l).
Proof.
  apply Forall_forall. intros x Hx. unfold live in Hx.
  by apply list_elem_of_filter in Hx as [? _].
Qed.

Lemma live_length c l : (length (live c l) <= length l)%nat.
Proof. apply length_filter. Qed.

Lemma requests_of_init maxr w id : requests_of (init maxr w) id = [].
Proof. unfold requests_of, init; simpl. by rewrite lookup_empty. Qed.

Lemma requests_of_insert rl i l j :
  requests_of (mk (max_requests rl) (window_seconds rl) (<[i := l]> (_requests rl))) j
  = if decide (i = j) then l else requests_of rl j.
Proof.
  unfold requests_of; simpl. rewrite lookup_insert. by destruct (decide (i = j)).
Qed.

(** What one call leaves in the table: the caller's list is pruned and, on
    acceptance, extended; the other lists are as they were. *)
Lemma is_allowed_requests now i rl j :
  requests_of (is_allowed now i rl).1 j =
  if decide (i = j)
  then live (now - window_seconds rl) (requests_of rl i)
       ++ (if (is_allowed now i rl).2 then [now] else [])
  else requests_of rl j.
Proof.
  unfold is_allowed. case_bool_decide; simpl; rewrite requests_of_insert;
    destruct (decide (i = j)); try done. by rewrite app_nil_r.
Qed.

Lemma is_allowed_answer now i rl :
  (is_allowed now i rl).2 =
  bool_decide (Z.of_nat (length (live (now - window_seconds rl) (requests_of rl i)))
               < max_requests rl).
Proof. unfold is_allowed. by case_bool_decide. Qed.

Lemma is_allowed_params now i rl :
  max_requests (is_allowed now i rl).1 = max_requests rl ∧
  window_seconds (is_allowed now i rl).1 = window_seconds rl.
Proof. unfold is_allowed. by case_bool_decide. Qed.

Lemma run_params calls rl :
  max_requests (run calls rl).1 = max_requests rl ∧
  window_seconds (run calls rl).1 = window_seconds rl.
Proof.
  revert rl. induction calls as [|[t i] calls IH]; intros rl; [done|].
  simpl. destruct (is_allowed t i rl) as [rl1 b] eqn:E1.
  destruct (run calls rl1) as [rl2 bs] eqn:E2. simpl.
  specialize (IH rl1). rewrite E2 in IH. simpl in IH.
  pose proof (is_allowed_params t i rl) as Hp. rewrite E1 in Hp. simpl in Hp.
  destruct IH, Hp. split; congruence.
Qed.

(** Under a clock that never runs backwards, the entries still stored for a
    sender and the timestamps of its accepted calls agree on every window
    that ends at or after the last call. *)
Lemma run_stored_accepted id calls : ∀ rl pre T0 now,
  clock_ordered calls now →
  Forall (λ c, T0 <= c.1) calls →
  T0 <= now →
  (∀ now', T0 <= now' →
     live (now' - window_seconds rl) (requests_of rl id)
     = live (now' - window_seconds rl) pre) →
  live (now - window_seconds rl) (requests_of (run calls rl).1 id)
  = live (now - window_seconds rl) (pre ++ accepted id calls (run calls rl).2).
Proof.
  induction calls as [|[t i] calls IH]; intros rl pre T0 now Hord Hlow HT0 Hinv.
  - simpl. rewrite app_nil_r. by apply Hinv.
  - simpl in Hord. destruct Hord as (Htn & Hlater & Hord).
    apply Forall_cons in Hlow as [Ht0 Hlow]. simpl in Ht0.
    simpl. destruct (is_allowed t i rl) as [rl1 b] eqn:E1.
    destruct (run calls rl1) as [rl2 bs] eqn:E2. simpl.
    pose proof (is_allowed_params t i rl) as [_ Hw]. rewrite E1 in Hw; simpl in Hw.
    pose proof (is_allowed_requests t i rl id) as Hreq. rewrite E1 in Hreq; simpl in Hreq.
    specialize (IH rl1 (pre ++ (if bool_decide (i = id) && b then [t] else [])) t now
                  Hord Hlater Htn).
    rewrite E2 in IH. simpl in IH. rewrite Hw in IH.
    assert (Hgoal : pre ++ (if bool_decide (i = id) && b
                            then t :: accepted id calls bs else accepted id calls bs)
            = (pre ++ (if bool_decide (i = id) && b then [t] else []))
              ++ accepted id calls bs).
    { destruct (bool_decide (i = id) && b); simpl; by rewrite <- ?app_assoc, ?app_nil_r. }
    rewrite Hgoal. apply IH. clear IH Hgoal.
    intros now' Hle. rewrite Hreq.
    destruct (decide (i = id)) as [->|Hne].
    + rewrite bool_decide_eq_true_2 by done. simpl.
      rewrite !live_app, live_live by lia. rewrite Hinv by lia. done.
    + rewrite bool_decide_eq_false_2 by done. simpl.
      rewrite app_nil_r. apply Hinv. lia.
Qed.

Lemma clock_ordered_lower calls now :
  clock_ordered calls now → ∃ T0, Forall (λ c, T0 <= c.1) calls ∧ T0 <= now.
Proof.
  destruct calls as [|[t i] calls]; simpl.
  - intros _. exists now. split; [constructor|lia].
  - intros (Htn & Hlater & _). exists t. split; [|done].
    constructor; [simpl; lia|done].
Qed.

(** A call is accepted exactly when fewer than [maxr] accepted calls of the
    same sender fall in the window, and the list it leaves is those
    timestamps, followed by [now] when it was accepted. *)
Lemma is_allowed_window_trace maxr w calls now id :
  clock_ordered calls now →
  let rl := (run calls (init maxr w)).1 in
  let in_window := live (now - w) (accepted id calls (run calls (init maxr w)).2) in
  (is_allowed now id rl).2 = bool_decide (Z.of_nat (length in_window) < maxr)
  ∧ requests_of (is_allowed now id rl).1 id
    = in_window ++ (if (is_allowed now id rl).2 then [now] else []).
Proof.
  intros Hord rl in_window.
  destruct (clock_ordered_lower _ _ Hord) as (T0 & Hlow & HT0).
  pose proof (run_stored_accepted id calls (init maxr w) [] T0 now Hord Hlow HT0) as Hinv.
  simpl in Hinv. fold rl in Hinv.
  assert (Hstored : live (now - w) (requests_of rl id) = in_window).
  { apply Hinv. intros now' _. by rewrite requests_of_init. }
  pose proof (run_params calls (init maxr w)) as [Hm Hw]. fold rl in Hm, Hw.
  simpl in Hm, Hw. split.
  - rewrite is_allowed_answer, Hw, Hm, Hstored. done.
  - rewrite is_allowed_requests, Hw. destruct (decide (id = id)); [|done].
    by rewrite Hstored.
Qed.

(** One call, described by what it reads and writes for its own sender. *)
Lemma is_allowed_step now id rl l :
  requests_of rl id = l →
  let kept := live (now - window_seconds rl) l in
  let b := bool_decide (Z.of_nat (length kept) < max_requests rl) in
  ∃ rl', is_allowed now id rl = (rl', b)
         ∧ requests_of rl' id = kept ++ (if b then [now] else [])
         ∧ max_requests rl' = max_requests rl
         ∧ window_seconds rl' = window_seconds rl.
Proof.
  intros <- kept b. exists (is_allowed now id rl).1.
  pose proof (is_allowed_answer now id rl) as Ha.
  pose proof (is_allowed_requests now id rl id) as Hr.
  pose proof (is_allowed_params now id rl) as [Hm Hw].
  destruct (is_allowed now id rl) as [rl' b'] eqn:E. simpl in *.
  subst b'. fold kept in Hr. fold b in Hr.
  destruct (decide (id = id)); [|done]. done.
Qed.

Ltac live_simpl :=
  unfold live; simpl;
  repeat (rewrite ?filter_cons, ?filter_nil; simpl; repeat (case_decide; try lia)).

(** Three calls inside one window fill the quota of 3, the fourth is
    refused, and a call made once the first timestamp has left the window is
    accepted. *)
Lemma fourth_call_rejected_then_recovers id w t1 t2 t3 t4 t5 :
  t1 <= t2 → t2 <= t3 → t3 <= t4 → t4 < t1 + w → t4 <= t5 → t1 + w <= t5 →
  (run [(t1, id); (t2, id); (t3, id); (t4, id); (t5, id)] (init 3 w)).2
  = [true; true; true; false; true].
Proof.
  intros H12 H23 H34 H41 H45 H15.
  destruct (is_allowed_step t1 id (init 3 w) [] (requests_of_init _ _ _))
    as (rl1 & E1 & R1 & M1 & W1). simpl in *.
  destruct (is_allowed_step t2 id rl1 _ R1) as (rl2 & E2 & R2 & M2 & W2).
  rewrite M1, W1 in *.
  assert (L2 : live (t2 - w) [t1] = [t1]) by (live_simpl; done).
  rewrite L2 in *. simpl in *.
  destruct (is_allowed_step t3 id rl2 _ R2) as (rl3 & E3 & R3 & M3 & W3).
  rewrite M2, W2 in *.
  assert (L3 : live (t3 - w) [t1; t2] = [t1; t2]) by (live_simpl; done).
  rewrite L3 in *. simpl in *.
  destruct (is_allowed_step t4 id rl3 _ R3) as (rl4 & E4 & R4 & M4 & W4).
  rewrite M3, W3 in *.
  assert (L4 : live (t4 - w) [t1; t2; t3] = [t1; t2; t3]) by (live_simpl; done).
  rewrite L4 in *. simpl in *.
  destruct (is_allowed_step t5 id rl4 _ R4) as (rl5 & E5 & R5 & M5 & W5).
  rewrite M4, W4 in *.
  assert (L5 : Z.of_nat (length (live (t5 - w) [t1; t2; t3])) < 3).
  { live_simpl; simpl; lia. }
  rewrite (bool_decide_eq_true_2 _ L5) in E5.
  unfold run. rewrite E1, E2, E3, E4, E5. done.
Qed.

Lemma init_bounded maxr w : 0 <= maxr → bounded (init maxr w).
Proof. intros H sender. rewrite requests_of_init. simpl. lia. Qed.

Lemma is_allowed_bounded now id rl : bounded rl → bounded (is_allowed now id rl).1.
Proof.
  intros Hb sender. destruct (is_allowed_params now id rl) as [-> _].
  rewrite is_allowed_requests, is_allowed_answer.
  destruct (decide (id = sender)) as [->|]; [|apply Hb].
  case_bool_decide; rewrite length_app; simpl.
  - lia.
  - pose proof (live_length (now - window_seconds rl) (requests_of rl sender)).
    specialize (Hb sender). lia.
Qed.

Lemma run_bounded calls : ∀ rl, bounded rl → bounded (run calls rl).1.
Proof.
  induction calls as [|[t i] calls IH]; intros rl Hb; [done|].
  simpl. pose proof (is_allowed_bounded t i rl Hb) as Hb1.
  destruct (is_allowed t i rl) as [rl1 b]. simpl in Hb1.
  specialize (IH rl1 Hb1). destruct (run calls rl1) as [rl2 bs]. done.
Qed.

Lemma is_allowed_fresh now id rl :
  0 < window_seconds rl →
  Forall (λ t, now - window_seconds rl < t) (requests_of (is_allowed now id rl).1 id).
Proof.
  intros Hw. rewrite is_allowed_requests. destruct (decide (id = id)); [|done].
  apply Forall_app. split; [apply live_Forall|].
  destruct ((is_allowed now id rl).2); repeat constructor. lia.
Qed.

(** C6. [check_rate_limit] is [is_allowed] on the context's limiter.  On a
    limiter that has served the calls [calls] since it was created, under a
    clock that does not run backwards, a call at [now] is accepted exactly
    when the number of accepted calls of the same sender with a timestamp
    newer than [now - w] is below [maxr]; the list it leaves for the sender
    is those timestamps, with [now] appended when the call is accepted.  With
    a quota of 3, three calls of one sender inside one window are accepted,
    the fourth is refused, and a call made after the first timestamp left
    the window is accepted again. *)
Theorem check_rate_limit_sliding_window maxr w calls now id sc :
  clock_ordered calls now →
  SecurityContext.rate_limiter sc = (run calls (init maxr w)).1 →
  let in_window := live (now - w) (accepted id calls (run calls (init maxr w)).2) in
  let sc' := (SecurityContext.check_rate_limit now id sc).1 in
  let ok := (SecurityContext.check_rate_limit now id sc).2 in
  ok = bool_decide (Z.of_nat (length in_window) < maxr)
  ∧ requests_of (SecurityContext.rate_limiter sc') id
    = in_window ++ (if ok then [now] else [])
  ∧ (∀ sender t1 t2 t3 t4 t5,
       t1 <= t2 → t2 <= t3 → t3 <= t4 → t4 < t1 + w → t4 <= t5 → t1 + w <= t5 →
       (run [(t1, sender); (t2, sender); (t3, sender); (t4, sender); (t5, sender)]
          (init 3 w)).2
       = [true; true; true; false; true]).
Proof.
  intros Hord Hsc in_window sc' ok.
  pose proof (is_allowed_window_trace maxr w calls now id Hord) as [Hans Hreq].
  subst sc' ok. unfold SecurityContext.check_rate_limit. rewrite Hsc.
  destruct (is_allowed now id (run calls (init maxr w)).1) as [rl' b] eqn:E.
  simpl in *. repeat split; try done.
  intros. by apply fourth_call_rejected_then_recovers.
Qed.

Lemma check_rate_limit_sliding_window_witness :
  let calls := [(0, "echo-demo"%string); (1, "echo-demo"%string); (2, "echo-demo"%string)] in
  let sc := SecurityContext.mk "calc-demo" (run calls (init 3 60)).1 in
  (SecurityContext.check_rate_limit 3 "echo-demo" sc).2 = false
  ∧ requests_of
      (SecurityContext.rate_limiter (SecurityContext.check_rate_limit 3 "echo-demo" sc).1)
      "echo-demo"
    = [0; 1; 2].
Proof.
  intros calls sc.
  assert (Hord : clock_ordered calls 3).
  { simpl. repeat split; try lia; repeat constructor; simpl; lia. }
  destruct (check_rate_limit_sliding_window 3 60 calls 3 "echo-demo" sc Hord eq_refl)
    as (Hans & Hreq & _).
  split.
  - rewrite Hans. vm_compute. reflexivity.
  - rewrite Hreq. vm_compute. reflexivity.
Defined.

(** C10, the claim as stated fails: a call for one sender leaves the lists of
    the other senders as they are.  After [a] called at time 0 and [b] at time
    100, with a window of 60, the list of [a] still holds 0, which is not
    newer than 100 - 60. *)
Lemma stale_entries_of_other_senders :
  requests_of (run [(0, "a"%string); (100, "b"%string)] (init 100 60)).1 "a" = [0]
  ∧ bool_decide (100 - 60 < 0) = false.
Proof. split; vm_compute; reflexivity. Qed.

(** C10, amended.  On a limiter created with a quota [maxr >= 0] and a window
    [w > 0], after any calls and one more call [is_allowed(id)] at [now]: the
    list stored for [id] holds only timestamps newer than [now - w], and the
    list of every sender has at most [maxr] entries. *)
Theorem is_allowed_prunes_caller_bounds_all maxr w calls now id :
  0 <= maxr → 0 < w →
  let rl' := (is_allowed now id (run calls (init maxr w)).1).1 in
  Forall (λ t, now - w < t) (requests_of rl' id)
  ∧ ∀ sender, Z.of_nat (length (requests_of rl' sender)) <= maxr.
Proof.
  intros Hm Hw rl'.
  pose proof (run_params calls (init maxr w)) as [Hpm Hpw]. simpl in Hpm, Hpw.
  split.
  - pose proof (is_allowed_fresh now id (run calls (init maxr w)).1) as Hf.
    rewrite Hpw in Hf. by apply Hf.
  - intros sender.
    pose proof (is_allowed_bounded now id _
                  (run_bounded calls _ (init_bounded maxr w Hm)) sender) as H.
    destruct (is_allowed_params now id (run calls (init maxr w)).1) as [Hq _].
    fold rl' in H, Hq. lia.
Qed.

Lemma is_allowed_prunes_caller_bounds_all_witness :
  let rl' := (is_allowed 100 "b" (run [(0, "a"%string)] (init 100 60)).1).1 in
  Forall (λ t, 100 - 60 < t) (requests_of rl' "b")
  ∧ ∀ sender, Z.of_nat (length (requests_of rl' sender)) <= 100.
Proof.
  apply (is_allowed_prunes_caller_bounds_all 100 60 [(0, "a"%string)] 100 "b"); lia.
Defined.

End RateLimiterFacts.

(** ** Signing and verification *)

Module SigningFacts.
Import Py Message SecurityContext.

Lemma ascii_compare_refl a : Ascii.compare a a = Eq.
Proof. unfold Ascii.compare. apply N.compare_refl. Qed.

Lemma ascii_compare_lt_trans a b c :
  Ascii.compare a b = Lt → Ascii.compare b c = Lt → Ascii.compare a c = Lt.
Proof. unfold Ascii.compare. rewrite !N.compare_lt_iff. lia. Qed.

Lemma string_compare_refl s : String.compare s s = Eq.
Proof.
  induction s as [|a s IH]; simpl; [done|]. by rewrite ascii_compare_refl.
Qed.

Lemma string_compare_lt_trans : ∀ s1 s2 s3,
  String.compare s1 s2 = Lt → String.compare s2 s3 = Lt → String.compare s1 s3 = Lt.
Proof.
  induction s1 as [|a s1 IH]; intros [|b s2] [|c s3]; simpl; try done.
  destruct (Ascii.compare a b) eqn:Eab; try done;
    destruct (Ascii.compare b c) eqn:Ebc; try done; intros H1 H2.
  - apply Ascii.compare_eq_iff in Eab, Ebc. subst.
    rewrite ascii_compare_refl. eauto.
  - apply Ascii.compare_eq_iff in Eab. subst. by rewrite Ebc.
  - apply Ascii.compare_eq_iff in Ebc. subst. by rewrite Eab.
  - by rewrite (ascii_compare_lt_trans _ _ _ Eab Ebc).
Qed.

(** The order on keys is transitive. *)
Lemma string_leb_trans s1 s2 s3 :
  String.leb s1 s2 = true → String.leb s2 s3 = true → String.leb s1 s3 = true.
Proof.
  unfold String.leb.
  destruct (String.compare s1 s2) eqn:E12; try done;
    destruct (String.compare s2 s3) eqn:E23; try done; intros _ _.
  - apply String.compare_eq_iff in E12, E23. subst. by rewrite string_compare_refl.
  - apply String.compare_eq_iff in E12. subst. by rewrite E23.
  - apply String.compare_eq_iff in E23. subst. by rewrite E12.
  - by rewrite (string_compare_lt_trans _ _ _ E12 E23).
Qed.

Section Sorting.
Context {A : Type}.
Implicit Types (x y : string * A) (l : list (string * A)).

(** Two items with different keys can be inserted in either order. *)
Lemma insert_item_comm x y l :
  x.1 ≠ y.1 →
  Py.insert_item x (Py.insert_item y l) = Py.insert_item y (Py.insert_item x l).
Proof.
  intros Hne. induction l as [|h t IH]; simpl.
  - destruct (String.leb x.1 y.1) eqn:Exy, (String.leb y.1 x.1) eqn:Eyx; try done.
    + destruct Hne. by apply String.leb_antisym.
    + destruct (String.leb_total x.1 y.1); congruence.
  - destruct (String.leb y.1 h.1) eqn:Eyh, (String.leb x.1 h.1) eqn:Exh; simpl.
    + destruct (String.leb x.1 y.1) eqn:Exy, (String.leb y.1 x.1) eqn:Eyx;
        rewrite ?Exh, ?Eyh; try done.
      * destruct Hne. by apply String.leb_antisym.
      * destruct (String.leb_total x.1 y.1); congruence.
    + destruct (String.leb x.1 y.1) eqn:Exy.
      * pose proof (string_leb_trans _ _ _ Exy Eyh). congruence.
      * by rewrite Exh, Eyh.
    + rewrite Exh. destruct (String.leb y.1 x.1) eqn:Eyx.
      * pose proof (string_leb_trans _ _ _ Eyx Exh). congruence.
      * by rewrite Eyh.
    + rewrite Exh, Eyh. by rewrite IH.
Qed.

(** Sorting forgets the order in which a dict with unique keys was built. *)
Lemma sorted_items_perm l1 l2 :
  l1 ≡ₚ l2 → NoDup l1.*1 → Py.sorted_items l1 = Py.sorted_items l2.
Proof.
  induction 1 as [|x l1 l2 Hp IH|x y l|l1 l2 l3 Hp1 IH1 Hp2 IH2]; intros Hnd.
  - done.
  - simpl. rewrite IH; [done|]. by apply NoDup_cons in Hnd as [_ ?].
  - simpl. apply insert_item_comm.
    simpl in Hnd. apply NoDup_cons in Hnd as [Hin _].
    intros Heq. apply Hin. rewrite Heq. left.
  - rewrite IH1 by done. apply IH2. by rewrite <- Hp1.
Qed.

End Sorting.

Lemma dumps_dict_perm (d1 d2 : Py.dict) :
  d1 ≡ₚ d2 → NoDup d1.*1 → Py.dumps (PDict d1) = Py.dumps (PDict d2).
Proof.
  intros Hp Hnd. simpl. do 4 f_equal.
  apply sorted_items_perm.
  - by apply Permutation_map.
  - assert (Hk : (List.map (λ '(k, v), (k, dumps v)) d1).*1 = d1.*1).
    { clear. induction d1 as [|[k v] d IH]; simpl; [done|]. by f_equal. }
    by rewrite Hk.
Qed.

(** C8, the claim as stated fails: the signed bytes also cover
    [message_id].  Two requests that agree on sender, recipient, kind,
    timestamp and payload, and differ in their message identifier, have
    different signed bytes. *)
Lemma signed_bytes_cover_message_id :
  sender_id Sample.add_request = sender_id Sample.add_request_again
  ∧ recipient_id Sample.add_request = recipient_id Sample.add_request_again
  ∧ message_type Sample.add_request = message_type Sample.add_request_again
  ∧ timestamp Sample.add_request = timestamp Sample.add_request_again
  ∧ payload Sample.add_request = payload Sample.add_request_again
  ∧ String.eqb (signed_bytes Sample.add_request)
               (signed_bytes Sample.add_request_again) = false.
Proof. repeat split; vm_compute; reflexivity. Qed.

(** *** The text of [json.dumps] determines the value

    The signed bytes can be read back: strings are delimited by their
    quotes, numbers by what follows them, lists and dicts by their
    brackets.  So two values have the same text only if they are the same
    up to the order of the keys of their dicts. *)

Lemma json_unescape_escape c r :
  json_unescape_char (json_escape_char c +:+ r) = Some (c, r).
Proof.
  destruct c as [[] [] [] [] [] [] [] []]; reflexivity.
Qed.

Lemma value_ind' (P : Py.value → Prop) :
  P PNone → (∀ b, P (PBool b)) → (∀ n, P (PInt n)) → (∀ s, P (PStr s)) →
  (∀ l, Forall P l → P (PList l)) →
  (∀ d, Forall (λ kv, P kv.2) d → P (PDict d)) →
  ∀ v, P v.
Proof.
  intros HN HB HI HS HL HD. fix IH 1. intros [|b|n|s|l|d]; [done..| |].
  - apply HL. induction l as [|x l IHl]; constructor; [apply IH|apply IHl].
  - apply HD. induction d as [|[k x] d IHd]; constructor; [apply IH|apply IHd].
Qed.

(** Appending strings *)
Lemma string_app_assoc (s1 s2 s3 : string) : (s1 +:+ s2) +:+ s3 = s1 +:+ s2 +:+ s3.
Proof.
  induction s1 as [|a s1 IH]; [done|].
  change (String a ((s1 +:+ s2) +:+ s3) = String a (s1 +:+ s2 +:+ s3)). by rewrite IH.
Qed.

Lemma string_app_nil_r (s : string) : s +:+ "" = s.
Proof.
  induction s as [|a s IH]; [done|].
  change (String a (s +:+ "") = String a s). by rewrite IH.
Qed.

Lemma string_app_inv_head (s r r' : string) : s +:+ r = s +:+ r' → r = r'.
Proof.
  induction s as [|a s IH]; [done|].
  change (String a (s +:+ r) = String a (s +:+ r') → r = r').
  intros H. injection H. done.
Qed.

(** JSON strings are self-delimiting. *)
Lemma escaped_inj (s s' r r' : string) :
  flat_map_string json_escape_char s +:+ dquote +:+ r
  = flat_map_string json_escape_char s' +:+ dquote +:+ r' →
  s = s' ∧ r = r'.
Proof.
  revert s'. induction s as [|c s IH]; intros [|c' s']; cbn [flat_map_string].
  - cbn. intros H. by injection H.
  - rewrite string_app_assoc. intros H.
    pose proof (json_unescape_escape c' (flat_map_string json_escape_char s' +:+ dquote +:+ r')) as Hu.
    rewrite <- H in Hu. cbn in Hu. injection Hu as Hc _.
    subst c'. cbn in H. discriminate H.
  - rewrite string_app_assoc. intros H.
    pose proof (json_unescape_escape c (flat_map_string json_escape_char s +:+ dquote +:+ r)) as Hu.
    rewrite H in Hu. cbn in Hu. injection Hu as Hc _.
    subst c. cbn in H. discriminate H.
  - rewrite !string_app_assoc. intros H.
    pose proof (json_unescape_escape c (flat_map_string json_escape_char s +:+ dquote +:+ r)) as Hu.
    rewrite H, json_unescape_escape in Hu. injection Hu as -> Hrest.
    destruct (IH _ (eq_sym Hrest)) as [-> ->]. done.
Qed.

Lemma encode_inj (s s' r r' : string) :
  encode_basestring_ascii s +:+ r = encode_basestring_ascii s' +:+ r' →
  s = s' ∧ r = r'.
Proof.
  unfold encode_basestring_ascii. rewrite !string_app_assoc. cbn [dquote chr String.append].
  intros H. injection H as H. exact (escaped_inj _ _ _ _ H).
Qed.

(** Numerals *)
Lemma numeric_split (s1 s2 r r' : string) :
  all_numeric s1 = true → all_numeric s2 = true →
  delimited r = true → delimited r' = true →
  s1 +:+ r = s2 +:+ r' → s1 = s2 ∧ r = r'.
Proof.
  revert s2. induction s1 as [|c s1 IH]; intros [|c' s2]; cbn [all_numeric];
    intros H1 H2 Hr Hr'.
  - done.
  - intros H. change (r = String c' (s2 +:+ r')) in H. subst r.
    cbn in Hr. apply andb_prop in H2 as [Hc _]. by rewrite Hc in Hr.
  - intros H. change (String c (s1 +:+ r) = r') in H. subst r'.
    cbn in Hr'. apply andb_prop in H1 as [Hc _]. by rewrite Hc in Hr'.
  - change (String c (s1 +:+ r) = String c' (s2 +:+ r') → String c s1 = String c' s2 ∧ r = r').
    intros H. injection H as -> H.
    apply andb_prop in H1 as [_ H1]. apply andb_prop in H2 as [_ H2].
    destruct (IH s2 H1 H2 Hr Hr' H) as [-> ->]. done.
Qed.

Lemma pretty_N_char_numeric n : numeric (pretty_N_char n) = true.
Proof. unfold pretty_N_char. by repeat case_match. Qed.

Lemma pretty_N_go_numeric x : ∀ s,
  all_numeric s = true → all_numeric (pretty_N_go x s) = true.
Proof.
  induction (N.lt_wf_0 x) as [x _ IH]. intros s Hs.
  destruct (decide (0 < x)%N) as [Hx|Hx].
  - rewrite pretty_N_go_step by done. apply IH.
    + by apply N.div_lt.
    + cbn [all_numeric]. by rewrite pretty_N_char_numeric.
  - assert (x = 0%N) as -> by lia. by rewrite pretty_N_go_0.
Qed.

Lemma pretty_N_go_nonempty x : ∀ s, s ≠ ""%string ∨ (0 < x)%N → pretty_N_go x s ≠ ""%string.
Proof.
  induction (N.lt_wf_0 x) as [x _ IH]. intros s Hs.
  destruct (decide (0 < x)%N) as [Hx|Hx].
  - rewrite pretty_N_go_step by done. apply IH; [by apply N.div_lt|by left].
  - assert (x = 0%N) as -> by lia. rewrite pretty_N_go_0. destruct Hs; [done|lia].
Qed.

Lemma pretty_N_numeric (x : N) :
  all_numeric (pretty x) = true ∧ pretty x ≠ ""%string.
Proof.
  unfold pretty, pretty_N. destruct (decide (x = 0%N)); [done|]. split.
  - by apply pretty_N_go_numeric.
  - apply pretty_N_go_nonempty. right. lia.
Qed.

Lemma pretty_Z_numeric (n : Z) :
  all_numeric (pretty n) = true ∧ pretty n ≠ ""%string.
Proof.
  destruct n as [|p|p]; [done| |].
  - apply (pretty_N_numeric (Npos p)).
  - change (pretty (Z.neg p)) with ("-" +:+ pretty (Npos p)).
    destruct (pretty_N_numeric (Npos p)) as [H _]. split; [|done].
    cbn. exact H.
Qed.

Lemma pretty_Z_split (n m : Z) (r r' : string) :
  delimited r = true → delimited r' = true →
  pretty n +:+ r = pretty m +:+ r' → n = m ∧ r = r'.
Proof.
  intros Hr Hr' H.
  destruct (numeric_split _ _ _ _ (proj1 (pretty_Z_numeric n)) (proj1 (pretty_Z_numeric m))
              Hr Hr' H) as [Heq ->].
  split; [|done]. by apply (inj pretty).
Qed.

(** The first character tells the kind of Py.value. *)
Lemma numeric_kind c : numeric c = true → char_kind c = 3%N.
Proof.
  destruct c as [[] [] [] [] [] [] [] []]; try done.
Qed.

Lemma dumps_head (v : Py.value) (r : string) :
  ∃ c t, dumps v +:+ r = String c t ∧ char_kind c = kind v.
Proof.
  destruct v as [|[]|n|s|l|d]; try (eexists _, _; split; reflexivity).
  cbn [dumps]. destruct (pretty_Z_numeric n) as [Hnum Hne].
  destruct (pretty n) as [|c t]; [done|]. exists c, (t +:+ r). split; [done|].
  apply numeric_kind. cbn in Hnum. by apply andb_prop in Hnum as [? _].
Qed.

Lemma dumps_kind (v v' : Py.value) (r r' : string) :
  dumps v +:+ r = dumps v' +:+ r' → kind v = kind v'.
Proof.
  intros H. destruct (dumps_head v r) as (c & t & Hv & <-).
  destruct (dumps_head v' r') as (c' & t' & Hv' & <-).
  rewrite Hv, Hv' in H. by injection H as -> _.
Qed.

(** Sorting commutes with a change of the values, and sorts *)
Section SortingMore.
Context {A B : Type} (f : A → B).
Implicit Types (x : string * A) (l : list (string * A)).

Local Abbreviation on_value := (λ kv : string * A, (kv.1, f kv.2)).

Lemma insert_item_map x l :
  insert_item (on_value x) (List.map on_value l) = List.map on_value (insert_item x l).
Proof.
  induction l as [|h t IH]; [done|]. simpl.
  destruct (String.leb x.1 h.1); [done|]. simpl. by rewrite IH.
Qed.

Lemma sorted_items_map l :
  sorted_items (List.map on_value l) = List.map on_value (sorted_items l).
Proof.
  induction l as [|x l IH]; [done|].
  cbn [List.map sorted_items foldr]. fold (sorted_items (List.map on_value l)).
  fold (sorted_items l). by rewrite IH, insert_item_map.
Qed.

Lemma insert_item_Permutation x l : insert_item x l ≡ₚ x :: l.
Proof.
  induction l as [|h t IH]; [done|]. simpl.
  destruct (String.leb x.1 h.1); [done|]. rewrite IH. apply Permutation_swap.
Qed.

Lemma sorted_items_Permutation l : sorted_items l ≡ₚ l.
Proof.
  induction l as [|x l IH]; [done|].
  cbn [sorted_items foldr]. fold (sorted_items l).
  by rewrite insert_item_Permutation, IH.
Qed.

Local Abbreviation key_le := (λ x y : string * A, String.leb x.1 y.1 = true).

Lemma insert_item_Sorted x l : Sorted key_le l → Sorted key_le (insert_item x l).
Proof.
  induction 1 as [|h t Hs IH Hhd]; simpl.
  - repeat constructor.
  - destruct (String.leb x.1 h.1) eqn:E.
    + constructor; [by constructor|by constructor].
    + constructor; [done|].
      assert (Hhx : String.leb h.1 x.1 = true).
      { destruct (String.leb_total x.1 h.1); congruence. }
      destruct t as [|h' t']; simpl; [by constructor|].
      destruct (String.leb x.1 h'.1); constructor; [done|].
      by inversion Hhd.
Qed.

Lemma sorted_items_Sorted l : Sorted key_le (sorted_items l).
Proof.
  induction l as [|x l IH]; [constructor|].
  cbn [sorted_items foldr]. fold (sorted_items l). by apply insert_item_Sorted.
Qed.

Lemma sorted_items_of_Sorted l : Sorted key_le l → sorted_items l = l.
Proof.
  induction 1 as [|h t Hs IH Hhd]; [done|].
  cbn [sorted_items foldr]. fold (sorted_items t). rewrite IH.
  destruct Hhd as [|h' t' Hle]; [done|]. simpl. by rewrite Hle.
Qed.

Lemma sorted_items_idemp l : sorted_items (sorted_items l) = sorted_items l.
Proof. apply sorted_items_of_Sorted, sorted_items_Sorted. Qed.

End SortingMore.

(** Items between brackets, separated by [", "] *)
Section Items.
Context {A B : Type} (show : A → string) (canonA : A → B) (close : ascii).

Hypothesis close_delimits : numeric close = false.
Hypothesis close_no_comma : close ≠ ","%char.
Hypothesis show_head : ∀ a R R', show a +:+ R ≠ String close R'.

Local Abbreviation splits a :=
  (∀ a' R R', delimited R = true → delimited R' = true →
     show a +:+ R = show a' +:+ R' → canonA a = canonA a' ∧ R = R').

Lemma concat_cons (a : A) (l : list A) (R : string) :
  String.concat ", " (List.map show (a :: l)) +:+ R
  = show a +:+ match l with
               | [] => R
               | _ :: _ => ", " +:+ String.concat ", " (List.map show l) +:+ R
               end.
Proof.
  destruct l as [|b l]; [done|].
  change (String.concat ", " (List.map show (a :: b :: l)))
    with (show a +:+ ", " +:+ String.concat ", " (List.map show (b :: l))).
  by rewrite !string_app_assoc.
Qed.

Lemma items_split (l : list A) : ∀ (l' : list A) (r r' : string),
  Forall (λ a, splits a) l →
  String.concat ", " (List.map show l) +:+ String close r
  = String.concat ", " (List.map show l') +:+ String close r' →
  List.map canonA l = List.map canonA l' ∧ r = r'.
Proof.
  induction l as [|a t IH]; intros [|a' t'] r r' Hall.
  - cbn. intros H. by injection H.
  - rewrite concat_cons. cbn [List.map String.concat String.append].
    intros H. symmetry in H. by apply show_head in H.
  - rewrite concat_cons. cbn [List.map String.concat String.append].
    intros H. by apply show_head in H.
  - rewrite !concat_cons. intros H.
    apply Forall_cons in Hall as [Ha Hall].
    apply Ha in H as [Hc H].
    + destruct t as [|b t], t' as [|b' t'].
      * injection H as ->. cbn [List.map]. by rewrite Hc.
      * cbn in H. injection H as Hcl _. done.
      * cbn in H. injection H as Hcl _. by symmetry in Hcl.
      * cbn [String.append] in H. injection H as H.
        destruct (IH (b' :: t') r r' Hall H) as [Ht ->].
        change (canonA a :: List.map canonA (b :: t)
                = canonA a' :: List.map canonA (b' :: t') ∧ r' = r').
        by rewrite Hc, Ht.
    + destruct t; cbn; [by rewrite close_delimits|done].
    + destruct t'; cbn; [by rewrite close_delimits|done].
Qed.

End Items.

Local Abbreviation show_item :=
  (λ kv : string * Py.value, encode_basestring_ascii kv.1 +:+ ": " +:+ dumps kv.2).
Local Abbreviation canon_item := (λ kv : string * Py.value, (kv.1, canon kv.2)).

Lemma dumps_dict (d : dict) :
  dumps (PDict d)
  = "{" +:+ String.concat ", " (List.map show_item (sorted_items d)) +:+ "}".
Proof.
  cbn [dumps]. do 3 f_equal.
  rewrite (map_ext (λ '(k, v), (k, dumps v)) (λ kv, (kv.1, dumps kv.2))) by by intros [].
  rewrite (sorted_items_map dumps), map_map. done.
Qed.

Lemma canon_dict (d : dict) :
  canon (PDict d) = PDict (List.map canon_item (sorted_items d)).
Proof.
  cbn [canon]. f_equal.
  rewrite (map_ext (λ '(k, v), (k, canon v)) (λ kv, (kv.1, canon kv.2))) by by intros [].
  apply (sorted_items_map canon).
Qed.

(** [json.dumps] can be read back: the text of a Py.value, followed by anything
    that does not go on a number, determines the Py.value up to the order of
    the keys of its dicts, and what follows. *)
Lemma dumps_split (v : Py.value) : ∀ (v' : Py.value) (r r' : string),
  delimited r = true → delimited r' = true →
  dumps v +:+ r = dumps v' +:+ r' → canon v = canon v' ∧ r = r'.
Proof.
  induction v as [|b|n|s|l IH|d IH] using value_ind'; intros v' r r' Hr Hr' H;
    pose proof (dumps_kind _ _ _ _ H) as Hk;
    destruct v' as [|b'|n'|s'|l'|d']; try (by destruct b); try (by destruct b');
    try discriminate Hk.
  - cbn in H. split; [done|]. by injection H.
  - destruct b, b'; try discriminate Hk; cbn in H; split; try done; by injection H.
  - cbn [dumps] in H. destruct (pretty_Z_split _ _ _ _ Hr Hr' H) as [-> ->]. done.
  - cbn [dumps] in H. destruct (encode_inj _ _ _ _ H) as [-> ->]. done.
  - cbn [dumps] in H. rewrite !string_app_assoc in H.
    cbn [String.append] in H. injection H as H.
    assert (Hhead : ∀ (a : Py.value) R R', dumps a +:+ R ≠ String "]" R').
    { intros a R R' Ha. destruct (dumps_head a R) as (c & t & Hc & Hkind).
      rewrite Hc in Ha. injection Ha as -> _. by destruct a as [|[]| | | |]. }
    assert (Hne : "]"%char ≠ ","%char) by done.
    destruct (items_split dumps canon "]"%char eq_refl Hne Hhead l l' r r' IH H)
      as [Hl ->].
    cbn [canon]. by rewrite Hl.
  - rewrite !dumps_dict, !string_app_assoc in H.
    cbn [String.append] in H. injection H as H.
    assert (Hhead : ∀ (a : string * Py.value) R R', show_item a +:+ R ≠ String "}" R').
    { intros a R R'. unfold encode_basestring_ascii. rewrite !string_app_assoc.
      cbn [dquote chr String.append]. intros Ha. by injection Ha. }
    assert (Hne : "}"%char ≠ ","%char) by done.
    assert (Hall : Forall (λ a, ∀ a' R R', delimited R = true → delimited R' = true →
                             show_item a +:+ R = show_item a' +:+ R' →
                             canon_item a = canon_item a' ∧ R = R') (sorted_items d)).
    { rewrite (sorted_items_Permutation d).
      eapply Forall_impl; [exact IH|]. intros [k x] Hx [k' x'] R R' HR HR' Hs.
      cbn [fst snd] in *. rewrite !string_app_assoc in Hs.
      apply encode_inj in Hs as [-> Hs].
      cbn [String.append] in Hs. injection Hs as Hs.
      destruct (Hx x' R R' HR HR' Hs) as [-> ->]. done. }
    destruct (items_split show_item canon_item "}"%char eq_refl Hne Hhead
                (sorted_items d) (sorted_items d') r r' Hall H) as [Hl ->].
    rewrite !canon_dict. by rewrite Hl.
Qed.

(** The text of a Py.value is the text of its canonical form. *)
Lemma dumps_canon (v : Py.value) : dumps (canon v) = dumps v.
Proof.
  induction v as [|b|n|s|l IH|d IH] using value_ind'; try done.
  - cbn [canon dumps]. do 3 f_equal. rewrite map_map.
    apply map_ext_Forall. exact IH.
  - rewrite canon_dict, !dumps_dict. do 3 f_equal.
    rewrite (sorted_items_map canon), sorted_items_idemp, map_map.
    apply map_ext_Forall. rewrite (sorted_items_Permutation d).
    eapply Forall_impl; [exact IH|]. intros [k x] Hx. cbn [fst snd] in *. by rewrite Hx.
Qed.

(** Two values have the same text exactly when they have the same canonical
    form. *)
Lemma dumps_inj_canon (v v' : Py.value) : dumps v = dumps v' ↔ canon v = canon v'.
Proof.
  split.
  - intros H. apply (dumps_split v v' "" ""); [done|done|]. by rewrite !string_app_nil_r.
  - intros H. by rewrite <- (dumps_canon v), <- (dumps_canon v'), H.
Qed.

Lemma message_type_value_inj (t1 t2 : MessageType) : Message.value t1 = Message.value t2 → t1 = t2.
Proof. by destruct t1, t2. Qed.

(** The items of [message_data] in the order of their keys. *)
Lemma sorted_message_data (m : A2AMessage) :
  sorted_items (message_data m)
  = [ ("message_id"%string, PStr (message_id m));
      ("message_type"%string, PStr (Message.value (message_type m)));
      ("payload"%string, PDict (payload m));
      ("recipient_id"%string, PStr (recipient_id m));
      ("sender_id"%string, PStr (sender_id m));
      ("timestamp"%string, PStr (timestamp m)) ].
Proof. reflexivity. Qed.

(** A dict with unique keys has the same canonical form in whatever order
    it was built. *)
Lemma canon_dict_perm (d1 d2 : Py.dict) :
  d1 ≡ₚ d2 → NoDup d1.*1 → canon (PDict d1) = canon (PDict d2).
Proof.
  intros Hp Hnd. rewrite !canon_dict. by rewrite (sorted_items_perm d1 d2).
Qed.

(** C8, amended.  The bytes that are signed are the encoding of
    [json.dumps] with sorted keys of exactly the fields [message_id],
    [sender_id], [recipient_id], [message_type], [timestamp] and [payload]:
    two messages have the same signed bytes if and only if they agree on
    the first five of these fields and their payloads are the same dict up
    to the order of the keys, at every depth ([signature] and
    [requires_response] play no part).  The signature is the result of the
    signing operation on these bytes. *)
Theorem signed_bytes_canonical private_key_sign b64encode (m1 m2 : A2AMessage) :
  (signed_bytes m1 = signed_bytes m2
   ↔ message_id m1 = message_id m2
     ∧ sender_id m1 = sender_id m2
     ∧ recipient_id m1 = recipient_id m2
     ∧ message_type m1 = message_type m2
     ∧ timestamp m1 = timestamp m2
     ∧ canon (PDict (payload m1)) = canon (PDict (payload m2)))
  ∧ sign_message private_key_sign b64encode m1
    = b64encode (private_key_sign (signed_bytes m1)).
Proof.
  split; [|done]. unfold signed_bytes.
  rewrite dumps_inj_canon, (canon_dict (message_data m1)), (canon_dict (message_data m2)).
  rewrite !sorted_message_data. cbn [List.map fst snd].
  change (canon (PStr ?s)) with (PStr s).
  split.
  - intros H. injection H as Hid Hty Hp Hr Hs Ht.
    apply message_type_value_inj in Hty. split_and!; try done.
    cbn [canon]. by rewrite Hp.
  - intros (-> & -> & -> & -> & -> & ->). done.
Qed.

Lemma signed_bytes_canonical_witness :
  signed_bytes Sample.add_request = signed_bytes Sample.add_request_reordered
  ∧ signed_bytes Sample.add_request = signed_bytes Scenario.add_request_nested_reordered.
Proof.
  split.
  - apply (proj1 (signed_bytes_canonical Sample.private_key_sign Sample.b64encode
                    Sample.add_request Sample.add_request_reordered)).
    repeat split; reflexivity.
  - apply (proj1 (signed_bytes_canonical Sample.private_key_sign Sample.b64encode
                    Sample.add_request Scenario.add_request_nested_reordered)).
    repeat split; reflexivity.
Defined.

(** Changing the payload changes the signed bytes, here by one operand, while
    the order of the keys does not, at the top or one level down. *)
Example signed_bytes_follow_the_payload :
  signed_bytes Sample.add_request_tampered ≠ signed_bytes Sample.add_request
  ∧ payload Sample.add_request ≠ payload Scenario.add_request_nested_reordered
  ∧ canon (PDict (payload Sample.add_request))
    = canon (PDict (payload Scenario.add_request_nested_reordered)).
Proof.
  split_and!; [|done|done]. intros H.
  apply (signed_bytes_canonical Sample.private_key_sign Sample.b64encode) in H
    as (_ & _ & _ & _ & _ & H).
  discriminate H.
Qed.

(** A message that carries the signature [sign_message] computed for it is
    verified, as soon as that signature is not the empty text (the base64
    text of an RSA signature never is). *)
Lemma signed_message_verifies private_key_sign b64encode (m : A2AMessage) :
  sign_message private_key_sign b64encode m ≠ ""%string →
  verify_message_signature
    (set_signature (Some (sign_message private_key_sign b64encode m)) m) = true.
Proof.
  intros Hne. unfold verify_message_signature. simpl.
  apply String.eqb_neq in Hne. by rewrite Hne.
Qed.

(** C1.  Verification looks at nothing but the presence of a signature: two
    messages with the same [signature] field get the same verdict, whatever
    their other fields are, and a message that carries a non-empty signature
    is verified, so that changing a signed field after signing is not
    detected. *)
Theorem verify_ignores_signed_fields (m m' : A2AMessage) :
  signature m' = signature m →
  verify_message_signature m' = verify_message_signature m.
Proof. intros H. unfold verify_message_signature. by rewrite H. Qed.

Lemma verify_ignores_signed_fields_witness :
  String.eqb (signed_bytes Sample.add_request_tampered)
             (signed_bytes Sample.add_request) = false
  ∧ verify_message_signature Sample.add_request = true
  ∧ verify_message_signature Sample.add_request_tampered
    = verify_message_signature Sample.add_request.
Proof.
  split; [vm_compute; reflexivity|]. split; [reflexivity|].
  apply (verify_ignores_signed_fields Sample.add_request Sample.add_request_tampered).
  reflexivity.
Defined.

End SigningFacts.

(** ** Channels of the bus client *)

Module ClientFacts.
Import Py Message A2AClient.

Section Channels.

Variable private_key_sign : string → string.
Variable b64encode : string → string.

Lemma _prepare_message_recipient utcnow (message : A2AMessage) (c : t) :
  recipient_id (_prepare_message private_key_sign b64encode utcnow message c)
  = recipient_id message.
Proof.
  unfold _prepare_message.
  destruct (String.eqb (sender_id message) ""); simpl;
    destruct (String.eqb _ ""); done.
Qed.

(** A connected client publishes the prepared message, once. *)
Lemma send_message_publishes utcnow (message : A2AMessage) (c : t) redis :
  redis_client c = Some redis →
  reachable redis = true →
  send_message private_key_sign b64encode utcnow message c
  = (set_redis_client
       (Some (mk_redis true
                (published redis ++
                   [(channel_for (recipient_id message),
                     _prepare_message private_key_sign b64encode utcnow message c)]))) c,
     Ok tt).
Proof.
  intros Hr Hup. unfold send_message. rewrite Hr, Hup.
  by rewrite _prepare_message_recipient.
Qed.

End Channels.

(** C4, the claim as stated fails: the channel names start with [agentic:],
    not with [bus:].  A request sent to [calc-demo] is published on
    [agentic:agent:calc-demo]. *)
Lemma direct_channel_is_agentic :
  (outbox (send_message Sample.private_key_sign Sample.b64encode Sample.utcnow
             Sample.add_request (initialize true (init "echo-demo")).1).1).*1
  = ["agentic:agent:calc-demo"%string]
  ∧ String.eqb "agentic:agent:calc-demo" "bus:agent:calc-demo" = false.
Proof. split; vm_compute; reflexivity. Qed.

(** C4, amended.  A connected client publishes every message on the channel
    ["agentic:agent:"] followed by the recipient's identifier, and on
    ["agentic:broadcast"] when the recipient is ["*"]; [initialize]
    subscribes to exactly these two channels for the client's own
    identifier. *)
Theorem channels_are_agentic private_key_sign b64encode utcnow
    (message : A2AMessage) (c : t) redis :
  redis_client c = Some redis →
  reachable redis = true →
  let c' := (send_message private_key_sign b64encode utcnow message c).1 in
  let channel := if bool_decide (recipient_id message = "*")
                 then "agentic:broadcast"%string
                 else "agentic:agent:" +:+ recipient_id message in
  outbox c'
  = outbox c
    ++ [(channel, _prepare_message private_key_sign b64encode utcnow message c)]
  ∧ pubsub (initialize true c).1
    = Some ["agentic:agent:" +:+ agent_id c; "agentic:broadcast"%string].
Proof.
  intros Hr Hup c' channel. split; [|done].
  subst c'. rewrite (send_message_publishes _ _ _ _ _ _ Hr Hup). simpl.
  unfold outbox. rewrite Hr. simpl. do 3 f_equal.
  subst channel. unfold channel_for.
  case_bool_decide as H.
  - by rewrite H.
  - apply String.eqb_neq in H. by rewrite H.
Qed.

Lemma channels_are_agentic_witness :
  let c := (initialize true (init "echo-demo")).1 in
  let announcement := set_recipient_id "*" Sample.add_request in
  outbox (send_message Sample.private_key_sign Sample.b64encode Sample.utcnow
            announcement c).1
  = outbox c
    ++ [("agentic:broadcast"%string,
         _prepare_message Sample.private_key_sign Sample.b64encode Sample.utcnow
           announcement c)]
  ∧ pubsub (initialize true c).1
    = Some ["agentic:agent:echo-demo"%string; "agentic:broadcast"%string].
Proof.
  intros c announcement.
  exact (channels_are_agentic Sample.private_key_sign Sample.b64encode Sample.utcnow
           announcement c (mk_redis true []) eq_refl eq_refl).
Defined.

End ClientFacts.

(** ** The inbound loop and the handlers of the agent *)

Module AgentFacts.
Import Py Message Agent.

#[local] Arguments A2AClient._prepare_message : simpl never.
#[local] Arguments A2AClient.channel_for : simpl never.

Section Handlers.

Variable private_key_sign : string → string.
Variable b64encode : string → string.
Variable uuid4 : nat → string.
Variable execute_task :
  Py.value → Py.value → A2AMessage → AgentMemory.t → AgentMemory.t * result Py.value.
Variable parse_raw : string → option A2AMessage.

Local Abbreviation _prepare_message :=
  (A2AClient._prepare_message private_key_sign b64encode).
Local Abbreviation client_send := (client_send private_key_sign b64encode).
Local Abbreviation _send_task_response :=
  (_send_task_response private_key_sign b64encode uuid4).
Local Abbreviation _handle_task_request :=
  (_handle_task_request private_key_sign b64encode uuid4 execute_task).
Local Abbreviation _handle_message :=
  (_handle_message private_key_sign b64encode uuid4 execute_task).
Local Abbreviation on_item :=
  (on_item private_key_sign b64encode uuid4 execute_task parse_raw).
Local Abbreviation answer_id := (answer_id uuid4).
Local Abbreviation send_task_to_agent :=
  (send_task_to_agent private_key_sign b64encode uuid4).

(** C5.  For an item of type ["message"] that parses, the inbound loop does
    what the validation order of the specification says, stopping at the
    first check that fails.  Whenever a check fails no handler runs, nothing
    is published and the memory is untouched.  For a message of the agent
    itself, one without signature or one of an untrusted sender the agent is
    left exactly as it was: the rate limiter is not consulted and no slot is
    consumed.  For a message over the rate limit only the limiter changes:
    the sender's list is pruned and gets no new entry.  Otherwise the message
    goes to [_handle_message], with the slot recorded. *)
Theorem admission_pipeline now utcnow item (message : A2AMessage) (ag : Agent.t) c :
  a2a_client ag = Some c →
  item_type item = "message"%string →
  parse_raw (item_data item) = Some message →
  let ag' := on_item now utcnow item ag in
  let sc := security_context ag in
  let sc1 := (SecurityContext.check_rate_limit now (sender_id message) sc).1 in
  match Spec.admission (A2AClient.agent_id c) now message sc with
  | Some refusal =>
      trace ag' = trace ag ∧ outbox ag' = outbox ag ∧ memory ag' = memory ag
      ∧ match refusal with
        | Spec.RateLimited =>
            ag' = set_security_context sc1 ag
            ∧ RateLimiter.requests_of (SecurityContext.rate_limiter sc1)
                (sender_id message)
              = RateLimiter.live
                  (now - RateLimiter.window_seconds (SecurityContext.rate_limiter sc))
                  (RateLimiter.requests_of (SecurityContext.rate_limiter sc)
                     (sender_id message))
        | _ => ag' = ag
        end
  | None => ag' = _handle_message utcnow message (set_security_context sc1 ag)
  end.
Proof.
  intros Hc Hty Hparse ag' sc sc1. subst ag'.
  unfold Agent.on_item, Spec.admission. rewrite Hc, Hty, Hparse. simpl.
  destruct (String.eqb (sender_id message) (A2AClient.agent_id c)); [done|].
  unfold A2AClient._validate_message.
  destruct (SecurityContext.verify_message_signature message); simpl.
  2:{ by destruct ag. }
  fold sc. subst sc1.
  pose proof (RateLimiterFacts.is_allowed_requests now (sender_id message)
                (SecurityContext.rate_limiter sc) (sender_id message)) as Hreq.
  unfold SecurityContext.check_rate_limit in *.
  destruct (RateLimiter.is_allowed now (sender_id message) (SecurityContext.rate_limiter sc))
    as [rl ok] eqn:E.
  simpl in *. destruct ok; simpl; [done|].
  repeat split; try done.
  rewrite Hreq. destruct (decide (sender_id message = sender_id message)); [|done].
  by rewrite app_nil_r.
Qed.

(** The loop of [_listen_for_messages] runs [on_item] on each item while the
    client is subscribed and running. *)
Lemma _listen_for_messages_step now utcnow item rest (ag : Agent.t) c channels :
  a2a_client ag = Some c →
  A2AClient.pubsub c = Some channels →
  A2AClient._running c = true →
  Agent._listen_for_messages private_key_sign b64encode uuid4 execute_task parse_raw
    ((now, utcnow, item) :: rest) ag
  = Agent._listen_for_messages private_key_sign b64encode uuid4 execute_task parse_raw
      rest (on_item now utcnow item ag).
Proof. intros Hc Hp Hr. simpl. by rewrite Hc, Hp, Hr. Qed.

(** An accepted task response reaches [_handle_task_response]: the loop
    leaves in the memory what that handler stores. *)
Lemma on_item_task_response now utcnow item (message : A2AMessage) (ag : Agent.t) c :
  a2a_client ag = Some c →
  item_type item = "message"%string →
  parse_raw (item_data item) = Some message →
  Spec.admission (A2AClient.agent_id c) now message (security_context ag) = None →
  A2AClient.handlers_get (message_type message) (A2AClient.handlers c)
  = Some A2AClient.handle_task_response →
  memory (on_item now utcnow item ag) = memory (_handle_task_response message ag)
  ∧ trace (on_item now utcnow item ag)
    = trace ag ++ [Handled A2AClient.handle_task_response message].
Proof.
  intros Hc Hty Hparse Hadm Hh.
  unfold Agent.on_item, Spec.admission, A2AClient._validate_message in *.
  rewrite Hc, Hty, Hparse. cbn [negb String.eqb].
  destruct (String.eqb (sender_id message) (A2AClient.agent_id c)); [done|].
  destruct (SecurityContext.verify_message_signature message); [|done].
  cbn [negb SecurityContext.is_trusted_agent] in *.
  destruct (SecurityContext.check_rate_limit now (sender_id message) (security_context ag))
    as [sc1 ok].
  destruct ok; [|done]. cbn [negb].
  unfold Agent._handle_message. cbn [a2a_client set_security_context].
  by rewrite Hc, Hh.
Qed.

(** *** Task requests *)

Lemma _prepare_message_fields utcnow (message : A2AMessage) c :
  message_type (_prepare_message utcnow message c) = message_type message
  ∧ payload (_prepare_message utcnow message c) = payload message
  ∧ recipient_id (_prepare_message utcnow message c) = recipient_id message
  ∧ message_id (_prepare_message utcnow message c) = message_id message.
Proof.
  unfold A2AClient._prepare_message.
  destruct (String.eqb (sender_id message) ""); simpl;
    destruct (String.eqb _ ""); done.
Qed.

Lemma connected_inv (ag : Agent.t) :
  connected ag = true →
  ∃ c redis, a2a_client ag = Some c ∧ A2AClient.redis_client c = Some redis
             ∧ A2AClient.reachable redis = true.
Proof.
  unfold connected. destruct (a2a_client ag) as [c|]; [|done].
  destruct (A2AClient.redis_client c) as [redis|] eqn:Hr; [|done].
  intros Hup. by exists c, redis.
Qed.

(** Publishing through the agent's client: one more entry in the outbox when
    the agent is connected, none otherwise. *)
Lemma client_send_spec utcnow (message : A2AMessage) (ag : Agent.t) c :
  a2a_client ag = Some c →
  let ag' := (client_send utcnow message ag).1 in
  (∀ x, uuid_count (set_uuid_count x ag') = x)
  ∧ agent_id ag' = agent_id ag ∧ capabilities ag' = capabilities ag
  ∧ memory ag' = memory ag ∧ security_context ag' = security_context ag
  ∧ _tasks ag' = _tasks ag ∧ trace ag' = trace ag
  ∧ connected ag' = connected ag
  ∧ ∃ c', a2a_client ag' = Some c'
      ∧ if connected ag
        then (client_send utcnow message ag).2 = Ok tt
             ∧ outbox ag' = outbox ag
                 ++ [(A2AClient.channel_for (recipient_id message),
                      _prepare_message utcnow message c)]
        else outbox ag' = outbox ag.
Proof.
  intros Hc. unfold Agent.client_send, connected, outbox. rewrite Hc.
  unfold A2AClient.send_message, A2AClient.outbox.
  destruct (A2AClient.redis_client c) as [redis|] eqn:Hr.
  2:{ cbn. rewrite Hr. split_and!; try done. by eexists. }
  rewrite (ClientFacts._prepare_message_recipient).
  destruct (A2AClient.reachable redis) eqn:Hup.
  2:{ cbn. rewrite Hr, Hup. split_and!; try done. by eexists. }
  cbn. split_and!; try done. by eexists.
Qed.

(** What [_send_task_response] publishes: one response that carries the task
    identifier and the verdict when the agent is connected, nothing when it
    has no client or the publication raises. *)
Lemma _send_task_response_spec utcnow recipient task_id success res err (ag : Agent.t) :
  let ag' := (_send_task_response utcnow recipient task_id success res err ag).1 in
  same_but_client ag ag'
  ∧ ∃ new, outbox ag' = outbox ag ++ new
      ∧ Forall (response_for task_id) new
      ∧ (connected ag = true →
         (_send_task_response utcnow recipient task_id success res err ag).2 = Ok tt
         ∧ ∃ m, new = [(A2AClient.channel_for recipient, m)]
             ∧ message_type m = TASK_RESPONSE
             ∧ payload m = [ ("task_id"%string, task_id);
                             ("success"%string, PBool success);
                             ("result"%string, res);
                             ("error"%string, err) ]).
Proof.
  unfold Agent._send_task_response, same_but_client.
  destruct (a2a_client ag) as [c|] eqn:Hc.
  2:{ cbn. split; [done|]. exists []. rewrite app_nil_r.
      split_and!; [done|constructor|].
      unfold connected. rewrite Hc. intros [=]. }
  unfold next_uuid.
  match goal with |- context [Agent.client_send _ _ ?u ?m ?a] =>
    pose proof (client_send_spec u m a c Hc) as H; cbn zeta in H;
    destruct (Agent.client_send private_key_sign b64encode u m a) as [ag1 r] eqn:E
  end.
  cbn [fst snd] in *.
  destruct H as (_ & -> & -> & -> & -> & -> & -> & Hcon & c' & Hc' & Hout).
  split; [by rewrite Hcon|].
  change (connected (set_uuid_count (S (uuid_count ag)) ag)) with (connected ag) in Hout.
  change (outbox (set_uuid_count (S (uuid_count ag)) ag)) with (outbox ag) in Hout.
  destruct (connected ag).
  - destruct Hout as [-> ->]. eexists. split; [done|].
    destruct (_prepare_message_fields utcnow
      {| message_id := uuid4 (uuid_count ag);
         sender_id := agent_id (set_uuid_count (S (uuid_count ag)) ag);
         recipient_id := recipient; message_type := TASK_RESPONSE;
         timestamp := utcnow;
         payload := [("task_id"%string, task_id); ("success"%string, PBool success);
                     ("result"%string, res); ("error"%string, err)];
         requires_response := false; signature := None |} c) as (Hty & Hpl & _).
    split.
    + repeat constructor; cbn [snd]; [by rewrite Hty|by rewrite Hpl].
    + intros _. split; [done|]. eexists. split; [done|]. by rewrite Hty, Hpl.
  - exists []. rewrite app_nil_r. split_and!; [done|constructor|intros [=]].
Qed.



(** A task type that is no key of the registry draws a failure response that
    names it, when the type is hashable and the agent is connected; the task
    is not executed and does not enter [_tasks]. *)
Lemma unsupported_capability_response utcnow (message : A2AMessage) (ag : Agent.t) :
  let task_type := Py.get (payload message) "task_type" PNone in
  let ag' := _handle_task_request utcnow message ag in
  in_capabilities task_type (capabilities ag) = Ok false →
  connected ag = true →
  (∃ m, outbox ag' = outbox ag ++ [(A2AClient.channel_for (sender_id message), m)]
        ∧ message_type m = TASK_RESPONSE
        ∧ payload m
          = [ ("task_id"%string, answer_id message ag);
              ("success"%string, PBool false);
              ("result"%string, PNone);
              ("error"%string,
               PStr ("Capability '" +:+ Py.str task_type +:+ "' not supported")) ])
  ∧ trace ag' = trace ag ∧ _tasks ag' = _tasks ag.
Proof.
  intros task_type ag' Hcap Hcon. subst ag'.
  unfold Agent._handle_task_request, next_uuid.
  set (ag0 := set_uuid_count (S (uuid_count ag)) ag).
  change (capabilities ag0) with (capabilities ag). fold task_type. rewrite Hcap.
  pose proof (_send_task_response_spec utcnow (sender_id message) (answer_id message ag)
                false PNone
                (PStr ("Capability '" +:+ Py.str task_type +:+ "' not supported")) ag0)
    as (Hsame & new & Hout & _ & Hnew).
  destruct (Hnew Hcon) as (_ & m & -> & Hty & Hpl).
  destruct Hsame as (_ & _ & _ & _ & Htasks & Htrace & _).
  split_and!; [|done|done]. by exists m.
Qed.

(** C7.  A request whose task type is a list or a dict is in no registry,
    and yet it draws no response: the membership test raises [TypeError],
    which the handler logs.  Nothing is published, nothing is executed. *)
Theorem unhashable_task_type_gets_no_response utcnow (message : A2AMessage)
    (ag : Agent.t) :
  Py.hashable (Py.get (payload message) "task_type" PNone) = false →
  let ag' := _handle_task_request utcnow message ag in
  outbox ag' = outbox ag ∧ trace ag' = trace ag ∧ _tasks ag' = _tasks ag.
Proof.
  intros Hh ag'. subst ag'. unfold Agent._handle_task_request, next_uuid.
  destruct (Py.get (payload message) "task_type" PNone); try done.
Qed.



(** *** Task responses and the wait of [send_task_to_agent] *)

Lemma deliver_cons (message : A2AMessage) arrivals (ag : Agent.t) :
  deliver (message :: arrivals) ag = deliver arrivals (_handle_task_response message ag).
Proof. done. Qed.

(** After a batch of responses the entry of a key holds the payload of the
    last response stored under it: each delivery overwrites the one before. *)
Lemma retrieve_deliver key arrivals : ∀ ag : Agent.t,
  AgentMemory.retrieve key (memory (deliver arrivals ag))
  = match last_for key arrivals with
    | Some message => Some (PDict (payload message))
    | None => AgentMemory.retrieve key (memory ag)
    end.
Proof.
  induction arrivals as [|m arrivals IH]; intros ag; [done|].
  rewrite deliver_cons, IH. simpl.
  destruct (last_for key arrivals); [done|].
  unfold _handle_task_response, AgentMemory.retrieve, AgentMemory.store, message_key.
  simpl. rewrite lookup_insert.
  destruct (decide (response_key (Py.get (payload m) "task_id" PNone) = key)); done.
Qed.

(** Deliveries touch nothing but the memory. *)
Lemma deliver_frame arrivals : ∀ ag : Agent.t,
  a2a_client (deliver arrivals ag) = a2a_client ag
  ∧ trace (deliver arrivals ag) = trace ag
  ∧ _tasks (deliver arrivals ag) = _tasks ag
  ∧ uuid_count (deliver arrivals ag) = uuid_count ag
  ∧ security_context (deliver arrivals ag) = security_context ag.
Proof.
  induction arrivals as [|m arrivals IH]; intros ag; [done|].
  rewrite deliver_cons. destruct (IH (_handle_task_response m ag)) as (-> & -> & -> & -> & ->).
  done.
Qed.

Lemma wait_hit task_id start timeout clock arrivals rest (ag : Agent.t) response :
  clock - start < timeout →
  AgentMemory.retrieve (response_key (PStr task_id)) (memory ag) = Some response →
  Py.truthy response = true →
  Agent.wait_for_response task_id start timeout ((clock, arrivals) :: rest) ag
  = (ag, Returned response).
Proof.
  intros Hin Hget Htruthy. simpl.
  rewrite bool_decide_eq_true_2 by done. by rewrite Hget, Htruthy.
Qed.

Lemma wait_miss task_id start timeout clock arrivals rest (ag : Agent.t) :
  clock - start < timeout →
  match AgentMemory.retrieve (response_key (PStr task_id)) (memory ag) with
  | Some response => Py.truthy response = false
  | None => True
  end →
  Agent.wait_for_response task_id start timeout ((clock, arrivals) :: rest) ag
  = Agent.wait_for_response task_id start timeout rest (deliver arrivals ag).
Proof.
  intros Hin Hget. simpl. rewrite bool_decide_eq_true_2 by done.
  destruct (AgentMemory.retrieve _ _); [by rewrite Hget|done].
Qed.

Lemma wait_timeout task_id start timeout clock arrivals rest (ag : Agent.t) :
  timeout <= clock - start →
  Agent.wait_for_response task_id start timeout ((clock, arrivals) :: rest) ag
  = (ag, Raised (TimeoutError ("No response received for task " +:+ task_id
                               +:+ " within " +:+ pretty timeout +:+ "s"))).
Proof. intros Hout. simpl. rewrite bool_decide_eq_false_2 by lia. done. Qed.

(** A connected agent publishes the request and starts to wait. *)
Lemma send_task_to_agent_connected utcnow recipient task_type task_data timeout
    during_send start polls (ag : Agent.t) :
  connected ag = true →
  ∃ ag1,
    send_task_to_agent utcnow recipient task_type task_data timeout during_send
      start polls ag
    = Agent.wait_for_response (uuid4 (uuid_count ag)) start timeout polls
        (deliver during_send ag1)
    ∧ memory ag1 = memory ag
    ∧ ∃ m, outbox ag1 = outbox ag ++ [(A2AClient.channel_for recipient, m)]
        ∧ message_type m = TASK_REQUEST
        ∧ payload m = [ ("task_id"%string, PStr (uuid4 (uuid_count ag)));
                        ("task_type"%string, PStr task_type);
                        ("data"%string, PDict task_data) ].
Proof.
  intros Hcon. destruct (connected_inv _ Hcon) as (c & redis & Hc & Hr & Hup).
  unfold Agent.send_task_to_agent. rewrite Hc. unfold next_uuid. cbn [uuid_count set_uuid_count].
  match goal with |- context [Agent.client_send _ _ ?u ?m ?a] =>
    pose proof (client_send_spec u m a c Hc) as H; cbn zeta in H;
    change (connected a) with (connected ag) in H;
    change (outbox a) with (outbox ag) in H;
    change (memory a) with (memory ag) in H;
    destruct (_prepare_message_fields u m c) as (Hty & Hpl & _);
    destruct (Agent.client_send private_key_sign b64encode u m a) as [ag1 r] eqn:E
  end.
  cbn [fst snd] in *. rewrite Hcon in H.
  destruct H as (_ & _ & _ & Hmem & _ & _ & _ & _ & c' & _ & -> & Hout).
  exists ag1. split_and!; [done|done|].
  eexists. split; [exact Hout|]. by rewrite Hty, Hpl.
Qed.

(** C2, amended.  The store keeps one entry per task identifier and every
    response delivered for it overwrites the entry: of the responses handled
    before a poll, the caller of [send_task_to_agent] receives the payload of
    the last one.  What is delivered after that poll ([arrivals], [rest])
    does not change the value returned.  The statement is given for a poll
    that follows any batch of deliveries, and for the first poll of
    [send_task_to_agent] after the responses handled while the request was
    being published. *)
Theorem last_response_wins utcnow recipient task_type task_data timeout batch
    start clock arrivals rest (ag : Agent.t) (r : A2AMessage) :
  connected ag = true →
  last_for (response_key (PStr (uuid4 (uuid_count ag)))) batch = Some r →
  payload r ≠ [] →
  clock - start < timeout →
  (∀ st : Agent.t,
     Agent.wait_for_response (uuid4 (uuid_count ag)) start timeout
       ((clock, arrivals) :: rest) (deliver batch st)
     = (deliver batch st, Returned (PDict (payload r))))
  ∧ (send_task_to_agent utcnow recipient task_type task_data timeout batch start
       ((clock, arrivals) :: rest) ag).2
    = Returned (PDict (payload r)).
Proof.
  intros Hcon Hlast Hne Hin.
  assert (Hwait : ∀ st : Agent.t,
     Agent.wait_for_response (uuid4 (uuid_count ag)) start timeout
       ((clock, arrivals) :: rest) (deliver batch st)
     = (deliver batch st, Returned (PDict (payload r)))).
  { intros st. apply wait_hit; [done| |].
    - by rewrite retrieve_deliver, Hlast.
    - simpl. by destruct (payload r). }
  split; [done|].
  destruct (send_task_to_agent_connected utcnow recipient task_type task_data timeout
              batch start ((clock, arrivals) :: rest) ag Hcon) as (ag1 & -> & _).
  by rewrite Hwait.
Qed.

(** Quiet turns leave the loop waiting, with nothing stored for the task. *)
Lemma wait_quiet task_id start timeout idle : ∀ polls (st : Agent.t),
  quiet (response_key (PStr task_id)) start timeout idle →
  AgentMemory.retrieve (response_key (PStr task_id)) (memory st) = None →
  ∃ st',
    Agent.wait_for_response task_id start timeout (idle ++ polls) st
    = Agent.wait_for_response task_id start timeout polls st'
    ∧ AgentMemory.retrieve (response_key (PStr task_id)) (memory st') = None.
Proof.
  induction idle as [|[clock arrivals] idle IH]; intros polls st Hq Hnone.
  - by exists st.
  - apply Forall_cons in Hq as [[Hin Hno] Hq]. cbn [fst snd] in Hin, Hno.
    rewrite <- app_comm_cons, wait_miss; [|done|by rewrite Hnone].
    apply IH; [done|]. by rewrite retrieve_deliver, Hno.
Qed.

(** C3, amended.  On a connected agent whose memory holds nothing for the
    task identifier about to be drawn, and when no response is handled while
    the request is published, [send_task_to_agent] behaves as follows on the
    turns of its polling loop ([idle] are turns within the deadline during
    which no response for the task is handled).
    - If a response for the task is handled during the sleep of a turn and
      the next poll happens while the elapsed time is below the timeout, the
      call returns the payload of that response as it is, whatever its
      [success] flag: no exception is raised from a carried error.
    - If no response is handled before the first turn at which the elapsed
      time is not below the timeout, the call raises [TimeoutError].
    - While neither happened the call is still waiting. *)
Theorem send_task_poll_semantics utcnow recipient task_type task_data timeout
    during_send start (ag : Agent.t) :
  connected ag = true →
  let task_id := uuid4 (uuid_count ag) in
  let key := response_key (PStr task_id) in
  AgentMemory.retrieve key (memory ag) = None →
  last_for key during_send = None →
  let call polls :=
    (send_task_to_agent utcnow recipient task_type task_data timeout during_send
       start polls ag).2 in
  (∀ idle clock batch next arrivals rest (r : A2AMessage),
     quiet key start timeout idle →
     clock - start < timeout →
     last_for key batch = Some r →
     payload r ≠ [] →
     next - start < timeout →
     call (idle ++ (clock, batch) :: (next, arrivals) :: rest)
     = Returned (PDict (payload r)))
  ∧ (∀ idle late arrivals rest,
       quiet key start timeout idle →
       timeout <= late - start →
       call (idle ++ (late, arrivals) :: rest)
       = Raised (TimeoutError ("No response received for task " +:+ task_id
                               +:+ " within " +:+ pretty timeout +:+ "s")))
  ∧ (∀ idle, quiet key start timeout idle → call idle = Pending).
Proof.
  intros Hcon task_id key Hnone Hsend call. subst key task_id.
  set (task_id := uuid4 (uuid_count ag)) in *.
  set (key := response_key (PStr task_id)) in *.
  assert (Hstart : ∀ polls, ∃ st,
            call polls = (Agent.wait_for_response task_id start timeout polls st).2
            ∧ AgentMemory.retrieve key (memory st) = None).
  { intros polls. subst call. cbn beta.
    destruct (send_task_to_agent_connected utcnow recipient task_type task_data timeout
                during_send start polls ag Hcon) as (ag1 & -> & Hmem & _).
    eexists. split; [done|]. by rewrite retrieve_deliver, Hsend, Hmem. }
  split_and!.
  - intros idle clock batch next arrivals rest r Hq Hin Hlast Hne Hnext.
    destruct (Hstart (idle ++ (clock, batch) :: (next, arrivals) :: rest))
      as (st & -> & Hst).
    destruct (wait_quiet task_id start timeout idle
                ((clock, batch) :: (next, arrivals) :: rest) st Hq Hst)
      as (st' & -> & Hst').
    rewrite wait_miss; [|done|by rewrite Hst'].
    rewrite (wait_hit _ _ _ _ _ _ _ (PDict (payload r))); [done|done| |].
    + rewrite retrieve_deliver. fold key. by rewrite Hlast.
    + simpl. by destruct (payload r).
  - intros idle late arrivals rest Hq Hlate.
    destruct (Hstart (idle ++ (late, arrivals) :: rest)) as (st & -> & Hst).
    destruct (wait_quiet task_id start timeout idle ((late, arrivals) :: rest) st Hq Hst)
      as (st' & -> & Hst').
    by rewrite wait_timeout.
  - intros idle Hq.
    destruct (Hstart idle) as (st & -> & Hst).
    destruct (wait_quiet task_id start timeout idle [] st Hq Hst) as (st' & Heq & _).
    rewrite app_nil_r in Heq. by rewrite Heq.
Qed.

End Handlers.

(** The calculator of [Sample], its stand-ins filled in. *)
Local Abbreviation sample_handle_task_request :=
  (Agent._handle_task_request Sample.private_key_sign Sample.b64encode Sample.uuid4
     Sample.execute_task Sample.utcnow).
Local Abbreviation sample_send_task recipient :=
  (Agent.send_task_to_agent Sample.private_key_sign Sample.b64encode Sample.uuid4
     Sample.utcnow recipient "uppercase" [("message"%string, PStr "hello")] 30 []).

Lemma admission_pipeline_witness :
  Agent.on_item Sample.private_key_sign Sample.b64encode Sample.uuid4
    Sample.execute_task Sample.parse_raw 0 Sample.utcnow
    (mk_item "message" "unsigned_request") Sample.calc
  = Sample.calc.
Proof.
  pose proof (admission_pipeline Sample.private_key_sign Sample.b64encode Sample.uuid4
                Sample.execute_task Sample.parse_raw 0 Sample.utcnow
                (mk_item "message" "unsigned_request") Sample.unsigned_request
                Sample.calc _ eq_refl eq_refl eq_refl) as H.
  exact (proj2 (proj2 (proj2 H))).
Defined.

Lemma unhashable_task_type_gets_no_response_witness :
  outbox (sample_handle_task_request Sample.list_typed_request Sample.calc)
  = outbox Sample.calc
  ∧ trace (sample_handle_task_request Sample.list_typed_request Sample.calc) = []
  ∧ _tasks (sample_handle_task_request Sample.list_typed_request Sample.calc) = [].
Proof.
  exact (unhashable_task_type_gets_no_response Sample.private_key_sign Sample.b64encode
           Sample.uuid4 Sample.execute_task Sample.utcnow Sample.list_typed_request
           Sample.calc eq_refl).
Defined.


(** C2, the claim as stated fails: the second response for a task replaces
    the first.  The task [uuid-1] is sent to every agent (["*"]); two agents
    answer during the first sleep of the caller, one with the result and
    then one with a failure; the caller gets the payload of the second. *)
Lemma second_response_replaces_first :
  (sample_send_task "*" 0 [(0, [Sample.first_response; Sample.second_response]); (1, [])]
     Sample.calc).2
  = Returned (PDict (payload Sample.second_response))
  ∧ Py.lookup "result" (payload Sample.first_response) = Some (PStr "HELLO")
  ∧ Py.lookup "result" (payload Sample.second_response) = Some PNone.
Proof. split_and!; vm_compute; reflexivity. Qed.

Lemma last_response_wins_witness :
  (∀ st : Agent.t,
     Agent.wait_for_response "uuid-1" 0 30 [(1, [])]
       (deliver [Sample.first_response; Sample.second_response] st)
     = (deliver [Sample.first_response; Sample.second_response] st,
        Returned (PDict (payload Sample.second_response))))
  ∧ (Agent.send_task_to_agent Sample.private_key_sign Sample.b64encode Sample.uuid4
       Sample.utcnow "*" "uppercase" [("message"%string, PStr "hello")] 30
       [Sample.first_response; Sample.second_response] 0 [(1, [])] Sample.calc).2
    = Returned (PDict (payload Sample.second_response)).
Proof.
  apply (last_response_wins Sample.private_key_sign Sample.b64encode Sample.uuid4
           Sample.utcnow "*" "uppercase" [("message"%string, PStr "hello")] 30
           [Sample.first_response; Sample.second_response] 0 1 [] []
           Sample.calc Sample.second_response).
  - reflexivity.
  - reflexivity.
  - discriminate.
  - lia.
Defined.

(** C3, the claim as stated fails: a response with [success = false] is
    returned to the caller like any other; nothing is raised. *)
Lemma failed_response_is_returned :
  (sample_send_task "other-demo" 0 [(0, [Sample.second_response]); (1, [])]
     Sample.calc).2
  = Returned
      (PDict [ ("task_id"%string, PStr "uuid-1");
               ("success"%string, PBool false);
               ("result"%string, PNone);
               ("error"%string, PStr "Capability 'uppercase' not supported") ]).
Proof. vm_compute. reflexivity. Qed.

Lemma send_task_poll_semantics_witness :
  let call polls := (sample_send_task "other-demo" 0 polls Sample.calc).2 in
  call [(0, []); (1, [Sample.second_response]); (2, [])]
  = Returned (PDict (payload Sample.second_response))
  ∧ call [(0, []); (10, []); (20, []); (30, [Sample.second_response]); (31, [])]
    = Raised (TimeoutError "No response received for task uuid-1 within 30s")
  ∧ call [(0, []); (10, [])] = Pending.
Proof.
  intros call.
  destruct (send_task_poll_semantics Sample.private_key_sign Sample.b64encode Sample.uuid4
              Sample.utcnow "other-demo" "uppercase" [("message"%string, PStr "hello")] 30
              [] 0 Sample.calc eq_refl eq_refl eq_refl) as (Hhit & Hlate & Hwait).
  split_and!.
  - apply (Hhit [(0, [])] 1 [Sample.second_response] 2 [] [] Sample.second_response);
      try lia; try reflexivity; try discriminate.
    repeat constructor; simpl; lia.
  - apply (Hlate [(0, []); (10, []); (20, [])] 30 [Sample.second_response] [(31, [])]);
      try lia.
    repeat constructor; simpl; lia.
  - apply (Hwait [(0, []); (10, [])]). repeat constructor; simpl; lia.
Defined.

(** The calculator at work: the inbound loop reads a signed request for
    [add] with the operands 2 and 3, the handler runs the task and publishes
    the response with the result 5 on the channel of the requester; the
    request is counted by the rate limiter.  A request without signature is
    dropped. *)
Example calculator_answers_add :
  let calc' :=
    Agent._listen_for_messages Sample.private_key_sign Sample.b64encode Sample.uuid4
      Sample.execute_task Sample.parse_raw
      [ (5, Sample.utcnow, mk_item "subscribe" "1");
        (6, Sample.utcnow, mk_item "message" "unsigned_request");
        (7, Sample.utcnow, mk_item "message" "add_request") ]
      Sample.calc in
  List.map (λ cm, (cm.1, message_type cm.2, payload cm.2))
    (drop (length (outbox Sample.calc)) (outbox calc'))
  = [ ("agentic:agent:echo-demo"%string, TASK_RESPONSE,
       [ ("task_id"%string, PStr "t-1");
         ("success"%string, PBool true);
         ("result"%string, PDict [("result"%string, PInt 5)]);
         ("error"%string, PNone) ]) ]
  ∧ _tasks calc' = []
  ∧ RateLimiter.requests_of
      (SecurityContext.rate_limiter (security_context calc')) "echo-demo" = [7].
Proof. split_and!; vm_compute; reflexivity. Qed.

End AgentFacts.

(** * Further properties of the code *)

(** ** Rate limiter: the guarantee and the independence of senders *)

Module RateLimiterMore.
Import RateLimiter RateLimiterFacts.

(** X1.  The guarantee of the limiter.  On a limiter created with a quota
    [maxr >= 0], under a clock that does not run backwards: at any time [now]
    not earlier than the last call, the accepted calls of a sender whose
    timestamp is newer than [now - w] are at most [maxr]. *)
Theorem accepted_within_quota maxr w calls now id :
  0 <= maxr →
  clock_ordered calls now →
  Z.of_nat (length (live (now - w) (accepted id calls (run calls (init maxr w)).2)))
  <= maxr.
Proof.
  intros Hm Hord.
  destruct (clock_ordered_lower _ _ Hord) as (T0 & Hlow & HT0).
  pose proof (run_stored_accepted id calls (init maxr w) [] T0 now Hord Hlow HT0) as Hinv.
  simpl in Hinv. rewrite <- Hinv.
  2:{ intros now' _. by rewrite requests_of_init. }
  pose proof (run_bounded calls _ (init_bounded maxr w Hm) id) as Hb.
  destruct (run_params calls (init maxr w)) as [Hpm _]. simpl in Hpm.
  pose proof (live_length (now - w) (requests_of (run calls (init maxr w)).1 id)).
  lia.
Qed.

Lemma accepted_within_quota_witness :
  let calls := [(0, "a"%string); (1, "b"%string); (2, "a"%string); (3, "a"%string)] in
  (run calls (init 2 60)).2 = [true; true; true; false]
  ∧ Z.of_nat (length (live (3 - 60) (accepted "a" calls (run calls (init 2 60)).2))) <= 2.
Proof.
  intros calls. split; [vm_compute; reflexivity|].
  apply (accepted_within_quota 2 60 calls 3 "a"); [lia|].
  simpl. repeat split; try lia; repeat constructor; simpl; lia.
Defined.

Lemma is_allowed_agree now id rl1 rl2 :
  agree id rl1 rl2 →
  (is_allowed now id rl1).2 = (is_allowed now id rl2).2
  ∧ agree id (is_allowed now id rl1).1 (is_allowed now id rl2).1.
Proof.
  intros (Hr & Hm & Hw).
  assert (Hans : (is_allowed now id rl1).2 = (is_allowed now id rl2).2).
  { by rewrite !is_allowed_answer, Hr, Hm, Hw. }
  split; [done|]. unfold agree.
  destruct (is_allowed_params now id rl1) as [-> ->].
  destruct (is_allowed_params now id rl2) as [-> ->].
  rewrite !is_allowed_requests, Hans, Hr, Hw.
  by destruct (decide (id = id)).
Qed.

Lemma is_allowed_other now i id rl :
  i ≠ id → agree id (is_allowed now i rl).1 rl.
Proof.
  intros Hne. unfold agree. destruct (is_allowed_params now i rl) as [-> ->].
  rewrite is_allowed_requests. by destruct (decide (i = id)).
Qed.

Lemma agree_trans id rl1 rl2 rl3 : agree id rl1 rl2 → agree id rl2 rl3 → agree id rl1 rl3.
Proof. intros (? & ? & ?) (? & ? & ?). unfold agree. split_and!; congruence. Qed.

Lemma agree_sym id rl1 rl2 : agree id rl1 rl2 → agree id rl2 rl1.
Proof. intros (? & ? & ?). unfold agree. split_and!; congruence. Qed.

Lemma run_isolated id calls : ∀ rl1 rl2,
  agree id rl1 rl2 →
  answers_for id calls (run calls rl1).2
  = (run (List.filter (λ c, bool_decide (c.2 = id)) calls) rl2).2
  ∧ agree id (run calls rl1).1
      (run (List.filter (λ c, bool_decide (c.2 = id)) calls) rl2).1.
Proof.
  induction calls as [|[t i] calls IH]; intros rl1 rl2 Hag; [done|].
  simpl. destruct (decide (i = id)) as [->|Hne].
  - rewrite bool_decide_eq_true_2 by done. simpl.
    destruct (is_allowed_agree t id rl1 rl2 Hag) as [Hans Hag'].
    destruct (is_allowed t id rl1) as [rl1' b1], (is_allowed t id rl2) as [rl2' b2].
    simpl in *. subst b2. specialize (IH rl1' rl2' Hag').
    destruct (run calls rl1') as [rl1'' bs1], (run _ rl2') as [rl2'' bs2].
    simpl in *. destruct IH as [-> ?]. done.
  - rewrite bool_decide_eq_false_2 by done.
    pose proof (is_allowed_other t i id rl1 Hne) as Hag1.
    destruct (is_allowed t i rl1) as [rl1' b1]. simpl in Hag1.
    specialize (IH rl1' rl2 (agree_trans _ _ _ _ Hag1 Hag)).
    destruct (run calls rl1') as [rl1'' bs1]. simpl in *.
    rewrite ?bool_decide_eq_false_2 by done. done.
Qed.

(** X2.  Senders do not interfere.  The answers a sender gets in any sequence
    of calls are the answers it would get if the calls of the other senders
    had not been made, and so is the list the limiter keeps for it. *)
Theorem senders_are_independent id calls rl :
  let own := List.filter (λ c, bool_decide (c.2 = id)) calls in
  answers_for id calls (run calls rl).2 = (run own rl).2
  ∧ requests_of (run calls rl).1 id = requests_of (run own rl).1 id.
Proof.
  intros own.
  destruct (run_isolated id calls rl rl) as [Hans (Hreq & _)]; [by unfold agree|].
  done.
Qed.

End RateLimiterMore.

(** ** The bus client: handlers, preparation and publication *)

Module ClientMore.
Import Py Message A2AClient.

Lemma handlers_get_set ty h hs ty' :
  handlers_get ty' (handlers_set ty h hs)
  = if decide (ty = ty') then Some h else handlers_get ty' hs.
Proof.
  induction hs as [|[k x] hs IH]; simpl.
  - by destruct (decide (ty = ty')).
  - destruct (decide (k = ty)) as [->|Hk]; simpl.
    + by destruct (decide (ty = ty')).
    + destruct (decide (k = ty')) as [->|]; [|done].
      destruct (decide (ty = ty')); [congruence|done].
Qed.

Lemma handlers_set_keys ty h hs :
  (handlers_set ty h hs).*1 = if decide (ty ∈ hs.*1) then hs.*1 else hs.*1 ++ [ty].
Proof.
  induction hs as [|[k x] hs IH]; csimpl.
  - destruct (decide (ty ∈ [])) as [Hin|]; [by apply elem_of_nil in Hin|done].
  - destruct (decide (k = ty)) as [->|Hk]; csimpl.
    + destruct (decide (ty ∈ ty :: hs.*1)) as [|Hn]; [done|]. destruct Hn. left.
    + rewrite IH. destruct (decide (ty ∈ hs.*1)) as [Hin|Hin].
      * destruct (decide (ty ∈ k :: hs.*1)) as [|Hn]; [done|]. destruct Hn. by right.
      * destruct (decide (ty ∈ k :: hs.*1)) as [Hin'|]; [|done].
        apply elem_of_cons in Hin' as [->|]; done.
Qed.

Lemma handlers_set_NoDup ty h hs : NoDup hs.*1 → NoDup (handlers_set ty h hs).*1.
Proof.
  intros Hnd. rewrite handlers_set_keys. destruct (decide (ty ∈ hs.*1)); [done|].
  apply NoDup_app. split_and!; [done| |apply NoDup_singleton].
  intros x Hx Hx'. apply list_elem_of_singleton in Hx'. by subst.
Qed.

Lemma register_all_spec registrations : ∀ c ty,
  NoDup (handlers c).*1 →
  handlers_get ty (handlers (register_all registrations c))
  = match last_registered ty registrations with
    | Some h => Some h
    | None => handlers_get ty (handlers c)
    end
  ∧ NoDup (handlers (register_all registrations c)).*1
  ∧ redis_client (register_all registrations c) = redis_client c
  ∧ pubsub (register_all registrations c) = pubsub c
  ∧ _running (register_all registrations c) = _running c.
Proof.
  induction registrations as [|[k h] regs IH]; intros c ty Hnd; [done|].
  unfold register_all in *. simpl.
  destruct (IH (register_handler k h c) ty) as (Hget & Hnd' & Hr & Hp & Hrun).
  { simpl. by apply handlers_set_NoDup. }
  rewrite Hget. split_and!; try done.
  destruct (last_registered ty regs); [done|].
  simpl. rewrite handlers_get_set. by destruct (decide (k = ty)).
Qed.

(** X3.  One handler per type, the last registration wins.  After any
    sequence of [register_handler] calls on a new client, the handler found
    for a type is the one of the last registration for that type (none when
    there was none), no type is listed twice, and registering touches
    neither the connection nor the running flag. *)
Theorem last_registration_wins agent_id registrations ty :
  let c := register_all registrations (init agent_id) in
  handlers_get ty (handlers c) = last_registered ty registrations
  ∧ NoDup (handlers c).*1
  ∧ redis_client c = None ∧ pubsub c = None ∧ _running c = false.
Proof.
  intros c. destruct (register_all_spec registrations (init agent_id) ty)
    as (Hget & Hnd & Hr & Hp & Hrun); [constructor|].
  subst c. rewrite Hget. split_and!; try done.
  by destruct (last_registered ty registrations).
Qed.

Section Publication.

Variable private_key_sign : string → string.
Variable b64encode : string → string.

Local Abbreviation _prepare_message := (_prepare_message private_key_sign b64encode).
Local Abbreviation send_message := (send_message private_key_sign b64encode).
Local Abbreviation broadcast_message := (broadcast_message private_key_sign b64encode).
Local Abbreviation sign_message :=
  (SecurityContext.sign_message private_key_sign b64encode).

Lemma signed_bytes_set_signature s (m : A2AMessage) :
  SecurityContext.signed_bytes (set_signature s m) = SecurityContext.signed_bytes m.
Proof. done. Qed.

(** X4.  What [_prepare_message] sends.  A sender or a timestamp that is
    present is kept, an empty one is filled in with the client's identifier
    or the current time; the other fields are untouched; and the signature
    attached, which replaces any signature the message had, is the signature
    of the message as it is sent, with the filled-in sender and timestamp. *)
Theorem prepared_message_is_signed_as_sent utcnow (message : A2AMessage) (c : t) :
  let sent := _prepare_message utcnow message c in
  sender_id sent
  = (if String.eqb (sender_id message) "" then agent_id c else sender_id message)
  ∧ timestamp sent
    = (if String.eqb (timestamp message) "" then utcnow else timestamp message)
  ∧ message_id sent = message_id message
  ∧ recipient_id sent = recipient_id message
  ∧ message_type sent = message_type message
  ∧ payload sent = payload message
  ∧ requires_response sent = requires_response message
  ∧ signature sent = Some (sign_message sent).
Proof.
  intros sent. subst sent. unfold A2AClient._prepare_message.
  destruct (String.eqb (sender_id message) "") eqn:Hs; cbn [sender_id timestamp set_sender_id];
    destruct (String.eqb (timestamp message) "") eqn:Ht; cbn; rewrite ?Hs, ?Ht;
    split_and!; try done.
Qed.

(** X5.  [send_message] publishes all or nothing.  When it returns, the
    outbox has grown by exactly the prepared message, on the channel of its
    recipient, and nothing else of the client has changed; when it raises,
    the client is exactly as before: [RuntimeError] when there is no
    connection object, otherwise the error of a server that does not
    answer. *)
Theorem send_message_all_or_nothing utcnow (message : A2AMessage) (c : t) :
  let c' := (send_message utcnow message c).1 in
  match (send_message utcnow message c).2 with
  | Ok _ =>
      outbox c'
      = outbox c ++ [(channel_for (recipient_id message),
                      _prepare_message utcnow message c)]
      ∧ agent_id c' = agent_id c ∧ pubsub c' = pubsub c
      ∧ handlers c' = handlers c ∧ _running c' = _running c
      ∧ is_connected c' = is_connected c
  | Raise e =>
      c' = c
      ∧ match redis_client c with
        | None => e = RuntimeError "A2A client not initialized"
        | Some redis => reachable redis = false
        end
  end.
Proof.
  intros c'. subst c'. unfold A2AClient.send_message, outbox, is_connected.
  destruct (redis_client c) as [redis|] eqn:Hr; [|by rewrite ?Hr].
  rewrite ClientFacts._prepare_message_recipient.
  destruct (reachable redis) eqn:Hup; cbn; rewrite ?Hr; done.
Qed.

(** X6.  A broadcast goes to the broadcast channel, whatever recipient the
    message named: a connected client publishes it on ["agentic:broadcast"]
    with the recipient ["*"], its identifier, type and payload unchanged. *)
Theorem broadcast_goes_to_broadcast_channel utcnow (message : A2AMessage) (c : t) redis :
  redis_client c = Some redis →
  reachable redis = true →
  ∃ sent,
    broadcast_message utcnow message c
    = (set_redis_client
         (Some (mk_redis true (published redis ++ [("agentic:broadcast"%string, sent)]))) c,
       Ok tt)
    ∧ recipient_id sent = "*"%string
    ∧ message_id sent = message_id message
    ∧ message_type sent = message_type message
    ∧ payload sent = payload message.
Proof.
  intros Hr Hup. unfold A2AClient.broadcast_message.
  rewrite (ClientFacts.send_message_publishes _ _ _ _ _ _ Hr Hup).
  eexists. split; [done|].
  destruct (AgentFacts._prepare_message_fields private_key_sign b64encode utcnow
              (set_recipient_id "*" message) c) as (Hty & Hpl & Hrc & Hid).
  by rewrite Hid, Hrc, Hty, Hpl.
Qed.

End Publication.

Lemma broadcast_goes_to_broadcast_channel_witness :
  let c := (initialize true (init "echo-demo")).1 in
  ∃ sent,
    broadcast_message Sample.private_key_sign Sample.b64encode Sample.utcnow
      Sample.add_request c
    = (set_redis_client
         (Some (mk_redis true [("agentic:broadcast"%string, sent)])) c, Ok tt)
    ∧ recipient_id sent = "*"%string
    ∧ message_id sent = "m-1"%string
    ∧ message_type sent = TASK_REQUEST
    ∧ payload sent = payload Sample.add_request.
Proof.
  intros c.
  exact (broadcast_goes_to_broadcast_channel Sample.private_key_sign Sample.b64encode
           Sample.utcnow Sample.add_request c (mk_redis true []) eq_refl eq_refl).
Defined.

End ClientMore.

(** ** The agent: start-up, dispatch, replies and the inbound loop *)

Module AgentMore.
Import Py Message Agent.

#[local] Arguments A2AClient._prepare_message : simpl never.
#[local] Arguments A2AClient.channel_for : simpl never.

Section Behaviour.

Variable private_key_sign : string → string.
Variable b64encode : string → string.
Variable uuid4 : nat → string.
Variable execute_task :
  Py.value → Py.value → A2AMessage → AgentMemory.t → AgentMemory.t * result Py.value.
Variable parse_raw : string → option A2AMessage.

Local Abbreviation initialize := (Agent.initialize private_key_sign b64encode uuid4).
Local Abbreviation _send_task_response :=
  (Agent._send_task_response private_key_sign b64encode uuid4).
Local Abbreviation _handle_task_request :=
  (Agent._handle_task_request private_key_sign b64encode uuid4 execute_task).
Local Abbreviation _handle_capability_query :=
  (Agent._handle_capability_query private_key_sign b64encode uuid4).
Local Abbreviation _handle_message :=
  (Agent._handle_message private_key_sign b64encode uuid4 execute_task).
Local Abbreviation on_item :=
  (Agent.on_item private_key_sign b64encode uuid4 execute_task parse_raw).
Local Abbreviation _listen_for_messages :=
  (Agent._listen_for_messages private_key_sign b64encode uuid4 execute_task parse_raw).
Local Abbreviation send_task_to_agent :=
  (Agent.send_task_to_agent private_key_sign b64encode uuid4).
Local Abbreviation answer_id := (Agent.answer_id uuid4).

(** *** What handling a message leaves alone *)

Lemma client_frame_refl (ag : Agent.t) : client_frame ag ag.
Proof. unfold client_frame. by destruct (a2a_client ag). Qed.

Lemma client_frame_trans (ag1 ag2 ag3 : Agent.t) :
  client_frame ag1 ag2 → client_frame ag2 ag3 → client_frame ag1 ag3.
Proof.
  unfold client_frame.
  destruct (a2a_client ag1), (a2a_client ag2), (a2a_client ag3); try done.
  intros (-> & -> & -> & ->) (-> & -> & -> & ->). done.
Qed.

Lemma client_frame_same_client (ag ag' : Agent.t) :
  a2a_client ag' = a2a_client ag → client_frame ag ag'.
Proof. intros H. unfold client_frame. rewrite H. by destruct (a2a_client ag). Qed.

Lemma client_send_frame utcnow (message : A2AMessage) (ag : Agent.t) :
  client_frame ag (Agent.client_send private_key_sign b64encode utcnow message ag).1.
Proof.
  unfold Agent.client_send, client_frame.
  destruct (a2a_client ag) as [c|] eqn:Hc; cbn; rewrite ?Hc; [|done].
  unfold A2AClient.send_message.
  destruct (A2AClient.redis_client c) as [redis|]; cbn; [|done].
  destruct (A2AClient.reachable redis); cbn; done.
Qed.

Lemma _send_task_response_frame utcnow recipient task_id success res err (ag : Agent.t) :
  client_frame ag (_send_task_response utcnow recipient task_id success res err ag).1.
Proof.
  unfold Agent._send_task_response.
  destruct (a2a_client ag) as [c|] eqn:Hc; [|apply client_frame_refl].
  unfold next_uuid.
  eapply client_frame_trans; [|apply client_send_frame].
  by apply client_frame_same_client.
Qed.

Lemma _handle_task_request_frame utcnow (message : A2AMessage) (ag : Agent.t) :
  client_frame ag (_handle_task_request utcnow message ag).
Proof.
  unfold Agent._handle_task_request, next_uuid.
  set (ag0 := set_uuid_count (S (uuid_count ag)) ag).
  assert (H0 : client_frame ag ag0) by by apply client_frame_same_client.
  destruct (in_capabilities _ _) as [[|]|e]; [| |done].
  - destruct (tasks_add _ _) as [tasks|e]; [|done].
    destruct (execute_task _ _ message _) as [mem1 executed].
    set (ag1 := set_memory mem1 (record_event _ (set_tasks tasks ag0))).
    assert (H1 : client_frame ag ag1) by by apply client_frame_same_client.
    eapply client_frame_trans; [|by apply client_frame_same_client].
    destruct executed as [res|e].
    + match goal with |- context [Agent._send_task_response _ _ _ ?u ?r ?t ?s ?x ?y ?a] =>
        pose proof (_send_task_response_frame u r t s x y a) as H2;
        destruct (Agent._send_task_response private_key_sign b64encode uuid4 u r t s x y a)
          as [ag2 [[]|e]] end; cbn [fst snd] in *.
      * exact (client_frame_trans _ _ _ H1 H2).
      * exact (client_frame_trans _ _ _ (client_frame_trans _ _ _ H1 H2)
                 (_send_task_response_frame _ _ _ _ _ _ _)).
    + exact (client_frame_trans _ _ _ H1 (_send_task_response_frame _ _ _ _ _ _ _)).
  - exact (client_frame_trans _ _ _ H0 (_send_task_response_frame _ _ _ _ _ _ _)).
Qed.

Lemma _handle_message_frame utcnow (message : A2AMessage) (ag : Agent.t) :
  client_frame ag (_handle_message utcnow message ag).
Proof.
  unfold Agent._handle_message.
  destruct (a2a_client ag) as [c|] eqn:Hc; [|apply client_frame_refl].
  destruct (A2AClient.handlers_get _ _) as [[| |]|]; [| | |apply client_frame_refl].
  - cbn [call_handler fst].
    eapply client_frame_trans; [|apply _handle_task_request_frame].
    by apply client_frame_same_client.
  - by apply client_frame_same_client.
  - cbn [call_handler]. unfold Agent._handle_capability_query, next_uuid.
    eapply client_frame_trans; [|apply client_send_frame].
    by apply client_frame_same_client.
Qed.

Lemma on_item_frame now utcnow item (ag : Agent.t) :
  client_frame ag (on_item now utcnow item ag).
Proof.
  unfold Agent.on_item.
  destruct (a2a_client ag) as [c|] eqn:Hc; [|apply client_frame_refl].
  destruct (negb _); [apply client_frame_refl|].
  destruct (parse_raw _) as [m|]; [|apply client_frame_refl].
  destruct (String.eqb _ _); [apply client_frame_refl|].
  destruct (A2AClient._validate_message _ _ _) as [sc valid].
  destruct valid; cbn [negb].
  - eapply client_frame_trans; [|apply _handle_message_frame].
    by apply client_frame_same_client.
  - by apply client_frame_same_client.
Qed.

(** X7.  Start-up.  When Redis answers, [initialize] returns with the agent
    running and connected to a new client that is subscribed to the agent's
    two channels and has handlers for task requests, task responses and
    capability queries and for no other type; exactly one message has been
    published: the capability announcement, on the broadcast channel, in the
    agent's name, listing its capabilities.  When Redis does not answer,
    [initialize] raises, nothing is published, no handler is registered and
    the agent is not running. *)
Theorem initialize_outcome utcnow (server_up : bool) (ag : Agent.t) :
  let ag' := (initialize utcnow server_up ag).1 in
  if server_up
  then
    (initialize utcnow server_up ag).2 = Ok tt
    ∧ Agent._running ag' = true ∧ connected ag' = true
    ∧ (∃ c, a2a_client ag' = Some c
          ∧ A2AClient.agent_id c = agent_id ag
          ∧ A2AClient._running c = true
          ∧ A2AClient.pubsub c
            = Some ["agentic:agent:" +:+ agent_id ag; "agentic:broadcast"%string]
          ∧ ∀ ty, A2AClient.handlers_get ty (A2AClient.handlers c)
                  = registered_handler ty)
    ∧ (∃ m, outbox ag' = [("agentic:broadcast"%string, m)]
          ∧ message_type m = CAPABILITY_ANNOUNCEMENT
          ∧ message_id m = uuid4 (uuid_count ag)
          ∧ sender_id m = agent_id ag
          ∧ recipient_id m = "*"%string
          ∧ payload m = announcement_payload ag)
    ∧ uuid_count ag' = S (uuid_count ag)
    ∧ memory ag' = memory ag ∧ _tasks ag' = _tasks ag ∧ trace ag' = trace ag
  else
    (∃ e, (initialize utcnow server_up ag).2 = Raise e)
    ∧ Agent._running ag' = Agent._running ag
    ∧ connected ag' = false ∧ outbox ag' = []
    ∧ (∃ c, a2a_client ag' = Some c ∧ A2AClient.handlers c = []
          ∧ A2AClient._running c = false ∧ A2AClient.pubsub c = None)
    ∧ uuid_count ag' = uuid_count ag.
Proof.
  intros ag'. subst ag'. destruct server_up.
  - unfold Agent.initialize, Agent._register_message_handlers,
      Agent._announce_capabilities, Agent.next_uuid, A2AClient.broadcast_message,
      A2AClient.send_message.
    cbn -[A2AClient._prepare_message A2AClient.channel_for].
    match goal with |- context [A2AClient._prepare_message _ _ ?u ?m ?c] =>
      destruct (AgentFacts._prepare_message_fields private_key_sign b64encode u m c)
        as (Hty & Hpl & Hrc & Hid);
      set (sent := A2AClient._prepare_message private_key_sign b64encode u m c) in *
    end.
    cbn in Hty, Hpl, Hrc, Hid.
    assert (Hs : sender_id sent = agent_id ag).
    { subst sent. unfold A2AClient._prepare_message. cbn.
      repeat (match goal with |- context [String.eqb ?a ?b] =>
                destruct (String.eqb a b) eqn:? end; cbn); done. }
    split_and!; try done.
    + eexists. split_and!; try done. by intros [].
    + exists sent. split_and!; try done.
      unfold outbox. cbn. by rewrite Hrc.
  - cbn. split_and!; try done; by eexists.
Qed.

(** The client a successful start-up creates. *)
Lemma initialize_client utcnow (ag : Agent.t) :
  ∃ c, a2a_client (initialize utcnow true ag).1 = Some c
       ∧ A2AClient.agent_id c = agent_id ag
       ∧ ∀ ty, A2AClient.handlers_get ty (A2AClient.handlers c) = registered_handler ty.
Proof.
  unfold Agent.initialize, Agent._register_message_handlers,
    Agent._announce_capabilities, Agent.next_uuid, A2AClient.broadcast_message,
    A2AClient.send_message.
  cbn -[A2AClient._prepare_message A2AClient.channel_for].
  eexists. split_and!; try done. by intros [].
Qed.

(** X8.  Messages of a type without handler are dropped.  An agent started by
    [initialize] has no handler for capability announcements, capability
    responses, status updates and errors: when such a message arrives,
    whoever sent it, nothing is published, executed or stored, and the
    agent keeps no record of the sender's capabilities; at most the rate
    limiter has counted the message. *)
Theorem unhandled_types_are_dropped utcnow0 (ag0 : Agent.t) now utcnow item
    (message : A2AMessage) :
  let ag := (initialize utcnow0 true ag0).1 in
  item_type item = "message"%string →
  parse_raw (item_data item) = Some message →
  registered_handler (message_type message) = None →
  let ag' := on_item now utcnow item ag in
  outbox ag' = outbox ag ∧ trace ag' = trace ag ∧ memory ag' = memory ag
  ∧ _tasks ag' = _tasks ag ∧ capabilities ag' = capabilities ag
  ∧ uuid_count ag' = uuid_count ag.
Proof.
  intros ag Hty Hparse Hnone ag'. subst ag'.
  destruct (initialize_client utcnow0 ag0) as (c & Hc & _ & Hh). fold ag in Hc.
  unfold Agent.on_item. rewrite Hc, Hty, Hparse.
  change (negb (String.eqb "message" "message")) with false. cbv iota.
  destruct (String.eqb _ _); [done|].
  destruct (A2AClient._validate_message _ _ _) as [sc valid].
  destruct valid; cbn [negb]; [|done].
  unfold Agent._handle_message. cbn [a2a_client set_security_context].
  by rewrite Hc, Hh, Hnone.
Qed.

Lemma eqb_refl_hashable (v : Py.value) : Py.hashable v = true → Py.eqb v v = true.
Proof.
  destruct v as [|b|n|s|l|d]; try done; simpl; intros _.
  - by destruct b.
  - apply Z.eqb_refl.
  - apply String.eqb_refl.
Qed.

(** Adding a task identifier and discarding it again leaves the set as it is
    after discarding it. *)
Lemma tasks_add_discard (task_id : Py.value) tasks :
  Py.hashable task_id = true →
  ∃ tasks', tasks_add task_id tasks = Ok tasks'
            ∧ tasks_discard task_id tasks' = tasks_discard task_id tasks.
Proof.
  intros Hh. unfold tasks_add. rewrite Hh. eexists. split; [done|].
  destruct (existsb _ tasks); [done|].
  unfold tasks_discard. rewrite List.filter_app. simpl.
  rewrite (eqb_refl_hashable _ Hh). simpl. by rewrite app_nil_r.
Qed.

Lemma tasks_discard_absent (task_id : Py.value) tasks :
  existsb (Py.eqb task_id) (tasks_discard task_id tasks) = false.
Proof.
  unfold tasks_discard. induction tasks as [|x tasks IH]; [done|].
  simpl. destruct (Py.eqb task_id x) eqn:E; simpl; [done|]. by rewrite E.
Qed.

(** The path of [_handle_task_request] for a task type of the registry. *)
Lemma _handle_task_request_supported utcnow (message : A2AMessage)
    (ag : Agent.t) :
  let task_type := Py.get (payload message) "task_type" PNone in
  let task_data := Py.get (payload message) "data" (PDict []) in
  let task_id := answer_id message ag in
  let executed := execute_task task_type task_data message (memory ag) in
  connected ag = true →
  in_capabilities task_type (capabilities ag) = Ok true →
  Py.hashable task_id = true →
  let ag' := _handle_task_request utcnow message ag in
  trace ag' = trace ag ++ [Executed task_type task_data message]
  ∧ _tasks ag' = tasks_discard task_id (_tasks ag)
  ∧ existsb (Py.eqb task_id) (_tasks ag') = false
  ∧ memory ag' = executed.1
  ∧ ∃ m, outbox ag' = outbox ag ++ [(A2AClient.channel_for (sender_id message), m)]
      ∧ message_type m = TASK_RESPONSE
      ∧ payload m
        = match executed.2 with
          | Ok res =>
              [ ("task_id"%string, task_id); ("success"%string, PBool true);
                ("result"%string, res); ("error"%string, PNone) ]
          | Raise e =>
              [ ("task_id"%string, task_id); ("success"%string, PBool false);
                ("result"%string, PNone); ("error"%string, PStr (exn_str e)) ]
          end.
Proof.
  intros task_type task_data task_id executed Hcon Hcap Hh ag'. subst ag' executed.
  unfold Agent._handle_task_request, next_uuid.
  set (ag0 := set_uuid_count (S (uuid_count ag)) ag).
  change (capabilities ag0) with (capabilities ag).
  fold task_type task_data. change (Py.get (payload message) "task_id" _) with task_id.
  rewrite Hcap.
  destruct (tasks_add_discard task_id (_tasks ag) Hh) as (tasks' & Hadd & Hdis).
  change (_tasks ag0) with (_tasks ag). rewrite Hadd.
  cbn [memory record_event set_tasks set_uuid_count ag0].
  destruct (execute_task task_type task_data message (memory ag)) as [mem1 executed].
  set (ag1 := set_memory mem1 (record_event _ (set_tasks tasks' ag0))).
  assert (Hcon1 : connected ag1 = true) by done.
  cbn [fst snd]. destruct executed as [res|e].
  - pose proof (AgentFacts._send_task_response_spec private_key_sign b64encode uuid4
                  utcnow (sender_id message) task_id true res PNone ag1)
      as (Hsame & new & Hout & _ & Hnew).
    destruct (Hnew Hcon1) as (Hok & m & -> & Hty & Hpl). clear Hnew.
    destruct (_send_task_response _ _ _ _ _ _ ag1) as [ag2 r]. cbn [fst snd] in *.
    subst r. cbn [fst snd].
    destruct Hsame as (_ & _ & Hmem & _ & Htasks & Htrace & _).
    cbn [_tasks trace memory set_tasks]. rewrite Htasks, Htrace, Hmem.
    change (_tasks ag1) with tasks'. rewrite Hdis.
    split_and!; try done.
    + apply tasks_discard_absent.
    + by exists m.
  - pose proof (AgentFacts._send_task_response_spec private_key_sign b64encode uuid4
                  utcnow (sender_id message) task_id false PNone (PStr (exn_str e)) ag1)
      as (Hsame & new & Hout & _ & Hnew).
    destruct (Hnew Hcon1) as (Hok & m & -> & Hty & Hpl). clear Hnew.
    cbn [fst snd].
    destruct (_send_task_response _ _ _ _ _ _ ag1) as [ag2 r]. cbn [fst snd] in *.
    destruct Hsame as (_ & _ & Hmem & _ & Htasks & Htrace & _).
    cbn [_tasks trace memory set_tasks]. rewrite Htasks, Htrace, Hmem.
    change (_tasks ag1) with tasks'. rewrite Hdis.
    split_and!; try done.
    + apply tasks_discard_absent.
    + by exists m.
Qed.

(** X9.  A supported task is executed once and answered once.  For a request
    whose task type is a key of the registry, on a connected agent (the task
    identifier being hashable): [execute_task] is called exactly once, with
    the type and the data of the request and on the memory as it was; the
    memory the handler leaves is the memory [execute_task] left, whether it
    returned or raised; one response goes to the sender's channel, with
    [success = true] and the result when [execute_task] returns, with
    [success = false] and the text of the exception when it raises; and when
    the handler ends the task identifier is not in [_tasks], whatever
    happened. *)
Theorem supported_task_is_executed_and_answered utcnow (message : A2AMessage)
    (ag : Agent.t) :
  let task_type := Py.get (payload message) "task_type" PNone in
  let task_data := Py.get (payload message) "data" (PDict []) in
  let task_id := answer_id message ag in
  let executed := execute_task task_type task_data message (memory ag) in
  connected ag = true →
  in_capabilities task_type (capabilities ag) = Ok true →
  Py.hashable task_id = true →
  let ag' := _handle_task_request utcnow message ag in
  trace ag' = trace ag ++ [Executed task_type task_data message]
  ∧ _tasks ag' = tasks_discard task_id (_tasks ag)
  ∧ existsb (Py.eqb task_id) (_tasks ag') = false
  ∧ memory ag' = executed.1
  ∧ ∃ m, outbox ag' = outbox ag ++ [(A2AClient.channel_for (sender_id message), m)]
      ∧ message_type m = TASK_RESPONSE
      ∧ payload m
        = match executed.2 with
          | Ok res =>
              [ ("task_id"%string, task_id); ("success"%string, PBool true);
                ("result"%string, res); ("error"%string, PNone) ]
          | Raise e =>
              [ ("task_id"%string, task_id); ("success"%string, PBool false);
                ("result"%string, PNone); ("error"%string, PStr (exn_str e)) ]
          end.
Proof. exact (_handle_task_request_supported utcnow message ag). Qed.

(** X10.  A capability query is answered with the registry.  A connected
    agent answers a query with one capability response on the channel of the
    sender, listing its capabilities in the order of the registry, the same
    list its announcement carries; nothing else of the agent changes. *)
Theorem capability_query_is_answered utcnow (message : A2AMessage) (ag : Agent.t) :
  connected ag = true →
  let ag' := (_handle_capability_query utcnow message ag).1 in
  (_handle_capability_query utcnow message ag).2 = Ok tt
  ∧ (∃ m, outbox ag' = outbox ag ++ [(A2AClient.channel_for (sender_id message), m)]
        ∧ message_type m = CAPABILITY_RESPONSE
        ∧ payload m
          = [ ("capabilities"%string,
               PList (List.map (λ kc, AgentCapability.dict kc.2) (capabilities ag))) ]
        ∧ Py.lookup "capabilities" (payload m)
          = Py.lookup "capabilities" (announcement_payload ag))
  ∧ trace ag' = trace ag ∧ memory ag' = memory ag ∧ _tasks ag' = _tasks ag.
Proof.
  intros Hcon ag'. subst ag'.
  destruct (AgentFacts.connected_inv _ Hcon) as (c & redis & Hc & Hr & Hup).
  unfold Agent._handle_capability_query, next_uuid.
  match goal with |- context [Agent.client_send _ _ ?u ?m ?a] =>
    pose proof (AgentFacts.client_send_spec private_key_sign b64encode u m a c Hc) as H;
    cbn zeta in H;
    change (connected a) with (connected ag) in H;
    change (outbox a) with (outbox ag) in H;
    destruct (AgentFacts._prepare_message_fields private_key_sign b64encode u m c)
      as (Hty & Hpl & _);
    destruct (Agent.client_send private_key_sign b64encode u m a) as [ag1 r]
  end.
  cbn [fst snd] in *. rewrite Hcon in H.
  destruct H as (_ & _ & _ & Hmem & _ & Htasks & Htrace & _ & c' & _ & -> & Hout).
  split_and!; try done.
  eexists. split; [exact Hout|]. rewrite Hty, Hpl. done.
Qed.

(** X11.  The inbound loop handles the items in order and no message stops
    it.  While the client is subscribed and running, handling any item
    leaves the client's identifier, subscription, handlers and running flag
    as they are, so that the loop over two batches of items is the loop over
    the second after the loop over the first; and a client that is not
    running handles nothing. *)
Theorem listen_handles_items_in_order items1 items2 (ag : Agent.t) c channels :
  a2a_client ag = Some c →
  A2AClient.pubsub c = Some channels →
  A2AClient._running c = true →
  _listen_for_messages (items1 ++ items2) ag
  = _listen_for_messages items2 (_listen_for_messages items1 ag)
  ∧ client_frame ag (_listen_for_messages items1 ag)
  ∧ ∀ (st : Agent.t) c',
      a2a_client st = Some c' → A2AClient._running c' = false →
      _listen_for_messages items1 st = st.
Proof.
  intros Hc Hp Hr. split_and!.
  - revert ag c Hc Hp Hr.
    induction items1 as [|[[now utcnow] item] items1 IH]; intros ag c Hc Hp Hr.
    + simpl. rewrite Hc, Hp. by destruct items2.
    + simpl. rewrite Hc, Hp, Hr. cbn [negb].
      pose proof (on_item_frame now utcnow item ag) as Hf.
      unfold client_frame in Hf. rewrite Hc in Hf.
      destruct (a2a_client (on_item now utcnow item ag)) as [c1|] eqn:Hc1; [|done].
      destruct Hf as (_ & Hp1 & _ & Hr1).
      apply (IH _ c1 Hc1); congruence.
  - revert ag c Hc Hp Hr.
    induction items1 as [|[[now utcnow] item] items1 IH]; intros ag c Hc Hp Hr.
    + simpl. rewrite Hc, Hp. apply client_frame_refl.
    + simpl. rewrite Hc, Hp, Hr. cbn [negb].
      pose proof (on_item_frame now utcnow item ag) as Hf.
      assert (Hf' := Hf). unfold client_frame in Hf'. rewrite Hc in Hf'.
      destruct (a2a_client (on_item now utcnow item ag)) as [c1|] eqn:Hc1; [|done].
      destruct Hf' as (_ & Hp1 & _ & Hr1).
      eapply client_frame_trans; [exact Hf|].
      apply (IH _ c1 Hc1); congruence.
  - intros st c' Hc' Hr'. destruct items1 as [|[[now utcnow] item] items1]; simpl;
      rewrite Hc'; destruct (A2AClient.pubsub c'); try done. by rewrite Hr'.
Qed.

Lemma client_send_uuid_count utcnow (message : A2AMessage) (ag : Agent.t) :
  uuid_count (Agent.client_send private_key_sign b64encode utcnow message ag).1
  = uuid_count ag.
Proof.
  unfold Agent.client_send. destruct (a2a_client ag) as [c|]; [|done].
  by destruct (A2AClient.send_message _ _ _ _ _).
Qed.

(** Waiting touches nothing but the memory. *)
Lemma wait_frame task_id start timeout polls : ∀ st : Agent.t,
  a2a_client (Agent.wait_for_response task_id start timeout polls st).1 = a2a_client st
  ∧ trace (Agent.wait_for_response task_id start timeout polls st).1 = trace st
  ∧ _tasks (Agent.wait_for_response task_id start timeout polls st).1 = _tasks st.
Proof.
  induction polls as [|[clock arrivals] polls IH]; intros st; [done|].
  simpl. case_bool_decide; [|done].
  destruct (AgentFacts.deliver_frame arrivals st) as (Hc & Ht & Hk & _).
  destruct (AgentMemory.retrieve _ _) as [v|]; [destruct (Py.truthy v); [done|]|];
    destruct (IH (deliver arrivals st)) as (-> & -> & ->); done.
Qed.

(** X12.  How the wait of [send_task_to_agent] can end.  Whatever the
    schedule: a value is returned only if it is stored under the key of the
    task and is not empty; the only exception of the wait is [TimeoutError],
    raised at a turn whose elapsed time is not below the timeout; and the
    call is still waiting at the end of the schedule only if every turn was
    within the deadline.  So the call ends at the latest at the first turn
    at or past the deadline, and never ends by itself before. *)
Theorem wait_outcome task_id start timeout polls (st : Agent.t) :
  let st' := (Agent.wait_for_response task_id start timeout polls st).1 in
  match (Agent.wait_for_response task_id start timeout polls st).2 with
  | Returned response =>
      AgentMemory.retrieve (response_key (PStr task_id)) (memory st') = Some response
      ∧ Py.truthy response = true
  | Raised e =>
      e = TimeoutError ("No response received for task " +:+ task_id
                        +:+ " within " +:+ pretty timeout +:+ "s")
      ∧ Exists (λ turn, timeout <= turn.1 - start) polls
  | Pending => Forall (λ turn, turn.1 - start < timeout) polls
  end.
Proof.
  revert st. induction polls as [|[clock arrivals] polls IH]; intros st; [by constructor|].
  simpl. case_bool_decide as Hin.
  - assert (Hstep : ∀ st1 : Agent.t,
      match (Agent.wait_for_response task_id start timeout polls st1).2 with
      | Returned response =>
          AgentMemory.retrieve (response_key (PStr task_id))
            (memory (Agent.wait_for_response task_id start timeout polls st1).1)
          = Some response ∧ Py.truthy response = true
      | Raised e =>
          e = TimeoutError ("No response received for task " +:+ task_id
                            +:+ " within " +:+ pretty timeout +:+ "s")
          ∧ Exists (λ turn, timeout <= turn.1 - start) ((clock, arrivals) :: polls)
      | Pending => Forall (λ turn, turn.1 - start < timeout) ((clock, arrivals) :: polls)
      end).
    { intros st1. specialize (IH st1). cbn zeta in IH.
      destruct (Agent.wait_for_response task_id start timeout polls st1) as [st2 [v|e|]];
        cbn [fst snd] in *; [done| |by constructor].
      destruct IH as [-> ?]. split; [done|]. by apply Exists_cons_tl. }
    destruct (AgentMemory.retrieve _ (memory st)) as [v|] eqn:Hget; [|apply Hstep].
    destruct (Py.truthy v) eqn:Ht; [done|apply Hstep].
  - cbn. split; [done|]. apply Exists_cons_hd. simpl. lia.
Qed.

(** A connected agent publishes the request and starts to wait; the request
    does not depend on what happens afterwards. *)
Lemma send_task_request utcnow recipient task_type task_data timeout start (ag : Agent.t) :
  connected ag = true →
  ∃ ag1 m,
    (∀ during_send polls,
       send_task_to_agent utcnow recipient task_type task_data timeout during_send
         start polls ag
       = Agent.wait_for_response (uuid4 (uuid_count ag)) start timeout polls
           (deliver during_send ag1))
    ∧ memory ag1 = memory ag
    ∧ outbox ag1 = outbox ag ++ [(A2AClient.channel_for recipient, m)]
    ∧ message_type m = TASK_REQUEST
    ∧ requires_response m = true
    ∧ payload m = [ ("task_id"%string, PStr (uuid4 (uuid_count ag)));
                    ("task_type"%string, PStr task_type);
                    ("data"%string, PDict task_data) ].
Proof.
  intros Hcon. destruct (AgentFacts.connected_inv _ Hcon) as (c & redis & Hc & Hr & Hup).
  unfold Agent.send_task_to_agent. rewrite Hc. unfold next_uuid.
  cbn [uuid_count set_uuid_count].
  match goal with |- context [Agent.client_send _ _ ?u ?m ?a] =>
    pose proof (AgentFacts.client_send_spec private_key_sign b64encode u m a c Hc) as H;
    cbn zeta in H;
    change (connected a) with (connected ag) in H;
    change (outbox a) with (outbox ag) in H;
    change (memory a) with (memory ag) in H;
    destruct (AgentFacts._prepare_message_fields private_key_sign b64encode u m c)
      as (Hty & Hpl & _);
    assert (Hrr : requires_response (A2AClient._prepare_message private_key_sign
                                       b64encode u m c) = true)
      by (unfold A2AClient._prepare_message; cbn;
          repeat (match goal with |- context [String.eqb ?a ?b] =>
                    destruct (String.eqb a b) end; cbn); done);
    destruct (Agent.client_send private_key_sign b64encode u m a) as [ag1 r] eqn:E
  end.
  cbn [fst snd] in *. rewrite Hcon in H.
  destruct H as (_ & _ & _ & Hmem & _ & _ & _ & _ & c' & _ & -> & Hout).
  exists ag1. eexists. split_and!; [done|done|exact Hout|..]; try done.
Qed.

(** X13.  When [send_task_to_agent] fails without waiting.  Without a client
    it raises [RuntimeError] and the agent is unchanged, no identifier is
    drawn.  With a client that cannot publish it raises, after drawing the two
    identifiers, and publishes and stores nothing.  On a connected agent with
    a timeout that is not positive it publishes the request and raises
    [TimeoutError] at the first turn without looking for a response, even
    when one was delivered while the request was published. *)
Theorem send_task_fails_fast utcnow recipient task_type task_data timeout during_send
    start clock arrivals rest (ag : Agent.t) :
  let polls := (clock, arrivals) :: rest in
  let call :=
    send_task_to_agent utcnow recipient task_type task_data timeout during_send
      start polls ag in
  match a2a_client ag with
  | None => call = (ag, Raised (RuntimeError "A2A client not initialized"))
  | Some _ =>
      if connected ag
      then
        timeout <= 0 → start <= clock →
        call.2 = Raised (TimeoutError ("No response received for task "
                                       +:+ uuid4 (uuid_count ag) +:+ " within "
                                       +:+ pretty timeout +:+ "s"))
        ∧ ∃ m, outbox call.1 = outbox ag ++ [(A2AClient.channel_for recipient, m)]
      else
        (∃ e, call.2 = Raised e)
        ∧ outbox call.1 = outbox ag ∧ memory call.1 = memory ag
        ∧ uuid_count call.1 = S (S (uuid_count ag))
  end.
Proof.
  intros polls call. destruct (a2a_client ag) as [c|] eqn:Hc.
  2:{ subst call. unfold Agent.send_task_to_agent. by rewrite Hc. }
  destruct (connected ag) eqn:Hcon.
  - intros Htimeout Hclock.
    destruct (send_task_request utcnow recipient task_type task_data timeout start ag Hcon)
      as (ag1 & m & Heq & _ & Hout & _).
    subst call. rewrite Heq. subst polls.
    rewrite AgentFacts.wait_timeout by lia. cbn [fst snd]. split; [done|].
    exists m. destruct (AgentFacts.deliver_frame during_send ag1) as (Hc1 & _).
    unfold outbox in *. by rewrite Hc1.
  - subst call. unfold Agent.send_task_to_agent. rewrite Hc. unfold next_uuid.
    cbn [uuid_count set_uuid_count].
    match goal with |- context [Agent.client_send _ _ ?u ?m ?a] =>
      pose proof (AgentFacts.client_send_spec private_key_sign b64encode u m a c Hc) as H;
      cbn zeta in H;
      change (connected a) with (connected ag) in H;
      change (outbox a) with (outbox ag) in H;
      change (memory a) with (memory ag) in H;
      pose proof (client_send_uuid_count u m a) as Hcount;
      cbn [uuid_count set_uuid_count] in Hcount;
      pose proof (eq_refl (Agent.client_send private_key_sign b64encode u m a)) as E;
      unfold Agent.client_send in E at 2; cbn [a2a_client set_uuid_count] in E;
      rewrite Hc in E;
      destruct (Agent.client_send private_key_sign b64encode u m a) as [ag1 r]
    end.
    cbn [fst snd] in *. rewrite Hcon in H.
    destruct H as (Hu & _ & _ & Hmem & _ & _ & _ & _ & c' & _ & Hout).
    assert (Hr : ∃ e, r = Raise e).
    { unfold connected in Hcon. rewrite Hc in Hcon.
      unfold A2AClient.send_message in E.
      destruct (A2AClient.redis_client c) as [redis|]; [|injection E; eauto].
      rewrite Hcon in E. injection E; eauto. }
    destruct Hr as [e ->]. cbn [fst snd]. split_and!; [by eexists|done|done|done].
Qed.

End Behaviour.

Section RoundTrip.

(** The caller [a] and the responder [b] are two processes: each has its
    key, its identifier generator, and [b] its [execute_task]. *)
Variable sign_a b64_a : string → string.
Variable uuid_a : nat → string.
Variable sign_b b64_b : string → string.
Variable uuid_b : nat → string.
Variable execute_b :
  Py.value → Py.value → A2AMessage → AgentMemory.t → AgentMemory.t * result Py.value.

(** X14.  A task sent by one agent and handled by another comes back to the
    caller.  A connected agent [a] sends a task that a connected agent [b]
    supports: the request [a] publishes, handled by [b], draws one response
    on the channel of the request's sender; when that response is delivered
    to [a] during its first sleep and the next poll is within the deadline,
    the call of [a] returns the verdict of [b]: the task identifier [a]
    drew, [success = true] and the result of [b]'s [execute_task], or
    [success = false] and the text of the exception it raised. *)
Theorem task_round_trip utcnow_a utcnow_b recipient task_type task_data timeout
    start clock1 clock2 rest (a b : Agent.t) :
  let task_id := uuid_a (uuid_count a) in
  connected a = true →
  connected b = true →
  AgentMemory.retrieve (response_key (PStr task_id)) (memory a) = None →
  in_capabilities (PStr task_type) (capabilities b) = Ok true →
  clock1 - start < timeout →
  clock2 - start < timeout →
  ∃ request response,
    let call :=
      Agent.send_task_to_agent sign_a b64_a uuid_a utcnow_a recipient task_type
        task_data timeout [] start ((clock1, [response]) :: (clock2, []) :: rest) a in
    outbox call.1 = outbox a ++ [(A2AClient.channel_for recipient, request)]
    ∧ outbox (Agent._handle_task_request sign_b b64_b uuid_b execute_b utcnow_b request b)
      = outbox b ++ [(A2AClient.channel_for (sender_id request), response)]
    ∧ call.2
      = Returned
          (PDict
             match (execute_b (PStr task_type) (PDict task_data) request (memory b)).2 with
             | Ok res =>
                 [ ("task_id"%string, PStr task_id); ("success"%string, PBool true);
                   ("result"%string, res); ("error"%string, PNone) ]
             | Raise e =>
                 [ ("task_id"%string, PStr task_id); ("success"%string, PBool false);
                   ("result"%string, PNone); ("error"%string, PStr (exn_str e)) ]
             end).
Proof.
  intros task_id Ha Hb Hnone Hcap Hin1 Hin2.
  destruct (send_task_request sign_a b64_a uuid_a utcnow_a recipient task_type task_data
              timeout start a Ha) as (a1 & request & Heq & Hmem & Hout & _ & _ & Hpl).
  fold task_id in Heq, Hpl.
  pose proof (_handle_task_request_supported sign_b b64_b uuid_b execute_b utcnow_b
                request b) as Hsup.
  cbn zeta in Hsup. unfold Agent.answer_id in Hsup. rewrite Hpl in Hsup.
  cbn [Py.get Py.lookup String.eqb Ascii.eqb Bool.eqb] in Hsup.
  destruct (Hsup Hb Hcap eq_refl) as (_ & _ & _ & _ & response & Houtb & _ & Hplr).
  clear Hsup. exists request, response. cbn zeta. rewrite Heq.
  change (deliver [] a1) with a1.
  assert (Hkey : message_key response = response_key (PStr task_id)).
  { unfold message_key. rewrite Hplr. by destruct (execute_b _ _ request _).2. }
  assert (Hne : payload response ≠ []).
  { rewrite Hplr. by destruct (execute_b _ _ request _).2. }
  rewrite AgentFacts.wait_miss; [|done|by rewrite Hmem, Hnone].
  rewrite (AgentFacts.wait_hit _ _ _ _ _ _ _ (PDict (payload response))); [|done| |].
  - cbn [fst snd]. split_and!; [|done|by rewrite Hplr].
    destruct (AgentFacts.deliver_frame [response] a1) as (Hc & _).
    unfold outbox in *. by rewrite Hc.
  - rewrite AgentFacts.retrieve_deliver. simpl. rewrite Hkey.
    by destruct (decide (response_key (PStr task_id) = response_key (PStr task_id))).
  - simpl. by destruct (payload response).
Qed.

End RoundTrip.

(** The calculator of [Sample] and the echo agent of [Scenario], their
    stand-ins filled in. *)
Local Abbreviation calc_on_item :=
  (Agent.on_item Sample.private_key_sign Sample.b64encode Sample.uuid4
     Sample.execute_task Scenario.parse_raw).
Local Abbreviation calc_listen :=
  (Agent._listen_for_messages Sample.private_key_sign Sample.b64encode Sample.uuid4
     Sample.execute_task Scenario.parse_raw).
Local Abbreviation calc_handle_task_request :=
  (Agent._handle_task_request Sample.private_key_sign Sample.b64encode Sample.uuid4
     Sample.execute_task Sample.utcnow).
Local Abbreviation calc_handle_capability_query :=
  (Agent._handle_capability_query Sample.private_key_sign Sample.b64encode Sample.uuid4
     Sample.utcnow).
Local Abbreviation echo_send_task :=
  (Agent.send_task_to_agent Sample.private_key_sign Sample.b64encode Sample.uuid4
     Sample.utcnow).

Lemma unhandled_types_are_dropped_witness :
  let ag' := calc_on_item 5 Sample.utcnow (mk_item "message" "announcement") Sample.calc in
  outbox ag' = outbox Sample.calc ∧ trace ag' = trace Sample.calc
  ∧ memory ag' = memory Sample.calc ∧ _tasks ag' = _tasks Sample.calc
  ∧ capabilities ag' = capabilities Sample.calc
  ∧ uuid_count ag' = uuid_count Sample.calc.
Proof.
  exact (unhandled_types_are_dropped Sample.private_key_sign Sample.b64encode Sample.uuid4
           Sample.execute_task Scenario.parse_raw Sample.utcnow
           (Agent.init "calc-demo" "Calculator" [Sample.add_capability])
           5 Sample.utcnow (mk_item "message" "announcement") Scenario.announcement
           eq_refl eq_refl eq_refl).
Defined.

Lemma supported_task_is_executed_and_answered_witness :
  let ag' := calc_handle_task_request Sample.add_request Sample.calc in
  trace ag'
  = trace Sample.calc
    ++ [Executed (PStr "add") (PDict [("a"%string, PInt 2); ("b"%string, PInt 3)])
          Sample.add_request]
  ∧ _tasks ag' = tasks_discard (PStr "t-1") (_tasks Sample.calc)
  ∧ existsb (Py.eqb (PStr "t-1")) (_tasks ag') = false
  ∧ memory ag' = AgentMemory.store "calculation_m-1" (PInt 5) (memory Sample.calc)
  ∧ ∃ m, outbox ag' = outbox Sample.calc ++ [("agentic:agent:echo-demo"%string, m)]
      ∧ message_type m = TASK_RESPONSE
      ∧ payload m
        = [ ("task_id"%string, PStr "t-1"); ("success"%string, PBool true);
            ("result"%string, PDict [("result"%string, PInt 5)]);
            ("error"%string, PNone) ].
Proof.
  exact (supported_task_is_executed_and_answered Sample.private_key_sign Sample.b64encode
           Sample.uuid4 Sample.execute_task Sample.utcnow Sample.add_request Sample.calc
           eq_refl eq_refl eq_refl).
Defined.

(** The calculator's memory before and after the request: the handler left
    the sum that [execute_task] stored. *)
Example supported_task_writes_memory :
  AgentMemory.retrieve "calculation_m-1" (memory Sample.calc) = None
  ∧ AgentMemory.retrieve "calculation_m-1"
      (memory (calc_handle_task_request Sample.add_request Sample.calc))
    = Some (PInt 5).
Proof. split; vm_compute; reflexivity. Qed.

Lemma capability_query_is_answered_witness :
  let ag' := (calc_handle_capability_query Scenario.query Sample.calc).1 in
  (calc_handle_capability_query Scenario.query Sample.calc).2 = Ok tt
  ∧ (∃ m, outbox ag' = outbox Sample.calc ++ [("agentic:agent:echo-demo"%string, m)]
        ∧ message_type m = CAPABILITY_RESPONSE
        ∧ payload m
          = [ ("capabilities"%string,
               PList [AgentCapability.dict Sample.add_capability]) ]
        ∧ Py.lookup "capabilities" (payload m)
          = Py.lookup "capabilities" (announcement_payload Sample.calc))
  ∧ trace ag' = trace Sample.calc ∧ memory ag' = memory Sample.calc
  ∧ _tasks ag' = _tasks Sample.calc.
Proof.
  exact (capability_query_is_answered Sample.private_key_sign Sample.b64encode
           Sample.uuid4 Sample.utcnow Scenario.query Sample.calc eq_refl).
Defined.

Lemma listen_handles_items_in_order_witness :
  let items1 := [(6, Sample.utcnow, mk_item "message" "announcement")] in
  let items2 := [(7, Sample.utcnow, mk_item "message" "add_request")] in
  calc_listen (items1 ++ items2) Sample.calc
  = calc_listen items2 (calc_listen items1 Sample.calc)
  ∧ client_frame Sample.calc (calc_listen items1 Sample.calc)
  ∧ ∀ (st : Agent.t) c',
      a2a_client st = Some c' → A2AClient._running c' = false →
      calc_listen items1 st = st.
Proof.
  intros items1 items2.
  exact (listen_handles_items_in_order Sample.private_key_sign Sample.b64encode
           Sample.uuid4 Sample.execute_task Scenario.parse_raw items1 items2
           Sample.calc _ _ eq_refl eq_refl eq_refl).
Defined.

Lemma send_task_fails_fast_witness :
  (echo_send_task "calc-demo" "add" [("a"%string, PInt 2); ("b"%string, PInt 3)] 0
     [Sample.first_response] 10 [(10, [])] Sample.calc).2
  = Raised (TimeoutError "No response received for task uuid-1 within 0s")
  ∧ ∃ m, outbox (echo_send_task "calc-demo" "add"
                   [("a"%string, PInt 2); ("b"%string, PInt 3)] 0
                   [Sample.first_response] 10 [(10, [])] Sample.calc).1
         = outbox Sample.calc ++ [("agentic:agent:calc-demo"%string, m)].
Proof.
  apply (send_task_fails_fast Sample.private_key_sign Sample.b64encode Sample.uuid4
           Sample.utcnow "calc-demo" "add" [("a"%string, PInt 2); ("b"%string, PInt 3)] 0
           [Sample.first_response] 10 10 [] [] Sample.calc); lia.
Defined.

Lemma task_round_trip_witness :
  ∃ request response,
    let call :=
      echo_send_task "calc-demo" "add" [("a"%string, PInt 2); ("b"%string, PInt 3)] 30
        [] 0 [(1, [response]); (2, [])] Scenario.echo in
    outbox call.1 = outbox Scenario.echo ++ [("agentic:agent:calc-demo"%string, request)]
    ∧ outbox (calc_handle_task_request request Sample.calc)
      = outbox Sample.calc ++ [(A2AClient.channel_for (sender_id request), response)]
    ∧ call.2
      = Returned
          (PDict [ ("task_id"%string, PStr "uuid-1"); ("success"%string, PBool true);
                   ("result"%string, PDict [("result"%string, PInt 5)]);
                   ("error"%string, PNone) ]).
Proof.
  destruct (task_round_trip Sample.private_key_sign Sample.b64encode Sample.uuid4
              Sample.private_key_sign Sample.b64encode Sample.uuid4 Sample.execute_task
              Sample.utcnow Sample.utcnow "calc-demo" "add"
              [("a"%string, PInt 2); ("b"%string, PInt 3)] 30 0 1 2 []
              Scenario.echo Sample.calc eq_refl eq_refl eq_refl eq_refl eq_refl eq_refl)
    as (request & response & Hreq & Hresp & Hcall).
  exists request, response. split_and!; [exact Hreq|exact Hresp|exact Hcall].
Defined.

End AgentMore.

(** ** The agent's memory: the conversation history *)

Module MemoryMore.
Import Py AgentMemory.

Lemma lookup_setitem key v (d : Py.dict) key' :
  Py.lookup key' (Py.setitem key v d)
  = if String.eqb key key' then Some v else Py.lookup key' d.
Proof.
  induction d as [|[k x] d IH]; [done|].
  simpl. destruct (String.eqb k key) eqn:Hk.
  - apply String.eqb_eq in Hk as ->. simpl. by destruct (String.eqb key key').
  - simpl. destruct (String.eqb k key') eqn:Hk'; [|done].
    apply String.eqb_eq in Hk' as ->. by rewrite String.eqb_sym, Hk.
Qed.

Lemma slice_from_last {A} (l : list A) (x : A) : Py.slice_from (-1) (l ++ [x]) = [x].
Proof.
  unfold Py.slice_from, Py.slice_start. rewrite length_app. simpl.
  replace (Z.to_nat (Z.max (Z.of_nat (length l + 1) + -1) 0)) with (length l) by lia.
  by rewrite drop_app_length.
Qed.

Lemma slice_from_snoc {A} (n : Z) (l : list A) (x : A) :
  0 < n → Py.slice_from (- (n + 1)) (l ++ [x]) = Py.slice_from (- n) l ++ [x].
Proof.
  intros Hn. unfold Py.slice_from, Py.slice_start. rewrite length_app. simpl.
  rewrite !(proj2 (Z.ltb_lt _ _)) by lia.
  replace (Z.to_nat (Z.max (Z.of_nat (length l + 1) + - (n + 1)) 0))
    with (Z.to_nat (Z.max (Z.of_nat (length l) + - n) 0)) by lia.
  rewrite drop_app_le by lia. done.
Qed.

(** X15.  The history keeps what was added, newest last.  After
    [add_to_history(message)] the newest entry, the one [get_history(1)]
    returns, is the message with the key ["timestamp"] set to the current
    time, replacing a timestamp the message had; asking for [limit > 1]
    entries gives the [limit - 1] newest of before, followed by the new one;
    and the stored values are untouched. *)
Theorem history_keeps_the_latest utcnow (message : Py.dict) (m : t) :
  let m' := add_to_history utcnow message m in
  ∃ entry,
    get_history 1 m' = [entry]
    ∧ _conversation_history m' = _conversation_history m ++ [entry]
    ∧ Py.lookup "timestamp" entry = Some (PStr utcnow)
    ∧ (∀ key, String.eqb "timestamp" key = false →
         Py.lookup key entry = Py.lookup key message)
    ∧ (∀ limit, 1 < limit → get_history limit m' = get_history (limit - 1) m ++ [entry])
    ∧ ∀ key, retrieve key m' = retrieve key m.
Proof.
  intros m'. exists (Py.setitem "timestamp" (PStr utcnow) message).
  split_and!; try done.
  - apply slice_from_last.
  - by rewrite lookup_setitem.
  - intros key Hkey. by rewrite lookup_setitem, Hkey.
  - intros limit Hl. unfold get_history. simpl.
    replace (- limit) with (- ((limit - 1) + 1)) by lia.
    apply slice_from_snoc. lia.
Qed.

(** X16.  What [get_history(limit)] returns.  It is always the end of the
    history: for [limit > 0] the [limit] newest entries, all of them when the
    history is shorter; for [limit = 0] the whole history and not the empty
    list, the slice [[-0:]] being [[0:]]; for a negative [limit] the history
    without its [-limit] oldest entries. *)
Theorem get_history_window limit (m : t) :
  let history := _conversation_history m in
  get_history limit m
  = if bool_decide (limit = 0) then history
    else if bool_decide (0 < limit)
         then drop (length history - Z.to_nat limit) history
         else drop (Z.to_nat (- limit)) history.
Proof.
  intros history. unfold get_history, Py.slice_from, Py.slice_start. fold history.
  repeat case_bool_decide.
  - subst limit. simpl.
    by replace (Z.to_nat ((- 0) `min` Z.of_nat (length history))) with 0%nat by lia.
  - rewrite (proj2 (Z.ltb_lt _ _)) by lia. f_equal. lia.
  - rewrite (proj2 (Z.ltb_ge _ _)) by lia.
    destruct (decide (Z.to_nat (- limit) <= length history)%nat).
    + f_equal. lia.
    + rewrite !drop_ge by lia. done.
Qed.

End MemoryMore.

(** ** The capability registry built by [Agent(agent_id, name, capabilities)] *)

Module RegistryMore.
Import Py Agent.

Local Abbreviation cap_name := AgentCapability.name.
Local Abbreviation registry_of caps :=
  (foldl (λ d cap, capabilities_insert cap d) [] caps).

Lemma capabilities_insert_elem cap (d : list (string * AgentCapability.t)) k c :
  NoDup d.*1 →
  (k, c) ∈ capabilities_insert cap d
  ↔ if decide (k = cap_name cap) then c = cap else (k, c) ∈ d.
Proof.
  induction d as [|[k' c'] d IH]; csimpl; intros Hnd.
  - rewrite list_elem_of_singleton. destruct (decide (k = cap_name cap)) as [->|Hne].
    + split; [intros H; by injection H|by intros ->].
    + rewrite elem_of_nil. split; [intros H; by injection H|done].
  - apply NoDup_cons in Hnd as [Hk' Hnd]. specialize (IH Hnd).
    destruct (String.eqb k' (cap_name cap)) eqn:E.
    + apply String.eqb_eq in E as ->. rewrite !elem_of_cons.
      destruct (decide (k = cap_name cap)) as [->|Hne].
      * split; [intros [H|Hin]; [by injection H|]|intros ->; by left].
        destruct Hk'. apply list_elem_of_fmap. by exists (cap_name cap, c).
      * rewrite !elem_of_cons. split; (intros [H|Hin]; [by injection H|by right]).
    + apply String.eqb_neq in E. rewrite !elem_of_cons, IH.
      destruct (decide (k = cap_name cap)) as [->|Hne]; [|by rewrite elem_of_cons].
      split; [intros [H|?]; [injection H; congruence|done]|intros ?; by right].
Qed.

Lemma capabilities_insert_keys cap (d : list (string * AgentCapability.t)) :
  (capabilities_insert cap d).*1
  = if decide (cap_name cap ∈ d.*1) then d.*1 else d.*1 ++ [cap_name cap].
Proof.
  induction d as [|[k c] d IH]; csimpl.
  - destruct (decide (cap_name cap ∈ [])) as [Hin|]; [by apply elem_of_nil in Hin|done].
  - destruct (String.eqb k (cap_name cap)) eqn:E; csimpl.
    + apply String.eqb_eq in E as ->.
      destruct (decide (cap_name cap ∈ cap_name cap :: d.*1)) as [|Hn]; [done|].
      destruct Hn. left.
    + apply String.eqb_neq in E. rewrite IH.
      destruct (decide (cap_name cap ∈ d.*1)) as [Hin|Hin].
      * destruct (decide (cap_name cap ∈ k :: d.*1)) as [|Hn]; [done|].
        destruct Hn. by right.
      * destruct (decide (cap_name cap ∈ k :: d.*1)) as [Hin'|]; [|done].
        apply elem_of_cons in Hin' as [Heq|]; [congruence|done].
Qed.

Lemma capabilities_insert_new cap (d : list (string * AgentCapability.t)) :
  cap_name cap ∉ d.*1 → capabilities_insert cap d = d ++ [(cap_name cap, cap)].
Proof.
  induction d as [|[k c] d IH]; csimpl; intros Hn; [done|].
  apply not_elem_of_cons in Hn as [Hne Hn].
  destruct (String.eqb k (cap_name cap)) eqn:E.
  - apply String.eqb_eq in E. congruence.
  - by rewrite IH.
Qed.

Lemma registry_snoc caps cap :
  registry_of (caps ++ [cap]) = capabilities_insert cap (registry_of caps).
Proof. by rewrite foldl_app. Qed.

Lemma registry_keys caps :
  NoDup (registry_of caps).*1
  ∧ ∀ s, s ∈ (registry_of caps).*1 ↔ s ∈ cap_name <$> caps.
Proof.
  induction caps as [|cap caps [IHnd IH]] using rev_ind.
  - split; [constructor|done].
  - rewrite registry_snoc, capabilities_insert_keys, fmap_app.
    destruct (decide (cap_name cap ∈ (registry_of caps).*1)) as [Hin|Hin].
    + split; [done|]. intros s. rewrite elem_of_app, <- IH. csimpl.
      rewrite list_elem_of_singleton. split; [by left|]. by intros [?| ->].
    + split.
      * apply NoDup_app. split_and!; [done| |apply NoDup_singleton].
        intros x Hx Hx'. apply list_elem_of_singleton in Hx'. by subst.
      * intros s. by rewrite !elem_of_app, IH.
Qed.

Lemma existsb_key s (d : list (string * AgentCapability.t)) :
  existsb (λ kc, String.eqb kc.1 s) d = bool_decide (s ∈ d.*1).
Proof.
  induction d as [|[k c] d IH]; csimpl; [done|].
  - rewrite IH. destruct (String.eqb k s) eqn:E; simpl.
    + apply String.eqb_eq in E as ->. symmetry. apply bool_decide_eq_true_2. left.
    + apply String.eqb_neq in E. apply bool_decide_ext. rewrite elem_of_cons.
      split; [by right|]. by intros [->|].
Qed.

(** X17.  The registry is the dict [{cap.name: cap for cap in capabilities}]:
    an agent supports exactly the names of the capabilities it was created
    with (and no task type that is not a string); no name is listed twice;
    and when several capabilities have the same name, the registry holds the
    last of them, so that the earlier ones are never announced. *)
Theorem registry_holds_last_of_each_name agent_id name caps :
  let registry := capabilities (init agent_id name caps) in
  (∀ s, in_capabilities (PStr s) registry = Ok (bool_decide (s ∈ cap_name <$> caps)))
  ∧ (∀ v, match v with PStr _ | PList _ | PDict _ => True
          | _ => in_capabilities v registry = Ok false end)
  ∧ NoDup registry.*1
  ∧ ∀ k c, (k, c) ∈ registry
           ↔ last (List.filter (λ c', bool_decide (cap_name c' = k)) caps) = Some c.
Proof.
  intros registry. subst registry. cbn [capabilities init].
  destruct (registry_keys caps) as [Hnd Hkeys].
  split_and!; [| |done|].
  - intros s. unfold in_capabilities. rewrite existsb_key. f_equal.
    apply bool_decide_ext, Hkeys.
  - by intros [].
  - clear Hnd Hkeys. induction caps as [|cap caps IH] using rev_ind; intros k c.
    + simpl. rewrite elem_of_nil. done.
    + rewrite registry_snoc, capabilities_insert_elem by apply registry_keys.
      rewrite List.filter_app. simpl.
      destruct (decide (k = cap_name cap)) as [->|Hne].
      * rewrite bool_decide_eq_true_2 by done. rewrite last_snoc.
        split; [by intros ->|congruence].
      * rewrite bool_decide_eq_false_2 by done. rewrite app_nil_r. apply IH.
Qed.

(** X18.  With capabilities of different names the registry lists them in
    the order given, each under its name: the announcement and the answer
    to a capability query carry them in that order. *)
Theorem registry_keeps_order agent_id name caps :
  NoDup (cap_name <$> caps) →
  capabilities (init agent_id name caps) = (λ cap, (cap_name cap, cap)) <$> caps
  ∧ Py.lookup "capabilities" (announcement_payload (init agent_id name caps))
    = Some (PList (AgentCapability.dict <$> caps)).
Proof.
  intros Hnd. cbn [capabilities init].
  assert (H : registry_of caps = (λ cap, (cap_name cap, cap)) <$> caps).
  { induction caps as [|cap caps IH] using rev_ind; [done|].
    rewrite fmap_app in Hnd. apply NoDup_app in Hnd as (Hnd & Hnew & _).
    rewrite registry_snoc, capabilities_insert_new, IH, fmap_app by
      (try done; rewrite (proj2 (registry_keys caps)); intros Hin;
       apply (Hnew _ Hin); csimpl; left).
    done. }
  split; [done|]. unfold announcement_payload. cbn [capabilities init Py.lookup].
  simpl. rewrite H. do 2 f_equal.
  rewrite <- list_fmap_compose. done.
Qed.

Lemma registry_keeps_order_witness :
  capabilities (SimpleEchoAgent.init "echo-demo")
  = (λ cap, (cap_name cap, cap)) <$> SimpleEchoAgent.capabilities
  ∧ Py.lookup "capabilities" (announcement_payload (SimpleEchoAgent.init "echo-demo"))
    = Some (PList (AgentCapability.dict <$> SimpleEchoAgent.capabilities)).
Proof.
  apply (registry_keeps_order "echo-demo" "SimpleEcho" SimpleEchoAgent.capabilities).
  repeat (apply NoDup_cons_2;
          [rewrite ?elem_of_cons, ?elem_of_nil; intros H;
           repeat (destruct H as [H|H]; [discriminate H|]); destruct H|]).
  apply NoDup_nil_2.
Defined.

End RegistryMore.

(** ** The task-request handler on any agent, connected or not *)

Module HandlerMore.
Import Py Message Agent.

#[local] Arguments A2AClient._prepare_message : simpl never.
#[local] Arguments A2AClient.channel_for : simpl never.

Section Containment.

Variable private_key_sign : string → string.
Variable b64encode : string → string.
Variable uuid4 : nat → string.
Variable execute_task :
  Py.value → Py.value → A2AMessage → AgentMemory.t → AgentMemory.t * result Py.value.

Local Abbreviation client_send := (Agent.client_send private_key_sign b64encode).
Local Abbreviation _send_task_response :=
  (Agent._send_task_response private_key_sign b64encode uuid4).
Local Abbreviation _handle_task_request :=
  (Agent._handle_task_request private_key_sign b64encode uuid4 execute_task).
Local Abbreviation answer_id := (Agent.answer_id uuid4).

(** What a call of [_send_task_response] does to the outbox, by its result. *)
Lemma _send_task_response_outbox utcnow recipient task_id success res err (ag : Agent.t) :
  let call := _send_task_response utcnow recipient task_id success res err ag in
  same_but_client ag call.1
  ∧ ∃ new, outbox call.1 = outbox ag ++ new
      ∧ (length new <= 1)%nat
      ∧ (connected ag = false → new = [])
      ∧ match call.2 with Ok _ => True | Raise _ => new = [] end.
Proof.
  cbn zeta.
  pose proof (AgentFacts._send_task_response_spec private_key_sign b64encode uuid4
                utcnow recipient task_id success res err ag) as (Hsame & new & Hout & _ & Hnew).
  split; [done|]. exists new. split; [done|].
  destruct (connected ag) eqn:Hcon.
  - destruct (Hnew eq_refl) as (-> & m & -> & _). split_and!; simpl; done || lia.
  - clear Hnew. unfold Agent._send_task_response in *.
    destruct (a2a_client ag) as [c|] eqn:Hc.
    2:{ cbn in *. rewrite <- (app_nil_r (outbox ag)) in Hout at 1.
        apply app_inv_head in Hout as <-. split_and!; simpl; done || lia. }
    unfold next_uuid in *.
    match type of Hout with context [Agent.client_send _ _ ?u ?m ?a] =>
      pose proof (AgentFacts.client_send_spec private_key_sign b64encode u m a c Hc) as H;
      cbn zeta in H;
      change (connected a) with (connected ag) in H;
      change (outbox a) with (outbox ag) in H
    end.
    rewrite Hcon in H. destruct H as (_ & _ & _ & _ & _ & _ & _ & _ & c' & _ & Hout').
    rewrite Hout' in Hout. rewrite <- (app_nil_r (outbox ag)) in Hout at 1.
    apply app_inv_head in Hout as <-. split_and!; simpl; try done; try lia.
    by destruct (Agent.client_send _ _ _ _ _).2.
Qed.

Lemma tasks_add_discard_subseteq (task_id : Py.value) tasks tasks' x :
  tasks_add task_id tasks = Ok tasks' →
  x ∈ tasks_discard task_id tasks' → x ∈ tasks.
Proof.
  unfold tasks_add, tasks_discard. destruct (Py.hashable task_id) eqn:Hh; [|done].
  intros [= <-]. rewrite !list_elem_of_In, filter_In, <- !list_elem_of_In.
  intros [Hin Hne]. destruct (existsb _ tasks); [done|].
  apply elem_of_app in Hin as [?|Hin]; [done|].
  apply list_elem_of_singleton in Hin as ->.
  by rewrite (AgentMore.eqb_refl_hashable _ Hh) in Hne.
Qed.

(** X19.  What handling a task request can do, on any agent and for any
    request, connected or not, supported or not, well formed or not: it
    never touches the registry or the security context; it leaves in
    [_tasks] no identifier that was not there before; it calls
    [execute_task] at most once, and the memory it leaves is the memory as it
    was when [execute_task] was not called, and the memory that call left
    when it was; and it publishes at most one message, none at all when
    the agent is not connected. *)
Theorem task_request_is_contained utcnow (message : A2AMessage) (ag : Agent.t) :
  let ag' := _handle_task_request utcnow message ag in
  let task_type := Py.get (payload message) "task_type" PNone in
  let task_data := Py.get (payload message) "data" (PDict []) in
  capabilities ag' = capabilities ag
  ∧ security_context ag' = security_context ag
  ∧ (∀ x, x ∈ _tasks ag' → x ∈ _tasks ag)
  ∧ (trace ag' = trace ag ∧ memory ag' = memory ag
     ∨ trace ag' = trace ag ++ [Executed task_type task_data message]
       ∧ memory ag' = (execute_task task_type task_data message (memory ag)).1)
  ∧ ∃ new, outbox ag' = outbox ag ++ new
      ∧ (length new <= 1)%nat
      ∧ (connected ag = false → new = []).
Proof.
  intros ag' task_type task_data. subst ag'.
  unfold Agent._handle_task_request, next_uuid.
  set (ag0 := set_uuid_count (S (uuid_count ag)) ag).
  set (task_id := Py.get (payload message) "task_id" _).
  fold task_type task_data.
  change (capabilities ag0) with (capabilities ag).
  destruct (in_capabilities task_type (capabilities ag)) as [[|]|e].
  - change (_tasks ag0) with (_tasks ag).
    destruct (tasks_add task_id (_tasks ag)) as [tasks|e] eqn:Hadd.
    2:{ split_and!; try done; [by left|].
        exists []. rewrite app_nil_r. split_and!; [done|simpl; lia|done]. }
    cbn [memory record_event set_tasks set_uuid_count ag0].
    destruct (execute_task task_type task_data message (memory ag)) as [mem1 executed].
    set (ag1 := set_memory mem1 (record_event _ (set_tasks tasks ag0))).
    cbn [fst].
    assert (Hdone : ∀ ag2 : Agent.t,
      same_but_client ag1 ag2 →
      (∃ new, outbox ag2 = outbox ag ++ new ∧ (length new <= 1)%nat
              ∧ (connected ag = false → new = [])) →
      capabilities (set_tasks (tasks_discard task_id (_tasks ag2)) ag2) = capabilities ag
      ∧ security_context (set_tasks (tasks_discard task_id (_tasks ag2)) ag2)
        = security_context ag
      ∧ (∀ x, x ∈ _tasks (set_tasks (tasks_discard task_id (_tasks ag2)) ag2)
              → x ∈ _tasks ag)
      ∧ (trace (set_tasks (tasks_discard task_id (_tasks ag2)) ag2) = trace ag
         ∧ memory (set_tasks (tasks_discard task_id (_tasks ag2)) ag2) = memory ag
         ∨ trace (set_tasks (tasks_discard task_id (_tasks ag2)) ag2)
           = trace ag ++ [Executed task_type task_data message]
           ∧ memory (set_tasks (tasks_discard task_id (_tasks ag2)) ag2) = mem1)
      ∧ ∃ new, outbox (set_tasks (tasks_discard task_id (_tasks ag2)) ag2)
               = outbox ag ++ new
          ∧ (length new <= 1)%nat ∧ (connected ag = false → new = [])).
    { intros ag2 (_ & Hcap & Hmem & Hsc & Htasks & Htrace & _) Hout.
      cbn [memory capabilities security_context _tasks trace set_tasks].
      rewrite Hmem, Hcap, Hsc, Htasks, Htrace. split_and!; try done.
      - intros x. change (_tasks ag1) with tasks.
        by apply tasks_add_discard_subseteq.
      - by right. }
    destruct executed as [res|e].
    + pose proof (_send_task_response_outbox utcnow (sender_id message) task_id true res
                    PNone ag1) as (Hsame & new & Hout & Hlen & Hoff & Hres).
      cbn zeta in *.
      destruct (_send_task_response utcnow (sender_id message) task_id true res PNone ag1)
        as [ag2 [[]|e]]; cbn [fst snd] in *.
      * apply Hdone; [done|]. by exists new.
      * subst new. rewrite app_nil_r in Hout.
        pose proof (_send_task_response_outbox utcnow (sender_id message) task_id false
                      PNone (PStr (exn_str e)) ag2) as (Hsame2 & new2 & Hout2 & Hlen2 & Hoff2 & _).
        cbn zeta in *. apply Hdone.
        -- destruct Hsame as (? & ? & ? & ? & ? & ? & ?).
           destruct Hsame2 as (? & ? & ? & ? & ? & ? & ?).
           unfold same_but_client. split_and!; congruence.
        -- exists new2. rewrite Hout2, Hout. split_and!; [done|done|].
           intros Hcon. apply Hoff2. destruct Hsame as (_ & _ & _ & _ & _ & _ & ->).
           done.
    + pose proof (_send_task_response_outbox utcnow (sender_id message) task_id false
                    PNone (PStr (exn_str e)) ag1) as (Hsame & new & Hout & Hlen & Hoff & _).
      cbn zeta in *. apply Hdone; [done|]. by exists new.
  - pose proof (_send_task_response_outbox utcnow (sender_id message) task_id false PNone
                  (PStr ("Capability '" +:+ Py.str task_type +:+ "' not supported")) ag0)
      as (Hsame & new & Hout & Hlen & Hoff & _).
    cbn zeta in *. destruct Hsame as (_ & Hcap & Hmem & Hsc & Htasks & Htrace & _).
    rewrite Hmem, Hcap, Hsc, Htasks, Htrace. split_and!; try done; [by left|].
    by exists new.
  - split_and!; try done; [by left|].
    exists []. rewrite app_nil_r. split_and!; [done|simpl; lia|done].
Qed.

(** X20.  A request for a task type that is hashable and is no key of the
    registry is refused without being executed: a connected agent publishes
    one response on the channel of the sender, with [success = false], no
    result and the error ["Capability '<type>' not supported"], under the
    identifier of the request or a new one when it has none; [_tasks] and
    the trace are as before. *)
Theorem unsupported_task_is_refused utcnow (message : A2AMessage) (ag : Agent.t) :
  let task_type := Py.get (payload message) "task_type" PNone in
  let ag' := _handle_task_request utcnow message ag in
  in_capabilities task_type (capabilities ag) = Ok false →
  connected ag = true →
  (∃ m, outbox ag' = outbox ag ++ [(A2AClient.channel_for (sender_id message), m)]
        ∧ message_type m = TASK_RESPONSE
        ∧ payload m
          = [ ("task_id"%string, answer_id message ag);
              ("success"%string, PBool false);
              ("result"%string, PNone);
              ("error"%string,
               PStr ("Capability '" +:+ Py.str task_type +:+ "' not supported")) ])
  ∧ trace ag' = trace ag ∧ _tasks ag' = _tasks ag ∧ memory ag' = memory ag.
Proof.
  intros task_type ag' Hcap Hcon. subst ag'.
  unfold Agent._handle_task_request, next_uuid.
  set (ag0 := set_uuid_count (S (uuid_count ag)) ag).
  change (capabilities ag0) with (capabilities ag). fold task_type. rewrite Hcap.
  pose proof (AgentFacts._send_task_response_spec private_key_sign b64encode uuid4 utcnow
                (sender_id message) (answer_id message ag) false PNone
                (PStr ("Capability '" +:+ Py.str task_type +:+ "' not supported")) ag0)
    as (Hsame & new & Hout & _ & Hnew).
  destruct (Hnew Hcon) as (_ & m & -> & Hty & Hpl).
  destruct Hsame as (_ & _ & Hmem & _ & Htasks & Htrace & _).
  split_and!; [|done|done|done]. by exists m.
Qed.

End Containment.

Lemma unsupported_task_is_refused_witness :
  let ag' :=
    Agent._handle_task_request Sample.private_key_sign Sample.b64encode Sample.uuid4
      Sample.execute_task Sample.utcnow Sample.multiply_request Sample.calc in
  (∃ m, outbox ag' = outbox Sample.calc ++ [("agentic:agent:echo-demo"%string, m)]
        ∧ message_type m = TASK_RESPONSE
        ∧ payload m
          = [ ("task_id"%string, PStr "uuid-1");
              ("success"%string, PBool false);
              ("result"%string, PNone);
              ("error"%string, PStr "Capability 'multiply' not supported") ])
  ∧ trace ag' = trace Sample.calc ∧ _tasks ag' = _tasks Sample.calc
  ∧ memory ag' = memory Sample.calc.
Proof.
  exact (unsupported_task_is_refused Sample.private_key_sign Sample.b64encode
           Sample.uuid4 Sample.execute_task Sample.utcnow Sample.multiply_request
           Sample.calc eq_refl eq_refl).
Defined.

End HandlerMore.

(** ** The client's health report *)

Module HealthMore.
Import Py Message A2AClient.

Section Report.

Variable private_key_sign : string → string.
Variable b64encode : string → string.
Variable uuid4 : nat → string.

Local Abbreviation initialize := (Agent.initialize private_key_sign b64encode uuid4).

(** X21.  The health report and the life cycle.  The status of
    [health_check] is ["healthy"] exactly when [is_connected()] holds, that
    is when the client is running and has a Redis object, whatever the ping
    says.  For the client of an agent after [initialize()]: when Redis
    answered, it is connected and the report says healthy, listening, three
    handlers; when [initialize] failed it is not connected and the report
    says unhealthy, not listening, no handler, and the ping is still tried,
    because the Redis object was kept.  In both cases [redis_connected] is
    the outcome of the ping, and [redis_error], the last key, is present
    exactly when the ping raised. *)
Theorem health_after_initialize utcnow (server_up : bool) (ping : result unit)
    (ag : Agent.t) :
  (∀ c, Py.lookup "status" (health_check ping c)
        = Some (PStr (if is_connected c then "healthy" else "unhealthy")))
  ∧ ∃ c, Agent.a2a_client (initialize utcnow server_up ag).1 = Some c
      ∧ is_connected c = server_up
      ∧ health_check ping c
        = [ ("status"%string, PStr (if server_up then "healthy" else "unhealthy"));
            ("agent_id"%string, PStr (Agent.agent_id ag));
            ("redis_connected"%string,
             PBool match ping with Ok _ => true | Raise _ => false end);
            ("listening"%string, PBool server_up);
            ("handlers_registered"%string, PInt (if server_up then 3 else 0)) ]
          ++ match ping with
             | Ok _ => []
             | Raise e => [("redis_error"%string, PStr (exn_str e))]
             end.
Proof.
  split.
  - intros c. unfold health_check. destruct (redis_client c); [|done].
    by destruct ping.
  - destruct server_up.
    + unfold Agent.initialize, Agent._register_message_handlers,
        Agent._announce_capabilities, Agent.next_uuid, broadcast_message, send_message.
      cbn -[_prepare_message channel_for].
      eexists. split; [done|]. split; [done|]. by destruct ping.
    + cbn. eexists. split; [done|]. split; [done|]. by destruct ping.
Qed.

End Report.

End HealthMore.

(** ** The echo agent of the examples *)

Module EchoMore.
Import Py Message SimpleEchoAgent.

Lemma rev_app_rev_app (s1 s2 s3 : string) :
  String.rev_app (String.rev_app s1 s2) s3 = String.rev_app s2 (s1 +:+ s3).
Proof. revert s2. induction s1 as [|a s1 IH]; intros s2; [done|]. simpl. by rewrite IH. Qed.

Lemma append_nil_r (s : string) : s +:+ "" = s.
Proof.
  induction s as [|a s IH]; [done|].
  change (String a (s +:+ "") = String a s). by rewrite IH.
Qed.

Lemma rev_involutive (s : string) : String.rev (String.rev s) = s.
Proof. unfold String.rev. rewrite rev_app_rev_app. simpl. apply append_nil_r. Qed.

Lemma rev_app_length (s1 s2 : string) :
  String.length (String.rev_app s1 s2) = (String.length s1 + String.length s2)%nat.
Proof.
  revert s2. induction s1 as [|a s1 IH]; intros s2; [done|]. simpl. rewrite IH. simpl. lia.
Qed.

Lemma rev_length (s : string) : String.length (String.rev s) = String.length s.
Proof. unfold String.rev. rewrite rev_app_length. simpl. lia. Qed.

Section Text.

Variable upper : string → string.

Local Abbreviation execute_task := (SimpleEchoAgent.execute_task upper).
Local Abbreviation process := (SimpleEchoAgent.process upper).

(** X22.  A text task of the echo agent writes all or nothing.  When
    [execute_task] raises (the task data is no dict, its ["message"] is no
    string, or the task type is none of the three), the agent is exactly as
    before.  When it returns, the text was the ["message"] of the task data,
    the empty string when the key is missing; the value returned holds the
    processed text, the operation and the original; the record of the task
    can be retrieved under ["text_processing_<message id>"], the other stored
    values being untouched; and the newest history entry holds the lengths of
    input and output and the time. *)
Theorem text_task_writes_all_or_nothing utcnow task_type task_data
    (message : A2AMessage) (ag : Agent.t) :
  let call := execute_task utcnow task_type task_data message ag in
  let key := ("text_processing_" +:+ message_id message)%string in
  match call.2 with
  | Raises _ => call.1 = ag
  | Done value =>
      ∃ data text out,
        task_data = PDict data
        ∧ Py.get data "message" (PStr "") = PStr text
        ∧ process task_type text = Some out
        ∧ value = PDict [ ("result"%string, PStr out);
                          ("operation"%string, task_type);
                          ("original"%string, PStr text) ]
        ∧ AgentMemory.retrieve key (Agent.memory call.1)
          = Some (PDict [ ("operation"%string, task_type);
                          ("input"%string, PStr text);
                          ("output"%string, PStr out);
                          ("requester"%string, PStr (sender_id message)) ])
        ∧ (∀ key', key' ≠ key →
             AgentMemory.retrieve key' (Agent.memory call.1)
             = AgentMemory.retrieve key' (Agent.memory ag))
        ∧ AgentMemory.get_history 1 (Agent.memory call.1)
          = [ [ ("type"%string, PStr "text_processing");
                ("operation"%string, task_type);
                ("input_length"%string, PInt (Z.of_nat (String.length text)));
                ("output_length"%string, PInt (Z.of_nat (String.length out)));
                ("timestamp"%string, PStr utcnow) ] ]
        ∧ Agent.outbox call.1 = Agent.outbox ag
        ∧ Agent._tasks call.1 = Agent._tasks ag
  end.
Proof.
  intros call key. subst call. unfold SimpleEchoAgent.execute_task.
  destruct task_data as [| | | | |data]; try done.
  destruct (Py.get data "message" (PStr "")) as [| | |text| |] eqn:Hget; try done.
  destruct (process task_type text) as [out|] eqn:Hp; [|done].
  cbn [fst snd]. exists data, text, out. split_and!; try done.
  - unfold AgentMemory.retrieve, AgentMemory.add_to_history, AgentMemory.store.
    cbn [Agent.memory Agent.set_memory AgentMemory._memory]. apply lookup_insert_eq.
  - intros key' Hne.
    unfold AgentMemory.retrieve, AgentMemory.add_to_history, AgentMemory.store.
    cbn [Agent.memory Agent.set_memory AgentMemory._memory].
    by apply lookup_insert_ne.
  - unfold AgentMemory.get_history. cbn [Agent.memory Agent.set_memory].
    unfold AgentMemory.add_to_history. cbn [AgentMemory._conversation_history].
    apply MemoryMore.slice_from_last.
Qed.

(** X23.  Reversing twice gives the text back.  The task ["reverse"] returns
    a text of the same length as its input, and running it again on that
    result returns the original text; both calls succeed on any text. *)
Theorem reverse_twice_is_identity utcnow1 utcnow2 text (m1 m2 : A2AMessage)
    (ag : Agent.t) :
  let reverse utcnow text message ag :=
    execute_task utcnow (PStr "reverse") (PDict [("message"%string, PStr text)])
      message ag in
  ∃ reversed,
    (reverse utcnow1 text m1 ag).2
    = Done (PDict [ ("result"%string, PStr reversed);
                    ("operation"%string, PStr "reverse");
                    ("original"%string, PStr text) ])
    ∧ String.length reversed = String.length text
    ∧ (reverse utcnow2 reversed m2 (reverse utcnow1 text m1 ag).1).2
      = Done (PDict [ ("result"%string, PStr text);
                      ("operation"%string, PStr "reverse");
                      ("original"%string, PStr reversed) ]).
Proof.
  intros reverse. exists (String.rev text). subst reverse. cbn.
  split_and!; [done|apply rev_length|]. by rewrite rev_involutive.
Qed.

End Text.

End EchoMore.
